(** * bourse_bot: the notifier bot and the companion detail scraper

    A shallow embedding of [notifier_bot.py] and [scraper/scraper.py].

    Conventions of the embedding.
    - A Python [str] is a list of Unicode code points ([N]); [len] is the
      list length.  What [str.strip], [str.split], [str.upper], [str.lower],
      [\d] and [\s] do depends on the Unicode Character Database; the
      tables of module [Ucd] and the character sets of module [Py] are
      those of version 14.0, the one of CPython 3.11.
    - A Python [float] is an IEEE-754 binary64 value, taken from the
      Standard Library's [SpecFloat].
    - The page handed to [parse_synthese] is the tree that BeautifulSoup
      builds; elements are addressed by their path from the root.
    - The network and the document store are explicit state; a reading of
      the clock ([time.time()]) is a float, given by the rational number it
      stands for, and is an argument of the call that reads it.  A
      difference of two readings is rounded as the float subtraction
      rounds it. *)

From Stdlib Require Import ZArith NArith List Bool Lia String Ascii.
From Stdlib Require Import QArith Floats DecimalPos.
From stdpp Require Import base option list sorting gmap.

Set Warnings "-inexact-float,-register-all".
Local Open Scope Z_scope.

(** ** Unicode data *)

Module Ucd.

Definition char := N.
Definition str := list char.

(** The code points that [str.upper] changes, each with what it becomes
    (the full upper-case mapping of the Unicode Character Database 14.0,
    as CPython 3.11 holds it). *)
Definition UPPER : list (char * str) :=
  [
    (97, [65]); (98, [66]); (99, [67]); (100, [68]); (101, [69]);
    (102, [70]); (103, [71]); (104, [72]); (105, [73]); (106, [74]);
    (107, [75]); (108, [76]); (109, [77]); (110, [78]); (111, [79]);
    (112, [80]); (113, [81]); (114, [82]); (115, [83]); (116, [84]);
    (117, [85]); (118, [86]); (119, [87]); (120, [88]); (121, [89]);
    (122, [90]); (181, [924]); (223, [83; 83]); (224, [192]); (225, [193]);
    (226, [194]); (227, [195]); (228, [196]); (229, [197]); (230, [198]);
    (231, [199]); (232, [200]); (233, [201]); (234, [202]); (235, [203]);
    (236, [204]); (237, [205]); (238, [206]); (239, [207]); (240, [208]);
    (241, [209]); (242, [210]); (243, [211]); (244, [212]); (245, [213]);
    (246, [214]); (248, [216]); (249, [217]); (250, [218]); (251, [219]);
    (252, [220]); (253, [221]); (254, [222]); (255, [376]); (257, [256]);
    (259, [258]); (261, [260]); (263, [262]); (265, [264]); (267, [266]);
    (269, [268]); (271, [270]); (273, [272]); (275, [274]); (277, [276]);
    (279, [278]); (281, [280]); (283, [282]); (285, [284]); (287, [286]);
    (289, [288]); (291, [290]); (293, [292]); (295, [294]); (297, [296]);
    (299, [298]); (301, [300]); (303, [302]); (305, [73]); (307, [306]);
    (309, [308]); (311, [310]); (314, [313]); (316, [315]); (318, [317]);
    (320, [319]); (322, [321]); (324, [323]); (326, [325]); (328, [327]);
    (329, [700; 78]); (331, [330]); (333, [332]); (335, [334]);
    (337, [336]); (339, [338]); (341, [340]); (343, [342]); (345, [344]);
    (347, [346]); (349, [348]); (351, [350]); (353, [352]); (355, [354]);
    (357, [356]); (359, [358]); (361, [360]); (363, [362]); (365, [364]);
    (367, [366]); (369, [368]); (371, [370]); (373, [372]); (375, [374]);
    (378, [377]); (380, [379]); (382, [381]); (383, [83]); (384, [579]);
    (387, [386]); (389, [388]); (392, [391]); (396, [395]); (402, [401]);
    (405, [502]); (409, [408]); (410, [573]); (414, [544]); (417, [416]);
    (419, [418]); (421, [420]); (424, [423]); (429, [428]); (432, [431]);
    (436, [435]); (438, [437]); (441, [440]); (445, [444]); (447, [503]);
    (453, [452]); (454, [452]); (456, [455]); (457, [455]); (459, [458]);
    (460, [458]); (462, [461]); (464, [463]); (466, [465]); (468, [467]);
    (470, [469]); (472, [471]); (474, [473]); (476, [475]); (477, [398]);
    (479, [478]); (481, [480]); (483, [482]); (485, [484]); (487, [486]);
    (489, [488]); (491, [490]); (493, [492]); (495, [494]);
    (496, [74; 780]); (498, [497]); (499, [497]); (501, [500]);
    (505, [504]); (507, [506]); (509, [508]); (511, [510]); (513, [512]);
    (515, [514]); (517, [516]); (519, [518]); (521, [520]); (523, [522]);
    (525, [524]); (527, [526]); (529, [528]); (531, [530]); (533, [532]);
    (535, [534]); (537, [536]); (539, [538]); (541, [540]); (543, [542]);
    (547, [546]); (549, [548]); (551, [550]); (553, [552]); (555, [554]);
    (557, [556]); (559, [558]); (561, [560]); (563, [562]); (572, [571]);
    (575, [11390]); (576, [11391]); (578, [577]); (583, [582]);
    (585, [584]); (587, [586]); (589, [588]); (591, [590]); (592, [11375]);
    (593, [11373]); (594, [11376]); (595, [385]); (596, [390]);
    (598, [393]); (599, [394]); (601, [399]); (603, [400]); (604, [42923]);
    (608, [403]); (609, [42924]); (611, [404]); (613, [42893]);
    (614, [42922]); (616, [407]); (617, [406]); (618, [42926]);
    (619, [11362]); (620, [42925]); (623, [412]); (625, [11374]);
    (626, [413]); (629, [415]); (637, [11364]); (640, [422]);
    (642, [42949]); (643, [425]); (647, [42929]); (648, [430]);
    (649, [580]); (650, [433]); (651, [434]); (652, [581]); (658, [439]);
    (669, [42930]); (670, [42928]); (837, [921]); (881, [880]);
    (883, [882]); (887, [886]); (891, [1021]); (892, [1022]); (893, [1023]);
    (912, [921; 776; 769]); (940, [902]); (941, [904]); (942, [905]);
    (943, [906]); (944, [933; 776; 769]); (945, [913]); (946, [914]);
    (947, [915]); (948, [916]); (949, [917]); (950, [918]); (951, [919]);
    (952, [920]); (953, [921]); (954, [922]); (955, [923]); (956, [924]);
    (957, [925]); (958, [926]); (959, [927]); (960, [928]); (961, [929]);
    (962, [931]); (963, [931]); (964, [932]); (965, [933]); (966, [934]);
    (967, [935]); (968, [936]); (969, [937]); (970, [938]); (971, [939]);
    (972, [908]); (973, [910]); (974, [911]); (976, [914]); (977, [920]);
    (981, [934]); (982, [928]); (983, [975]); (985, [984]); (987, [986]);
    (989, [988]); (991, [990]); (993, [992]); (995, [994]); (997, [996]);
    (999, [998]); (1001, [1000]); (1003, [1002]); (1005, [1004]);
    (1007, [1006]); (1008, [922]); (1009, [929]); (1010, [1017]);
    (1011, [895]); (1013, [917]); (1016, [1015]); (1019, [1018]);
    (1072, [1040]); (1073, [1041]); (1074, [1042]); (1075, [1043]);
    (1076, [1044]); (1077, [1045]); (1078, [1046]); (1079, [1047]);
    (1080, [1048]); (1081, [1049]); (1082, [1050]); (1083, [1051]);
    (1084, [1052]); (1085, [1053]); (1086, [1054]); (1087, [1055]);
    (1088, [1056]); (1089, [1057]); (1090, [1058]); (1091, [1059]);
    (1092, [1060]); (1093, [1061]); (1094, [1062]); (1095, [1063]);
    (1096, [1064]); (1097, [1065]); (1098, [1066]); (1099, [1067]);
    (1100, [1068]); (1101, [1069]); (1102, [1070]); (1103, [1071]);
    (1104, [1024]); (1105, [1025]); (1106, [1026]); (1107, [1027]);
    (1108, [1028]); (1109, [1029]); (1110, [1030]); (1111, [1031]);
    (1112, [1032]); (1113, [1033]); (1114, [1034]); (1115, [1035]);
    (1116, [1036]); (1117, [1037]); (1118, [1038]); (1119, [1039]);
    (1121, [1120]); (1123, [1122]); (1125, [1124]); (1127, [1126]);
    (1129, [1128]); (1131, [1130]); (1133, [1132]); (1135, [1134]);
    (1137, [1136]); (1139, [1138]); (1141, [1140]); (1143, [1142]);
    (1145, [1144]); (1147, [1146]); (1149, [1148]); (1151, [1150]);
    (1153, [1152]); (1163, [1162]); (1165, [1164]); (1167, [1166]);
    (1169, [1168]); (1171, [1170]); (1173, [1172]); (1175, [1174]);
    (1177, [1176]); (1179, [1178]); (1181, [1180]); (1183, [1182]);
    (1185, [1184]); (1187, [1186]); (1189, [1188]); (1191, [1190]);
    (1193, [1192]); (1195, [1194]); (1197, [1196]); (1199, [1198]);
    (1201, [1200]); (1203, [1202]); (1205, [1204]); (1207, [1206]);
    (1209, [1208]); (1211, [1210]); (1213, [1212]); (1215, [1214]);
    (1218, [1217]); (1220, [1219]); (1222, [1221]); (1224, [1223]);
    (1226, [1225]); (1228, [1227]); (1230, [1229]); (1231, [1216]);
    (1233, [1232]); (1235, [1234]); (1237, [1236]); (1239, [1238]);
    (1241, [1240]); (1243, [1242]); (1245, [1244]); (1247, [1246]);
    (1249, [1248]); (1251, [1250]); (1253, [1252]); (1255, [1254]);
    (1257, [1256]); (1259, [1258]); (1261, [1260]); (1263, [1262]);
    (1265, [1264]); (1267, [1266]); (1269, [1268]); (1271, [1270]);
    (1273, [1272]); (1275, [1274]); (1277, [1276]); (1279, [1278]);
    (1281, [1280]); (1283, [1282]); (1285, [1284]); (1287, [1286]);
    (1289, [1288]); (1291, [1290]); (1293, [1292]); (1295, [1294]);
    (1297, [1296]); (1299, [1298]); (1301, [1300]); (1303, [1302]);
    (1305, [1304]); (1307, [1306]); (1309, [1308]); (1311, [1310]);
    (1313, [1312]); (1315, [1314]); (1317, [1316]); (1319, [1318]);
    (1321, [1320]); (1323, [1322]); (1325, [1324]); (1327, [1326]);
    (1377, [1329]); (1378, [1330]); (1379, [1331]); (1380, [1332]);
    (1381, [1333]); (1382, [1334]); (1383, [1335]); (1384, [1336]);
    (1385, [1337]); (1386, [1338]); (1387, [1339]); (1388, [1340]);
    (1389, [1341]); (1390, [1342]); (1391, [1343]); (1392, [1344]);
    (1393, [1345]); (1394, [1346]); (1395, [1347]); (1396, [1348]);
    (1397, [1349]); (1398, [1350]); (1399, [1351]); (1400, [1352]);
    (1401, [1353]); (1402, [1354]); (1403, [1355]); (1404, [1356]);
    (1405, [1357]); (1406, [1358]); (1407, [1359]); (1408, [1360]);
    (1409, [1361]); (1410, [1362]); (1411, [1363]); (1412, [1364]);
    (1413, [1365]); (1414, [1366]); (1415, [1333; 1362]); (4304, [7312]);
    (4305, [7313]); (4306, [7314]); (4307, [7315]); (4308, [7316]);
    (4309, [7317]); (4310, [7318]); (4311, [7319]); (4312, [7320]);
    (4313, [7321]); (4314, [7322]); (4315, [7323]); (4316, [7324]);
    (4317, [7325]); (4318, [7326]); (4319, [7327]); (4320, [7328]);
    (4321, [7329]); (4322, [7330]); (4323, [7331]); (4324, [7332]);
    (4325, [7333]); (4326, [7334]); (4327, [7335]); (4328, [7336]);
    (4329, [7337]); (4330, [7338]); (4331, [7339]); (4332, [7340]);
    (4333, [7341]); (4334, [7342]); (4335, [7343]); (4336, [7344]);
    (4337, [7345]); (4338, [7346]); (4339, [7347]); (4340, [7348]);
    (4341, [7349]); (4342, [7350]); (4343, [7351]); (4344, [7352]);
    (4345, [7353]); (4346, [7354]); (4349, [7357]); (4350, [7358]);
    (4351, [7359]); (5112, [5104]); (5113, [5105]); (5114, [5106]);
    (5115, [5107]); (5116, [5108]); (5117, [5109]); (7296, [1042]);
    (7297, [1044]); (7298, [1054]); (7299, [1057]); (7300, [1058]);
    (7301, [1058]); (7302, [1066]); (7303, [1122]); (7304, [42570]);
    (7545, [42877]); (7549, [11363]); (7566, [42950]); (7681, [7680]);
    (7683, [7682]); (7685, [7684]); (7687, [7686]); (7689, [7688]);
    (7691, [7690]); (7693, [7692]); (7695, [7694]); (7697, [7696]);
    (7699, [7698]); (7701, [7700]); (7703, [7702]); (7705, [7704]);
    (7707, [7706]); (7709, [7708]); (7711, [7710]); (7713, [7712]);
    (7715, [7714]); (7717, [7716]); (7719, [7718]); (7721, [7720]);
    (7723, [7722]); (7725, [7724]); (7727, [7726]); (7729, [7728]);
    (7731, [7730]); (7733, [7732]); (7735, [7734]); (7737, [7736]);
    (7739, [7738]); (7741, [7740]); (7743, [7742]); (7745, [7744]);
    (7747, [7746]); (7749, [7748]); (7751, [7750]); (7753, [7752]);
    (7755, [7754]); (7757, [7756]); (7759, [7758]); (7761, [7760]);
    (7763, [7762]); (7765, [7764]); (7767, [7766]); (7769, [7768]);
    (7771, [7770]); (7773, [7772]); (7775, [7774]); (7777, [7776]);
    (7779, [7778]); (7781, [7780]); (7783, [7782]); (7785, [7784]);
    (7787, [7786]); (7789, [7788]); (7791, [7790]); (7793, [7792]);
    (7795, [7794]); (7797, [7796]); (7799, [7798]); (7801, [7800]);
    (7803, [7802]); (7805, [7804]); (7807, [7806]); (7809, [7808]);
    (7811, [7810]); (7813, [7812]); (7815, [7814]); (7817, [7816]);
    (7819, [7818]); (7821, [7820]); (7823, [7822]); (7825, [7824]);
    (7827, [7826]); (7829, [7828]); (7830, [72; 817]); (7831, [84; 776]);
    (7832, [87; 778]); (7833, [89; 778]); (7834, [65; 702]); (7835, [7776]);
    (7841, [7840]); (7843, [7842]); (7845, [7844]); (7847, [7846]);
    (7849, [7848]); (7851, [7850]); (7853, [7852]); (7855, [7854]);
    (7857, [7856]); (7859, [7858]); (7861, [7860]); (7863, [7862]);
    (7865, [7864]); (7867, [7866]); (7869, [7868]); (7871, [7870]);
    (7873, [7872]); (7875, [7874]); (7877, [7876]); (7879, [7878]);
    (7881, [7880]); (7883, [7882]); (7885, [7884]); (7887, [7886]);
    (7889, [7888]); (7891, [7890]); (7893, [7892]); (7895, [7894]);
    (7897, [7896]); (7899, [7898]); (7901, [7900]); (7903, [7902]);
    (7905, [7904]); (7907, [7906]); (7909, [7908]); (7911, [7910]);
    (7913, [7912]); (7915, [7914]); (7917, [7916]); (7919, [7918]);
    (7921, [7920]); (7923, [7922]); (7925, [7924]); (7927, [7926]);
    (7929, [7928]); (7931, [7930]); (7933, [7932]); (7935, [7934]);
    (7936, [7944]); (7937, [7945]); (7938, [7946]); (7939, [7947]);
    (7940, [7948]); (7941, [7949]); (7942, [7950]); (7943, [7951]);
    (7952, [7960]); (7953, [7961]); (7954, [7962]); (7955, [7963]);
    (7956, [7964]); (7957, [7965]); (7968, [7976]); (7969, [7977]);
    (7970, [7978]); (7971, [7979]); (7972, [7980]); (7973, [7981]);
    (7974, [7982]); (7975, [7983]); (7984, [7992]); (7985, [7993]);
    (7986, [7994]); (7987, [7995]); (7988, [7996]); (7989, [7997]);
    (7990, [7998]); (7991, [7999]); (8000, [8008]); (8001, [8009]);
    (8002, [8010]); (8003, [8011]); (8004, [8012]); (8005, [8013]);
    (8016, [933; 787]); (8017, [8025]); (8018, [933; 787; 768]);
    (8019, [8027]); (8020, [933; 787; 769]); (8021, [8029]);
    (8022, [933; 787; 834]); (8023, [8031]); (8032, [8040]); (8033, [8041]);
    (8034, [8042]); (8035, [8043]); (8036, [8044]); (8037, [8045]);
    (8038, [8046]); (8039, [8047]); (8048, [8122]); (8049, [8123]);
    (8050, [8136]); (8051, [8137]); (8052, [8138]); (8053, [8139]);
    (8054, [8154]); (8055, [8155]); (8056, [8184]); (8057, [8185]);
    (8058, [8170]); (8059, [8171]); (8060, [8186]); (8061, [8187]);
    (8064, [7944; 921]); (8065, [7945; 921]); (8066, [7946; 921]);
    (8067, [7947; 921]); (8068, [7948; 921]); (8069, [7949; 921]);
    (8070, [7950; 921]); (8071, [7951; 921]); (8072, [7944; 921]);
    (8073, [7945; 921]); (8074, [7946; 921]); (8075, [7947; 921]);
    (8076, [7948; 921]); (8077, [7949; 921]); (8078, [7950; 921]);
    (8079, [7951; 921]); (8080, [7976; 921]); (8081, [7977; 921]);
    (8082, [7978; 921]); (8083, [7979; 921]); (8084, [7980; 921]);
    (8085, [7981; 921]); (8086, [7982; 921]); (8087, [7983; 921]);
    (8088, [7976; 921]); (8089, [7977; 921]); (8090, [7978; 921]);
    (8091, [7979; 921]); (8092, [7980; 921]); (8093, [7981; 921]);
    (8094, [7982; 921]); (8095, [7983; 921]); (8096, [8040; 921]);
    (8097, [8041; 921]); (8098, [8042; 921]); (8099, [8043; 921]);
    (8100, [8044; 921]); (8101, [8045; 921]); (8102, [8046; 921]);
    (8103, [8047; 921]); (8104, [8040; 921]); (8105, [8041; 921]);
    (8106, [8042; 921]); (8107, [8043; 921]); (8108, [8044; 921]);
    (8109, [8045; 921]); (8110, [8046; 921]); (8111, [8047; 921]);
    (8112, [8120]); (8113, [8121]); (8114, [8122; 921]); (8115, [913; 921]);
    (8116, [902; 921]); (8118, [913; 834]); (8119, [913; 834; 921]);
    (8124, [913; 921]); (8126, [921]); (8130, [8138; 921]);
    (8131, [919; 921]); (8132, [905; 921]); (8134, [919; 834]);
    (8135, [919; 834; 921]); (8140, [919; 921]); (8144, [8152]);
    (8145, [8153]); (8146, [921; 776; 768]); (8147, [921; 776; 769]);
    (8150, [921; 834]); (8151, [921; 776; 834]); (8160, [8168]);
    (8161, [8169]); (8162, [933; 776; 768]); (8163, [933; 776; 769]);
    (8164, [929; 787]); (8165, [8172]); (8166, [933; 834]);
    (8167, [933; 776; 834]); (8178, [8186; 921]); (8179, [937; 921]);
    (8180, [911; 921]); (8182, [937; 834]); (8183, [937; 834; 921]);
    (8188, [937; 921]); (8526, [8498]); (8560, [8544]); (8561, [8545]);
    (8562, [8546]); (8563, [8547]); (8564, [8548]); (8565, [8549]);
    (8566, [8550]); (8567, [8551]); (8568, [8552]); (8569, [8553]);
    (8570, [8554]); (8571, [8555]); (8572, [8556]); (8573, [8557]);
    (8574, [8558]); (8575, [8559]); (8580, [8579]); (9424, [9398]);
    (9425, [9399]); (9426, [9400]); (9427, [9401]); (9428, [9402]);
    (9429, [9403]); (9430, [9404]); (9431, [9405]); (9432, [9406]);
    (9433, [9407]); (9434, [9408]); (9435, [9409]); (9436, [9410]);
    (9437, [9411]); (9438, [9412]); (9439, [9413]); (9440, [9414]);
    (9441, [9415]); (9442, [9416]); (9443, [9417]); (9444, [9418]);
    (9445, [9419]); (9446, [9420]); (9447, [9421]); (9448, [9422]);
    (9449, [9423]); (11312, [11264]); (11313, [11265]); (11314, [11266]);
    (11315, [11267]); (11316, [11268]); (11317, [11269]); (11318, [11270]);
    (11319, [11271]); (11320, [11272]); (11321, [11273]); (11322, [11274]);
    (11323, [11275]); (11324, [11276]); (11325, [11277]); (11326, [11278]);
    (11327, [11279]); (11328, [11280]); (11329, [11281]); (11330, [11282]);
    (11331, [11283]); (11332, [11284]); (11333, [11285]); (11334, [11286]);
    (11335, [11287]); (11336, [11288]); (11337, [11289]); (11338, [11290]);
    (11339, [11291]); (11340, [11292]); (11341, [11293]); (11342, [11294]);
    (11343, [11295]); (11344, [11296]); (11345, [11297]); (11346, [11298]);
    (11347, [11299]); (11348, [11300]); (11349, [11301]); (11350, [11302]);
    (11351, [11303]); (11352, [11304]); (11353, [11305]); (11354, [11306]);
    (11355, [11307]); (11356, [11308]); (11357, [11309]); (11358, [11310]);
    (11359, [11311]); (11361, [11360]); (11365, [570]); (11366, [574]);
    (11368, [11367]); (11370, [11369]); (11372, [11371]); (11379, [11378]);
    (11382, [11381]); (11393, [11392]); (11395, [11394]); (11397, [11396]);
    (11399, [11398]); (11401, [11400]); (11403, [11402]); (11405, [11404]);
    (11407, [11406]); (11409, [11408]); (11411, [11410]); (11413, [11412]);
    (11415, [11414]); (11417, [11416]); (11419, [11418]); (11421, [11420]);
    (11423, [11422]); (11425, [11424]); (11427, [11426]); (11429, [11428]);
    (11431, [11430]); (11433, [11432]); (11435, [11434]); (11437, [11436]);
    (11439, [11438]); (11441, [11440]); (11443, [11442]); (11445, [11444]);
    (11447, [11446]); (11449, [11448]); (11451, [11450]); (11453, [11452]);
    (11455, [11454]); (11457, [11456]); (11459, [11458]); (11461, [11460]);
    (11463, [11462]); (11465, [11464]); (11467, [11466]); (11469, [11468]);
    (11471, [11470]); (11473, [11472]); (11475, [11474]); (11477, [11476]);
    (11479, [11478]); (11481, [11480]); (11483, [11482]); (11485, [11484]);
    (11487, [11486]); (11489, [11488]); (11491, [11490]); (11500, [11499]);
    (11502, [11501]); (11507, [11506]); (11520, [4256]); (11521, [4257]);
    (11522, [4258]); (11523, [4259]); (11524, [4260]); (11525, [4261]);
    (11526, [4262]); (11527, [4263]); (11528, [4264]); (11529, [4265]);
    (11530, [4266]); (11531, [4267]); (11532, [4268]); (11533, [4269]);
    (11534, [4270]); (11535, [4271]); (11536, [4272]); (11537, [4273]);
    (11538, [4274]); (11539, [4275]); (11540, [4276]); (11541, [4277]);
    (11542, [4278]); (11543, [4279]); (11544, [4280]); (11545, [4281]);
    (11546, [4282]); (11547, [4283]); (11548, [4284]); (11549, [4285]);
    (11550, [4286]); (11551, [4287]); (11552, [4288]); (11553, [4289]);
    (11554, [4290]); (11555, [4291]); (11556, [4292]); (11557, [4293]);
    (11559, [4295]); (11565, [4301]); (42561, [42560]); (42563, [42562]);
    (42565, [42564]); (42567, [42566]); (42569, [42568]); (42571, [42570]);
    (42573, [42572]); (42575, [42574]); (42577, [42576]); (42579, [42578]);
    (42581, [42580]); (42583, [42582]); (42585, [42584]); (42587, [42586]);
    (42589, [42588]); (42591, [42590]); (42593, [42592]); (42595, [42594]);
    (42597, [42596]); (42599, [42598]); (42601, [42600]); (42603, [42602]);
    (42605, [42604]); (42625, [42624]); (42627, [42626]); (42629, [42628]);
    (42631, [42630]); (42633, [42632]); (42635, [42634]); (42637, [42636]);
    (42639, [42638]); (42641, [42640]); (42643, [42642]); (42645, [42644]);
    (42647, [42646]); (42649, [42648]); (42651, [42650]); (42787, [42786]);
    (42789, [42788]); (42791, [42790]); (42793, [42792]); (42795, [42794]);
    (42797, [42796]); (42799, [42798]); (42803, [42802]); (42805, [42804]);
    (42807, [42806]); (42809, [42808]); (42811, [42810]); (42813, [42812]);
    (42815, [42814]); (42817, [42816]); (42819, [42818]); (42821, [42820]);
    (42823, [42822]); (42825, [42824]); (42827, [42826]); (42829, [42828]);
    (42831, [42830]); (42833, [42832]); (42835, [42834]); (42837, [42836]);
    (42839, [42838]); (42841, [42840]); (42843, [42842]); (42845, [42844]);
    (42847, [42846]); (42849, [42848]); (42851, [42850]); (42853, [42852]);
    (42855, [42854]); (42857, [42856]); (42859, [42858]); (42861, [42860]);
    (42863, [42862]); (42874, [42873]); (42876, [42875]); (42879, [42878]);
    (42881, [42880]); (42883, [42882]); (42885, [42884]); (42887, [42886]);
    (42892, [42891]); (42897, [42896]); (42899, [42898]); (42900, [42948]);
    (42903, [42902]); (42905, [42904]); (42907, [42906]); (42909, [42908]);
    (42911, [42910]); (42913, [42912]); (42915, [42914]); (42917, [42916]);
    (42919, [42918]); (42921, [42920]); (42933, [42932]); (42935, [42934]);
    (42937, [42936]); (42939, [42938]); (42941, [42940]); (42943, [42942]);
    (42945, [42944]); (42947, [42946]); (42952, [42951]); (42954, [42953]);
    (42961, [42960]); (42967, [42966]); (42969, [42968]); (42998, [42997]);
    (43859, [42931]); (43888, [5024]); (43889, [5025]); (43890, [5026]);
    (43891, [5027]); (43892, [5028]); (43893, [5029]); (43894, [5030]);
    (43895, [5031]); (43896, [5032]); (43897, [5033]); (43898, [5034]);
    (43899, [5035]); (43900, [5036]); (43901, [5037]); (43902, [5038]);
    (43903, [5039]); (43904, [5040]); (43905, [5041]); (43906, [5042]);
    (43907, [5043]); (43908, [5044]); (43909, [5045]); (43910, [5046]);
    (43911, [5047]); (43912, [5048]); (43913, [5049]); (43914, [5050]);
    (43915, [5051]); (43916, [5052]); (43917, [5053]); (43918, [5054]);
    (43919, [5055]); (43920, [5056]); (43921, [5057]); (43922, [5058]);
    (43923, [5059]); (43924, [5060]); (43925, [5061]); (43926, [5062]);
    (43927, [5063]); (43928, [5064]); (43929, [5065]); (43930, [5066]);
    (43931, [5067]); (43932, [5068]); (43933, [5069]); (43934, [5070]);
    (43935, [5071]); (43936, [5072]); (43937, [5073]); (43938, [5074]);
    (43939, [5075]); (43940, [5076]); (43941, [5077]); (43942, [5078]);
    (43943, [5079]); (43944, [5080]); (43945, [5081]); (43946, [5082]);
    (43947, [5083]); (43948, [5084]); (43949, [5085]); (43950, [5086]);
    (43951, [5087]); (43952, [5088]); (43953, [5089]); (43954, [5090]);
    (43955, [5091]); (43956, [5092]); (43957, [5093]); (43958, [5094]);
    (43959, [5095]); (43960, [5096]); (43961, [5097]); (43962, [5098]);
    (43963, [5099]); (43964, [5100]); (43965, [5101]); (43966, [5102]);
    (43967, [5103]); (64256, [70; 70]); (64257, [70; 73]);
    (64258, [70; 76]); (64259, [70; 70; 73]); (64260, [70; 70; 76]);
    (64261, [83; 84]); (64262, [83; 84]); (64275, [1348; 1350]);
    (64276, [1348; 1333]); (64277, [1348; 1339]); (64278, [1358; 1350]);
    (64279, [1348; 1341]); (65345, [65313]); (65346, [65314]);
    (65347, [65315]); (65348, [65316]); (65349, [65317]); (65350, [65318]);
    (65351, [65319]); (65352, [65320]); (65353, [65321]); (65354, [65322]);
    (65355, [65323]); (65356, [65324]); (65357, [65325]); (65358, [65326]);
    (65359, [65327]); (65360, [65328]); (65361, [65329]); (65362, [65330]);
    (65363, [65331]); (65364, [65332]); (65365, [65333]); (65366, [65334]);
    (65367, [65335]); (65368, [65336]); (65369, [65337]); (65370, [65338]);
    (66600, [66560]); (66601, [66561]); (66602, [66562]); (66603, [66563]);
    (66604, [66564]); (66605, [66565]); (66606, [66566]); (66607, [66567]);
    (66608, [66568]); (66609, [66569]); (66610, [66570]); (66611, [66571]);
    (66612, [66572]); (66613, [66573]); (66614, [66574]); (66615, [66575]);
    (66616, [66576]); (66617, [66577]); (66618, [66578]); (66619, [66579]);
    (66620, [66580]); (66621, [66581]); (66622, [66582]); (66623, [66583]);
    (66624, [66584]); (66625, [66585]); (66626, [66586]); (66627, [66587]);
    (66628, [66588]); (66629, [66589]); (66630, [66590]); (66631, [66591]);
    (66632, [66592]); (66633, [66593]); (66634, [66594]); (66635, [66595]);
    (66636, [66596]); (66637, [66597]); (66638, [66598]); (66639, [66599]);
    (66776, [66736]); (66777, [66737]); (66778, [66738]); (66779, [66739]);
    (66780, [66740]); (66781, [66741]); (66782, [66742]); (66783, [66743]);
    (66784, [66744]); (66785, [66745]); (66786, [66746]); (66787, [66747]);
    (66788, [66748]); (66789, [66749]); (66790, [66750]); (66791, [66751]);
    (66792, [66752]); (66793, [66753]); (66794, [66754]); (66795, [66755]);
    (66796, [66756]); (66797, [66757]); (66798, [66758]); (66799, [66759]);
    (66800, [66760]); (66801, [66761]); (66802, [66762]); (66803, [66763]);
    (66804, [66764]); (66805, [66765]); (66806, [66766]); (66807, [66767]);
    (66808, [66768]); (66809, [66769]); (66810, [66770]); (66811, [66771]);
    (66967, [66928]); (66968, [66929]); (66969, [66930]); (66970, [66931]);
    (66971, [66932]); (66972, [66933]); (66973, [66934]); (66974, [66935]);
    (66975, [66936]); (66976, [66937]); (66977, [66938]); (66979, [66940]);
    (66980, [66941]); (66981, [66942]); (66982, [66943]); (66983, [66944]);
    (66984, [66945]); (66985, [66946]); (66986, [66947]); (66987, [66948]);
    (66988, [66949]); (66989, [66950]); (66990, [66951]); (66991, [66952]);
    (66992, [66953]); (66993, [66954]); (66995, [66956]); (66996, [66957]);
    (66997, [66958]); (66998, [66959]); (66999, [66960]); (67000, [66961]);
    (67001, [66962]); (67003, [66964]); (67004, [66965]); (68800, [68736]);
    (68801, [68737]); (68802, [68738]); (68803, [68739]); (68804, [68740]);
    (68805, [68741]); (68806, [68742]); (68807, [68743]); (68808, [68744]);
    (68809, [68745]); (68810, [68746]); (68811, [68747]); (68812, [68748]);
    (68813, [68749]); (68814, [68750]); (68815, [68751]); (68816, [68752]);
    (68817, [68753]); (68818, [68754]); (68819, [68755]); (68820, [68756]);
    (68821, [68757]); (68822, [68758]); (68823, [68759]); (68824, [68760]);
    (68825, [68761]); (68826, [68762]); (68827, [68763]); (68828, [68764]);
    (68829, [68765]); (68830, [68766]); (68831, [68767]); (68832, [68768]);
    (68833, [68769]); (68834, [68770]); (68835, [68771]); (68836, [68772]);
    (68837, [68773]); (68838, [68774]); (68839, [68775]); (68840, [68776]);
    (68841, [68777]); (68842, [68778]); (68843, [68779]); (68844, [68780]);
    (68845, [68781]); (68846, [68782]); (68847, [68783]); (68848, [68784]);
    (68849, [68785]); (68850, [68786]); (71872, [71840]); (71873, [71841]);
    (71874, [71842]); (71875, [71843]); (71876, [71844]); (71877, [71845]);
    (71878, [71846]); (71879, [71847]); (71880, [71848]); (71881, [71849]);
    (71882, [71850]); (71883, [71851]); (71884, [71852]); (71885, [71853]);
    (71886, [71854]); (71887, [71855]); (71888, [71856]); (71889, [71857]);
    (71890, [71858]); (71891, [71859]); (71892, [71860]); (71893, [71861]);
    (71894, [71862]); (71895, [71863]); (71896, [71864]); (71897, [71865]);
    (71898, [71866]); (71899, [71867]); (71900, [71868]); (71901, [71869]);
    (71902, [71870]); (71903, [71871]); (93792, [93760]); (93793, [93761]);
    (93794, [93762]); (93795, [93763]); (93796, [93764]); (93797, [93765]);
    (93798, [93766]); (93799, [93767]); (93800, [93768]); (93801, [93769]);
    (93802, [93770]); (93803, [93771]); (93804, [93772]); (93805, [93773]);
    (93806, [93774]); (93807, [93775]); (93808, [93776]); (93809, [93777]);
    (93810, [93778]); (93811, [93779]); (93812, [93780]); (93813, [93781]);
    (93814, [93782]); (93815, [93783]); (93816, [93784]); (93817, [93785]);
    (93818, [93786]); (93819, [93787]); (93820, [93788]); (93821, [93789]);
    (93822, [93790]); (93823, [93791]); (125218, [125184]);
    (125219, [125185]); (125220, [125186]); (125221, [125187]);
    (125222, [125188]); (125223, [125189]); (125224, [125190]);
    (125225, [125191]); (125226, [125192]); (125227, [125193]);
    (125228, [125194]); (125229, [125195]); (125230, [125196]);
    (125231, [125197]); (125232, [125198]); (125233, [125199]);
    (125234, [125200]); (125235, [125201]); (125236, [125202]);
    (125237, [125203]); (125238, [125204]); (125239, [125205]);
    (125240, [125206]); (125241, [125207]); (125242, [125208]);
    (125243, [125209]); (125244, [125210]); (125245, [125211]);
    (125246, [125212]); (125247, [125213]); (125248, [125214]);
    (125249, [125215]); (125250, [125216]); (125251, [125217])
  ]%N.

(** The code points that [str.lower] changes, each with what it becomes;
    U+03A3 is listed with its form away from the end of a word. *)
Definition LOWER : list (char * str) :=
  [
    (65, [97]); (66, [98]); (67, [99]); (68, [100]); (69, [101]);
    (70, [102]); (71, [103]); (72, [104]); (73, [105]); (74, [106]);
    (75, [107]); (76, [108]); (77, [109]); (78, [110]); (79, [111]);
    (80, [112]); (81, [113]); (82, [114]); (83, [115]); (84, [116]);
    (85, [117]); (86, [118]); (87, [119]); (88, [120]); (89, [121]);
    (90, [122]); (192, [224]); (193, [225]); (194, [226]); (195, [227]);
    (196, [228]); (197, [229]); (198, [230]); (199, [231]); (200, [232]);
    (201, [233]); (202, [234]); (203, [235]); (204, [236]); (205, [237]);
    (206, [238]); (207, [239]); (208, [240]); (209, [241]); (210, [242]);
    (211, [243]); (212, [244]); (213, [245]); (214, [246]); (216, [248]);
    (217, [249]); (218, [250]); (219, [251]); (220, [252]); (221, [253]);
    (222, [254]); (256, [257]); (258, [259]); (260, [261]); (262, [263]);
    (264, [265]); (266, [267]); (268, [269]); (270, [271]); (272, [273]);
    (274, [275]); (276, [277]); (278, [279]); (280, [281]); (282, [283]);
    (284, [285]); (286, [287]); (288, [289]); (290, [291]); (292, [293]);
    (294, [295]); (296, [297]); (298, [299]); (300, [301]); (302, [303]);
    (304, [105; 775]); (306, [307]); (308, [309]); (310, [311]);
    (313, [314]); (315, [316]); (317, [318]); (319, [320]); (321, [322]);
    (323, [324]); (325, [326]); (327, [328]); (330, [331]); (332, [333]);
    (334, [335]); (336, [337]); (338, [339]); (340, [341]); (342, [343]);
    (344, [345]); (346, [347]); (348, [349]); (350, [351]); (352, [353]);
    (354, [355]); (356, [357]); (358, [359]); (360, [361]); (362, [363]);
    (364, [365]); (366, [367]); (368, [369]); (370, [371]); (372, [373]);
    (374, [375]); (376, [255]); (377, [378]); (379, [380]); (381, [382]);
    (385, [595]); (386, [387]); (388, [389]); (390, [596]); (391, [392]);
    (393, [598]); (394, [599]); (395, [396]); (398, [477]); (399, [601]);
    (400, [603]); (401, [402]); (403, [608]); (404, [611]); (406, [617]);
    (407, [616]); (408, [409]); (412, [623]); (413, [626]); (415, [629]);
    (416, [417]); (418, [419]); (420, [421]); (422, [640]); (423, [424]);
    (425, [643]); (428, [429]); (430, [648]); (431, [432]); (433, [650]);
    (434, [651]); (435, [436]); (437, [438]); (439, [658]); (440, [441]);
    (444, [445]); (452, [454]); (453, [454]); (455, [457]); (456, [457]);
    (458, [460]); (459, [460]); (461, [462]); (463, [464]); (465, [466]);
    (467, [468]); (469, [470]); (471, [472]); (473, [474]); (475, [476]);
    (478, [479]); (480, [481]); (482, [483]); (484, [485]); (486, [487]);
    (488, [489]); (490, [491]); (492, [493]); (494, [495]); (497, [499]);
    (498, [499]); (500, [501]); (502, [405]); (503, [447]); (504, [505]);
    (506, [507]); (508, [509]); (510, [511]); (512, [513]); (514, [515]);
    (516, [517]); (518, [519]); (520, [521]); (522, [523]); (524, [525]);
    (526, [527]); (528, [529]); (530, [531]); (532, [533]); (534, [535]);
    (536, [537]); (538, [539]); (540, [541]); (542, [543]); (544, [414]);
    (546, [547]); (548, [549]); (550, [551]); (552, [553]); (554, [555]);
    (556, [557]); (558, [559]); (560, [561]); (562, [563]); (570, [11365]);
    (571, [572]); (573, [410]); (574, [11366]); (577, [578]); (579, [384]);
    (580, [649]); (581, [652]); (582, [583]); (584, [585]); (586, [587]);
    (588, [589]); (590, [591]); (880, [881]); (882, [883]); (886, [887]);
    (895, [1011]); (902, [940]); (904, [941]); (905, [942]); (906, [943]);
    (908, [972]); (910, [973]); (911, [974]); (913, [945]); (914, [946]);
    (915, [947]); (916, [948]); (917, [949]); (918, [950]); (919, [951]);
    (920, [952]); (921, [953]); (922, [954]); (923, [955]); (924, [956]);
    (925, [957]); (926, [958]); (927, [959]); (928, [960]); (929, [961]);
    (931, [963]); (932, [964]); (933, [965]); (934, [966]); (935, [967]);
    (936, [968]); (937, [969]); (938, [970]); (939, [971]); (975, [983]);
    (984, [985]); (986, [987]); (988, [989]); (990, [991]); (992, [993]);
    (994, [995]); (996, [997]); (998, [999]); (1000, [1001]);
    (1002, [1003]); (1004, [1005]); (1006, [1007]); (1012, [952]);
    (1015, [1016]); (1017, [1010]); (1018, [1019]); (1021, [891]);
    (1022, [892]); (1023, [893]); (1024, [1104]); (1025, [1105]);
    (1026, [1106]); (1027, [1107]); (1028, [1108]); (1029, [1109]);
    (1030, [1110]); (1031, [1111]); (1032, [1112]); (1033, [1113]);
    (1034, [1114]); (1035, [1115]); (1036, [1116]); (1037, [1117]);
    (1038, [1118]); (1039, [1119]); (1040, [1072]); (1041, [1073]);
    (1042, [1074]); (1043, [1075]); (1044, [1076]); (1045, [1077]);
    (1046, [1078]); (1047, [1079]); (1048, [1080]); (1049, [1081]);
    (1050, [1082]); (1051, [1083]); (1052, [1084]); (1053, [1085]);
    (1054, [1086]); (1055, [1087]); (1056, [1088]); (1057, [1089]);
    (1058, [1090]); (1059, [1091]); (1060, [1092]); (1061, [1093]);
    (1062, [1094]); (1063, [1095]); (1064, [1096]); (1065, [1097]);
    (1066, [1098]); (1067, [1099]); (1068, [1100]); (1069, [1101]);
    (1070, [1102]); (1071, [1103]); (1120, [1121]); (1122, [1123]);
    (1124, [1125]); (1126, [1127]); (1128, [1129]); (1130, [1131]);
    (1132, [1133]); (1134, [1135]); (1136, [1137]); (1138, [1139]);
    (1140, [1141]); (1142, [1143]); (1144, [1145]); (1146, [1147]);
    (1148, [1149]); (1150, [1151]); (1152, [1153]); (1162, [1163]);
    (1164, [1165]); (1166, [1167]); (1168, [1169]); (1170, [1171]);
    (1172, [1173]); (1174, [1175]); (1176, [1177]); (1178, [1179]);
    (1180, [1181]); (1182, [1183]); (1184, [1185]); (1186, [1187]);
    (1188, [1189]); (1190, [1191]); (1192, [1193]); (1194, [1195]);
    (1196, [1197]); (1198, [1199]); (1200, [1201]); (1202, [1203]);
    (1204, [1205]); (1206, [1207]); (1208, [1209]); (1210, [1211]);
    (1212, [1213]); (1214, [1215]); (1216, [1231]); (1217, [1218]);
    (1219, [1220]); (1221, [1222]); (1223, [1224]); (1225, [1226]);
    (1227, [1228]); (1229, [1230]); (1232, [1233]); (1234, [1235]);
    (1236, [1237]); (1238, [1239]); (1240, [1241]); (1242, [1243]);
    (1244, [1245]); (1246, [1247]); (1248, [1249]); (1250, [1251]);
    (1252, [1253]); (1254, [1255]); (1256, [1257]); (1258, [1259]);
    (1260, [1261]); (1262, [1263]); (1264, [1265]); (1266, [1267]);
    (1268, [1269]); (1270, [1271]); (1272, [1273]); (1274, [1275]);
    (1276, [1277]); (1278, [1279]); (1280, [1281]); (1282, [1283]);
    (1284, [1285]); (1286, [1287]); (1288, [1289]); (1290, [1291]);
    (1292, [1293]); (1294, [1295]); (1296, [1297]); (1298, [1299]);
    (1300, [1301]); (1302, [1303]); (1304, [1305]); (1306, [1307]);
    (1308, [1309]); (1310, [1311]); (1312, [1313]); (1314, [1315]);
    (1316, [1317]); (1318, [1319]); (1320, [1321]); (1322, [1323]);
    (1324, [1325]); (1326, [1327]); (1329, [1377]); (1330, [1378]);
    (1331, [1379]); (1332, [1380]); (1333, [1381]); (1334, [1382]);
    (1335, [1383]); (1336, [1384]); (1337, [1385]); (1338, [1386]);
    (1339, [1387]); (1340, [1388]); (1341, [1389]); (1342, [1390]);
    (1343, [1391]); (1344, [1392]); (1345, [1393]); (1346, [1394]);
    (1347, [1395]); (1348, [1396]); (1349, [1397]); (1350, [1398]);
    (1351, [1399]); (1352, [1400]); (1353, [1401]); (1354, [1402]);
    (1355, [1403]); (1356, [1404]); (1357, [1405]); (1358, [1406]);
    (1359, [1407]); (1360, [1408]); (1361, [1409]); (1362, [1410]);
    (1363, [1411]); (1364, [1412]); (1365, [1413]); (1366, [1414]);
    (4256, [11520]); (4257, [11521]); (4258, [11522]); (4259, [11523]);
    (4260, [11524]); (4261, [11525]); (4262, [11526]); (4263, [11527]);
    (4264, [11528]); (4265, [11529]); (4266, [11530]); (4267, [11531]);
    (4268, [11532]); (4269, [11533]); (4270, [11534]); (4271, [11535]);
    (4272, [11536]); (4273, [11537]); (4274, [11538]); (4275, [11539]);
    (4276, [11540]); (4277, [11541]); (4278, [11542]); (4279, [11543]);
    (4280, [11544]); (4281, [11545]); (4282, [11546]); (4283, [11547]);
    (4284, [11548]); (4285, [11549]); (4286, [11550]); (4287, [11551]);
    (4288, [11552]); (4289, [11553]); (4290, [11554]); (4291, [11555]);
    (4292, [11556]); (4293, [11557]); (4295, [11559]); (4301, [11565]);
    (5024, [43888]); (5025, [43889]); (5026, [43890]); (5027, [43891]);
    (5028, [43892]); (5029, [43893]); (5030, [43894]); (5031, [43895]);
    (5032, [43896]); (5033, [43897]); (5034, [43898]); (5035, [43899]);
    (5036, [43900]); (5037, [43901]); (5038, [43902]); (5039, [43903]);
    (5040, [43904]); (5041, [43905]); (5042, [43906]); (5043, [43907]);
    (5044, [43908]); (5045, [43909]); (5046, [43910]); (5047, [43911]);
    (5048, [43912]); (5049, [43913]); (5050, [43914]); (5051, [43915]);
    (5052, [43916]); (5053, [43917]); (5054, [43918]); (5055, [43919]);
    (5056, [43920]); (5057, [43921]); (5058, [43922]); (5059, [43923]);
    (5060, [43924]); (5061, [43925]); (5062, [43926]); (5063, [43927]);
    (5064, [43928]); (5065, [43929]); (5066, [43930]); (5067, [43931]);
    (5068, [43932]); (5069, [43933]); (5070, [43934]); (5071, [43935]);
    (5072, [43936]); (5073, [43937]); (5074, [43938]); (5075, [43939]);
    (5076, [43940]); (5077, [43941]); (5078, [43942]); (5079, [43943]);
    (5080, [43944]); (5081, [43945]); (5082, [43946]); (5083, [43947]);
    (5084, [43948]); (5085, [43949]); (5086, [43950]); (5087, [43951]);
    (5088, [43952]); (5089, [43953]); (5090, [43954]); (5091, [43955]);
    (5092, [43956]); (5093, [43957]); (5094, [43958]); (5095, [43959]);
    (5096, [43960]); (5097, [43961]); (5098, [43962]); (5099, [43963]);
    (5100, [43964]); (5101, [43965]); (5102, [43966]); (5103, [43967]);
    (5104, [5112]); (5105, [5113]); (5106, [5114]); (5107, [5115]);
    (5108, [5116]); (5109, [5117]); (7312, [4304]); (7313, [4305]);
    (7314, [4306]); (7315, [4307]); (7316, [4308]); (7317, [4309]);
    (7318, [4310]); (7319, [4311]); (7320, [4312]); (7321, [4313]);
    (7322, [4314]); (7323, [4315]); (7324, [4316]); (7325, [4317]);
    (7326, [4318]); (7327, [4319]); (7328, [4320]); (7329, [4321]);
    (7330, [4322]); (7331, [4323]); (7332, [4324]); (7333, [4325]);
    (7334, [4326]); (7335, [4327]); (7336, [4328]); (7337, [4329]);
    (7338, [4330]); (7339, [4331]); (7340, [4332]); (7341, [4333]);
    (7342, [4334]); (7343, [4335]); (7344, [4336]); (7345, [4337]);
    (7346, [4338]); (7347, [4339]); (7348, [4340]); (7349, [4341]);
    (7350, [4342]); (7351, [4343]); (7352, [4344]); (7353, [4345]);
    (7354, [4346]); (7357, [4349]); (7358, [4350]); (7359, [4351]);
    (7680, [7681]); (7682, [7683]); (7684, [7685]); (7686, [7687]);
    (7688, [7689]); (7690, [7691]); (7692, [7693]); (7694, [7695]);
    (7696, [7697]); (7698, [7699]); (7700, [7701]); (7702, [7703]);
    (7704, [7705]); (7706, [7707]); (7708, [7709]); (7710, [7711]);
    (7712, [7713]); (7714, [7715]); (7716, [7717]); (7718, [7719]);
    (7720, [7721]); (7722, [7723]); (7724, [7725]); (7726, [7727]);
    (7728, [7729]); (7730, [7731]); (7732, [7733]); (7734, [7735]);
    (7736, [7737]); (7738, [7739]); (7740, [7741]); (7742, [7743]);
    (7744, [7745]); (7746, [7747]); (7748, [7749]); (7750, [7751]);
    (7752, [7753]); (7754, [7755]); (7756, [7757]); (7758, [7759]);
    (7760, [7761]); (7762, [7763]); (7764, [7765]); (7766, [7767]);
    (7768, [7769]); (7770, [7771]); (7772, [7773]); (7774, [7775]);
    (7776, [7777]); (7778, [7779]); (7780, [7781]); (7782, [7783]);
    (7784, [7785]); (7786, [7787]); (7788, [7789]); (7790, [7791]);
    (7792, [7793]); (7794, [7795]); (7796, [7797]); (7798, [7799]);
    (7800, [7801]); (7802, [7803]); (7804, [7805]); (7806, [7807]);
    (7808, [7809]); (7810, [7811]); (7812, [7813]); (7814, [7815]);
    (7816, [7817]); (7818, [7819]); (7820, [7821]); (7822, [7823]);
    (7824, [7825]); (7826, [7827]); (7828, [7829]); (7838, [223]);
    (7840, [7841]); (7842, [7843]); (7844, [7845]); (7846, [7847]);
    (7848, [7849]); (7850, [7851]); (7852, [7853]); (7854, [7855]);
    (7856, [7857]); (7858, [7859]); (7860, [7861]); (7862, [7863]);
    (7864, [7865]); (7866, [7867]); (7868, [7869]); (7870, [7871]);
    (7872, [7873]); (7874, [7875]); (7876, [7877]); (7878, [7879]);
    (7880, [7881]); (7882, [7883]); (7884, [7885]); (7886, [7887]);
    (7888, [7889]); (7890, [7891]); (7892, [7893]); (7894, [7895]);
    (7896, [7897]); (7898, [7899]); (7900, [7901]); (7902, [7903]);
    (7904, [7905]); (7906, [7907]); (7908, [7909]); (7910, [7911]);
    (7912, [7913]); (7914, [7915]); (7916, [7917]); (7918, [7919]);
    (7920, [7921]); (7922, [7923]); (7924, [7925]); (7926, [7927]);
    (7928, [7929]); (7930, [7931]); (7932, [7933]); (7934, [7935]);
    (7944, [7936]); (7945, [7937]); (7946, [7938]); (7947, [7939]);
    (7948, [7940]); (7949, [7941]); (7950, [7942]); (7951, [7943]);
    (7960, [7952]); (7961, [7953]); (7962, [7954]); (7963, [7955]);
    (7964, [7956]); (7965, [7957]); (7976, [7968]); (7977, [7969]);
    (7978, [7970]); (7979, [7971]); (7980, [7972]); (7981, [7973]);
    (7982, [7974]); (7983, [7975]); (7992, [7984]); (7993, [7985]);
    (7994, [7986]); (7995, [7987]); (7996, [7988]); (7997, [7989]);
    (7998, [7990]); (7999, [7991]); (8008, [8000]); (8009, [8001]);
    (8010, [8002]); (8011, [8003]); (8012, [8004]); (8013, [8005]);
    (8025, [8017]); (8027, [8019]); (8029, [8021]); (8031, [8023]);
    (8040, [8032]); (8041, [8033]); (8042, [8034]); (8043, [8035]);
    (8044, [8036]); (8045, [8037]); (8046, [8038]); (8047, [8039]);
    (8072, [8064]); (8073, [8065]); (8074, [8066]); (8075, [8067]);
    (8076, [8068]); (8077, [8069]); (8078, [8070]); (8079, [8071]);
    (8088, [8080]); (8089, [8081]); (8090, [8082]); (8091, [8083]);
    (8092, [8084]); (8093, [8085]); (8094, [8086]); (8095, [8087]);
    (8104, [8096]); (8105, [8097]); (8106, [8098]); (8107, [8099]);
    (8108, [8100]); (8109, [8101]); (8110, [8102]); (8111, [8103]);
    (8120, [8112]); (8121, [8113]); (8122, [8048]); (8123, [8049]);
    (8124, [8115]); (8136, [8050]); (8137, [8051]); (8138, [8052]);
    (8139, [8053]); (8140, [8131]); (8152, [8144]); (8153, [8145]);
    (8154, [8054]); (8155, [8055]); (8168, [8160]); (8169, [8161]);
    (8170, [8058]); (8171, [8059]); (8172, [8165]); (8184, [8056]);
    (8185, [8057]); (8186, [8060]); (8187, [8061]); (8188, [8179]);
    (8486, [969]); (8490, [107]); (8491, [229]); (8498, [8526]);
    (8544, [8560]); (8545, [8561]); (8546, [8562]); (8547, [8563]);
    (8548, [8564]); (8549, [8565]); (8550, [8566]); (8551, [8567]);
    (8552, [8568]); (8553, [8569]); (8554, [8570]); (8555, [8571]);
    (8556, [8572]); (8557, [8573]); (8558, [8574]); (8559, [8575]);
    (8579, [8580]); (9398, [9424]); (9399, [9425]); (9400, [9426]);
    (9401, [9427]); (9402, [9428]); (9403, [9429]); (9404, [9430]);
    (9405, [9431]); (9406, [9432]); (9407, [9433]); (9408, [9434]);
    (9409, [9435]); (9410, [9436]); (9411, [9437]); (9412, [9438]);
    (9413, [9439]); (9414, [9440]); (9415, [9441]); (9416, [9442]);
    (9417, [9443]); (9418, [9444]); (9419, [9445]); (9420, [9446]);
    (9421, [9447]); (9422, [9448]); (9423, [9449]); (11264, [11312]);
    (11265, [11313]); (11266, [11314]); (11267, [11315]); (11268, [11316]);
    (11269, [11317]); (11270, [11318]); (11271, [11319]); (11272, [11320]);
    (11273, [11321]); (11274, [11322]); (11275, [11323]); (11276, [11324]);
    (11277, [11325]); (11278, [11326]); (11279, [11327]); (11280, [11328]);
    (11281, [11329]); (11282, [11330]); (11283, [11331]); (11284, [11332]);
    (11285, [11333]); (11286, [11334]); (11287, [11335]); (11288, [11336]);
    (11289, [11337]); (11290, [11338]); (11291, [11339]); (11292, [11340]);
    (11293, [11341]); (11294, [11342]); (11295, [11343]); (11296, [11344]);
    (11297, [11345]); (11298, [11346]); (11299, [11347]); (11300, [11348]);
    (11301, [11349]); (11302, [11350]); (11303, [11351]); (11304, [11352]);
    (11305, [11353]); (11306, [11354]); (11307, [11355]); (11308, [11356]);
    (11309, [11357]); (11310, [11358]); (11311, [11359]); (11360, [11361]);
    (11362, [619]); (11363, [7549]); (11364, [637]); (11367, [11368]);
    (11369, [11370]); (11371, [11372]); (11373, [593]); (11374, [625]);
    (11375, [592]); (11376, [594]); (11378, [11379]); (11381, [11382]);
    (11390, [575]); (11391, [576]); (11392, [11393]); (11394, [11395]);
    (11396, [11397]); (11398, [11399]); (11400, [11401]); (11402, [11403]);
    (11404, [11405]); (11406, [11407]); (11408, [11409]); (11410, [11411]);
    (11412, [11413]); (11414, [11415]); (11416, [11417]); (11418, [11419]);
    (11420, [11421]); (11422, [11423]); (11424, [11425]); (11426, [11427]);
    (11428, [11429]); (11430, [11431]); (11432, [11433]); (11434, [11435]);
    (11436, [11437]); (11438, [11439]); (11440, [11441]); (11442, [11443]);
    (11444, [11445]); (11446, [11447]); (11448, [11449]); (11450, [11451]);
    (11452, [11453]); (11454, [11455]); (11456, [11457]); (11458, [11459]);
    (11460, [11461]); (11462, [11463]); (11464, [11465]); (11466, [11467]);
    (11468, [11469]); (11470, [11471]); (11472, [11473]); (11474, [11475]);
    (11476, [11477]); (11478, [11479]); (11480, [11481]); (11482, [11483]);
    (11484, [11485]); (11486, [11487]); (11488, [11489]); (11490, [11491]);
    (11499, [11500]); (11501, [11502]); (11506, [11507]); (42560, [42561]);
    (42562, [42563]); (42564, [42565]); (42566, [42567]); (42568, [42569]);
    (42570, [42571]); (42572, [42573]); (42574, [42575]); (42576, [42577]);
    (42578, [42579]); (42580, [42581]); (42582, [42583]); (42584, [42585]);
    (42586, [42587]); (42588, [42589]); (42590, [42591]); (42592, [42593]);
    (42594, [42595]); (42596, [42597]); (42598, [42599]); (42600, [42601]);
    (42602, [42603]); (42604, [42605]); (42624, [42625]); (42626, [42627]);
    (42628, [42629]); (42630, [42631]); (42632, [42633]); (42634, [42635]);
    (42636, [42637]); (42638, [42639]); (42640, [42641]); (42642, [42643]);
    (42644, [42645]); (42646, [42647]); (42648, [42649]); (42650, [42651]);
    (42786, [42787]); (42788, [42789]); (42790, [42791]); (42792, [42793]);
    (42794, [42795]); (42796, [42797]); (42798, [42799]); (42802, [42803]);
    (42804, [42805]); (42806, [42807]); (42808, [42809]); (42810, [42811]);
    (42812, [42813]); (42814, [42815]); (42816, [42817]); (42818, [42819]);
    (42820, [42821]); (42822, [42823]); (42824, [42825]); (42826, [42827]);
    (42828, [42829]); (42830, [42831]); (42832, [42833]); (42834, [42835]);
    (42836, [42837]); (42838, [42839]); (42840, [42841]); (42842, [42843]);
    (42844, [42845]); (42846, [42847]); (42848, [42849]); (42850, [42851]);
    (42852, [42853]); (42854, [42855]); (42856, [42857]); (42858, [42859]);
    (42860, [42861]); (42862, [42863]); (42873, [42874]); (42875, [42876]);
    (42877, [7545]); (42878, [42879]); (42880, [42881]); (42882, [42883]);
    (42884, [42885]); (42886, [42887]); (42891, [42892]); (42893, [613]);
    (42896, [42897]); (42898, [42899]); (42902, [42903]); (42904, [42905]);
    (42906, [42907]); (42908, [42909]); (42910, [42911]); (42912, [42913]);
    (42914, [42915]); (42916, [42917]); (42918, [42919]); (42920, [42921]);
    (42922, [614]); (42923, [604]); (42924, [609]); (42925, [620]);
    (42926, [618]); (42928, [670]); (42929, [647]); (42930, [669]);
    (42931, [43859]); (42932, [42933]); (42934, [42935]); (42936, [42937]);
    (42938, [42939]); (42940, [42941]); (42942, [42943]); (42944, [42945]);
    (42946, [42947]); (42948, [42900]); (42949, [642]); (42950, [7566]);
    (42951, [42952]); (42953, [42954]); (42960, [42961]); (42966, [42967]);
    (42968, [42969]); (42997, [42998]); (65313, [65345]); (65314, [65346]);
    (65315, [65347]); (65316, [65348]); (65317, [65349]); (65318, [65350]);
    (65319, [65351]); (65320, [65352]); (65321, [65353]); (65322, [65354]);
    (65323, [65355]); (65324, [65356]); (65325, [65357]); (65326, [65358]);
    (65327, [65359]); (65328, [65360]); (65329, [65361]); (65330, [65362]);
    (65331, [65363]); (65332, [65364]); (65333, [65365]); (65334, [65366]);
    (65335, [65367]); (65336, [65368]); (65337, [65369]); (65338, [65370]);
    (66560, [66600]); (66561, [66601]); (66562, [66602]); (66563, [66603]);
    (66564, [66604]); (66565, [66605]); (66566, [66606]); (66567, [66607]);
    (66568, [66608]); (66569, [66609]); (66570, [66610]); (66571, [66611]);
    (66572, [66612]); (66573, [66613]); (66574, [66614]); (66575, [66615]);
    (66576, [66616]); (66577, [66617]); (66578, [66618]); (66579, [66619]);
    (66580, [66620]); (66581, [66621]); (66582, [66622]); (66583, [66623]);
    (66584, [66624]); (66585, [66625]); (66586, [66626]); (66587, [66627]);
    (66588, [66628]); (66589, [66629]); (66590, [66630]); (66591, [66631]);
    (66592, [66632]); (66593, [66633]); (66594, [66634]); (66595, [66635]);
    (66596, [66636]); (66597, [66637]); (66598, [66638]); (66599, [66639]);
    (66736, [66776]); (66737, [66777]); (66738, [66778]); (66739, [66779]);
    (66740, [66780]); (66741, [66781]); (66742, [66782]); (66743, [66783]);
    (66744, [66784]); (66745, [66785]); (66746, [66786]); (66747, [66787]);
    (66748, [66788]); (66749, [66789]); (66750, [66790]); (66751, [66791]);
    (66752, [66792]); (66753, [66793]); (66754, [66794]); (66755, [66795]);
    (66756, [66796]); (66757, [66797]); (66758, [66798]); (66759, [66799]);
    (66760, [66800]); (66761, [66801]); (66762, [66802]); (66763, [66803]);
    (66764, [66804]); (66765, [66805]); (66766, [66806]); (66767, [66807]);
    (66768, [66808]); (66769, [66809]); (66770, [66810]); (66771, [66811]);
    (66928, [66967]); (66929, [66968]); (66930, [66969]); (66931, [66970]);
    (66932, [66971]); (66933, [66972]); (66934, [66973]); (66935, [66974]);
    (66936, [66975]); (66937, [66976]); (66938, [66977]); (66940, [66979]);
    (66941, [66980]); (66942, [66981]); (66943, [66982]); (66944, [66983]);
    (66945, [66984]); (66946, [66985]); (66947, [66986]); (66948, [66987]);
    (66949, [66988]); (66950, [66989]); (66951, [66990]); (66952, [66991]);
    (66953, [66992]); (66954, [66993]); (66956, [66995]); (66957, [66996]);
    (66958, [66997]); (66959, [66998]); (66960, [66999]); (66961, [67000]);
    (66962, [67001]); (66964, [67003]); (66965, [67004]); (68736, [68800]);
    (68737, [68801]); (68738, [68802]); (68739, [68803]); (68740, [68804]);
    (68741, [68805]); (68742, [68806]); (68743, [68807]); (68744, [68808]);
    (68745, [68809]); (68746, [68810]); (68747, [68811]); (68748, [68812]);
    (68749, [68813]); (68750, [68814]); (68751, [68815]); (68752, [68816]);
    (68753, [68817]); (68754, [68818]); (68755, [68819]); (68756, [68820]);
    (68757, [68821]); (68758, [68822]); (68759, [68823]); (68760, [68824]);
    (68761, [68825]); (68762, [68826]); (68763, [68827]); (68764, [68828]);
    (68765, [68829]); (68766, [68830]); (68767, [68831]); (68768, [68832]);
    (68769, [68833]); (68770, [68834]); (68771, [68835]); (68772, [68836]);
    (68773, [68837]); (68774, [68838]); (68775, [68839]); (68776, [68840]);
    (68777, [68841]); (68778, [68842]); (68779, [68843]); (68780, [68844]);
    (68781, [68845]); (68782, [68846]); (68783, [68847]); (68784, [68848]);
    (68785, [68849]); (68786, [68850]); (71840, [71872]); (71841, [71873]);
    (71842, [71874]); (71843, [71875]); (71844, [71876]); (71845, [71877]);
    (71846, [71878]); (71847, [71879]); (71848, [71880]); (71849, [71881]);
    (71850, [71882]); (71851, [71883]); (71852, [71884]); (71853, [71885]);
    (71854, [71886]); (71855, [71887]); (71856, [71888]); (71857, [71889]);
    (71858, [71890]); (71859, [71891]); (71860, [71892]); (71861, [71893]);
    (71862, [71894]); (71863, [71895]); (71864, [71896]); (71865, [71897]);
    (71866, [71898]); (71867, [71899]); (71868, [71900]); (71869, [71901]);
    (71870, [71902]); (71871, [71903]); (93760, [93792]); (93761, [93793]);
    (93762, [93794]); (93763, [93795]); (93764, [93796]); (93765, [93797]);
    (93766, [93798]); (93767, [93799]); (93768, [93800]); (93769, [93801]);
    (93770, [93802]); (93771, [93803]); (93772, [93804]); (93773, [93805]);
    (93774, [93806]); (93775, [93807]); (93776, [93808]); (93777, [93809]);
    (93778, [93810]); (93779, [93811]); (93780, [93812]); (93781, [93813]);
    (93782, [93814]); (93783, [93815]); (93784, [93816]); (93785, [93817]);
    (93786, [93818]); (93787, [93819]); (93788, [93820]); (93789, [93821]);
    (93790, [93822]); (93791, [93823]); (125184, [125218]);
    (125185, [125219]); (125186, [125220]); (125187, [125221]);
    (125188, [125222]); (125189, [125223]); (125190, [125224]);
    (125191, [125225]); (125192, [125226]); (125193, [125227]);
    (125194, [125228]); (125195, [125229]); (125196, [125230]);
    (125197, [125231]); (125198, [125232]); (125199, [125233]);
    (125200, [125234]); (125201, [125235]); (125202, [125236]);
    (125203, [125237]); (125204, [125238]); (125205, [125239]);
    (125206, [125240]); (125207, [125241]); (125208, [125242]);
    (125209, [125243]); (125210, [125244]); (125211, [125245]);
    (125212, [125246]); (125213, [125247]); (125214, [125248]);
    (125215, [125249]); (125216, [125250]); (125217, [125251])
  ]%N.

(** The cased code points (Lowercase, Uppercase or titlecase letters), as
    ranges. *)
Definition CASED : list (char * char) :=
  [
    (65, 90); (97, 122); (170, 170); (181, 181); (186, 186); (192, 214);
    (216, 246); (248, 442); (444, 447); (452, 659); (661, 696); (704, 705);
    (736, 740); (837, 837); (880, 883); (886, 887); (890, 893); (895, 895);
    (902, 902); (904, 906); (908, 908); (910, 929); (931, 1013);
    (1015, 1153); (1162, 1327); (1329, 1366); (1376, 1416); (4256, 4293);
    (4295, 4295); (4301, 4301); (4304, 4346); (4349, 4351); (5024, 5109);
    (5112, 5117); (7296, 7304); (7312, 7354); (7357, 7359); (7424, 7615);
    (7680, 7957); (7960, 7965); (7968, 8005); (8008, 8013); (8016, 8023);
    (8025, 8025); (8027, 8027); (8029, 8029); (8031, 8061); (8064, 8116);
    (8118, 8124); (8126, 8126); (8130, 8132); (8134, 8140); (8144, 8147);
    (8150, 8155); (8160, 8172); (8178, 8180); (8182, 8188); (8305, 8305);
    (8319, 8319); (8336, 8348); (8450, 8450); (8455, 8455); (8458, 8467);
    (8469, 8469); (8473, 8477); (8484, 8484); (8486, 8486); (8488, 8488);
    (8490, 8493); (8495, 8500); (8505, 8505); (8508, 8511); (8517, 8521);
    (8526, 8526); (8544, 8575); (8579, 8580); (9398, 9449); (11264, 11492);
    (11499, 11502); (11506, 11507); (11520, 11557); (11559, 11559);
    (11565, 11565); (42560, 42605); (42624, 42653); (42786, 42887);
    (42891, 42894); (42896, 42954); (42960, 42961); (42963, 42963);
    (42965, 42969); (42997, 42998); (43000, 43002); (43824, 43866);
    (43868, 43880); (43888, 43967); (64256, 64262); (64275, 64279);
    (65313, 65338); (65345, 65370); (66560, 66639); (66736, 66771);
    (66776, 66811); (66928, 66938); (66940, 66954); (66956, 66962);
    (66964, 66965); (66967, 66977); (66979, 66993); (66995, 67001);
    (67003, 67004); (67456, 67456); (67459, 67461); (67463, 67504);
    (67506, 67514); (68736, 68786); (68800, 68850); (71840, 71903);
    (93760, 93823); (119808, 119892); (119894, 119964); (119966, 119967);
    (119970, 119970); (119973, 119974); (119977, 119980); (119982, 119993);
    (119995, 119995); (119997, 120003); (120005, 120069); (120071, 120074);
    (120077, 120084); (120086, 120092); (120094, 120121); (120123, 120126);
    (120128, 120132); (120134, 120134); (120138, 120144); (120146, 120485);
    (120488, 120512); (120514, 120538); (120540, 120570); (120572, 120596);
    (120598, 120628); (120630, 120654); (120656, 120686); (120688, 120712);
    (120714, 120744); (120746, 120770); (120772, 120779); (122624, 122633);
    (122635, 122654); (125184, 125251); (127280, 127305); (127312, 127337);
    (127344, 127369)
  ]%N.

(** The case-ignorable code points, as ranges. *)
Definition CASE_IGNORABLE : list (char * char) :=
  [
    (39, 39); (46, 46); (58, 58); (94, 94); (96, 96); (168, 168);
    (173, 173); (175, 175); (180, 180); (183, 184); (688, 879); (884, 885);
    (890, 890); (900, 901); (903, 903); (1155, 1161); (1369, 1369);
    (1375, 1375); (1425, 1469); (1471, 1471); (1473, 1474); (1476, 1477);
    (1479, 1479); (1524, 1524); (1536, 1541); (1552, 1562); (1564, 1564);
    (1600, 1600); (1611, 1631); (1648, 1648); (1750, 1757); (1759, 1768);
    (1770, 1773); (1807, 1807); (1809, 1809); (1840, 1866); (1958, 1968);
    (2027, 2037); (2042, 2042); (2045, 2045); (2070, 2093); (2137, 2139);
    (2184, 2184); (2192, 2193); (2200, 2207); (2249, 2306); (2362, 2362);
    (2364, 2364); (2369, 2376); (2381, 2381); (2385, 2391); (2402, 2403);
    (2417, 2417); (2433, 2433); (2492, 2492); (2497, 2500); (2509, 2509);
    (2530, 2531); (2558, 2558); (2561, 2562); (2620, 2620); (2625, 2626);
    (2631, 2632); (2635, 2637); (2641, 2641); (2672, 2673); (2677, 2677);
    (2689, 2690); (2748, 2748); (2753, 2757); (2759, 2760); (2765, 2765);
    (2786, 2787); (2810, 2815); (2817, 2817); (2876, 2876); (2879, 2879);
    (2881, 2884); (2893, 2893); (2901, 2902); (2914, 2915); (2946, 2946);
    (3008, 3008); (3021, 3021); (3072, 3072); (3076, 3076); (3132, 3132);
    (3134, 3136); (3142, 3144); (3146, 3149); (3157, 3158); (3170, 3171);
    (3201, 3201); (3260, 3260); (3263, 3263); (3270, 3270); (3276, 3277);
    (3298, 3299); (3328, 3329); (3387, 3388); (3393, 3396); (3405, 3405);
    (3426, 3427); (3457, 3457); (3530, 3530); (3538, 3540); (3542, 3542);
    (3633, 3633); (3636, 3642); (3654, 3662); (3761, 3761); (3764, 3772);
    (3782, 3782); (3784, 3789); (3864, 3865); (3893, 3893); (3895, 3895);
    (3897, 3897); (3953, 3966); (3968, 3972); (3974, 3975); (3981, 3991);
    (3993, 4028); (4038, 4038); (4141, 4144); (4146, 4151); (4153, 4154);
    (4157, 4158); (4184, 4185); (4190, 4192); (4209, 4212); (4226, 4226);
    (4229, 4230); (4237, 4237); (4253, 4253); (4348, 4348); (4957, 4959);
    (5906, 5908); (5938, 5939); (5970, 5971); (6002, 6003); (6068, 6069);
    (6071, 6077); (6086, 6086); (6089, 6099); (6103, 6103); (6109, 6109);
    (6155, 6159); (6211, 6211); (6277, 6278); (6313, 6313); (6432, 6434);
    (6439, 6440); (6450, 6450); (6457, 6459); (6679, 6680); (6683, 6683);
    (6742, 6742); (6744, 6750); (6752, 6752); (6754, 6754); (6757, 6764);
    (6771, 6780); (6783, 6783); (6823, 6823); (6832, 6862); (6912, 6915);
    (6964, 6964); (6966, 6970); (6972, 6972); (6978, 6978); (7019, 7027);
    (7040, 7041); (7074, 7077); (7080, 7081); (7083, 7085); (7142, 7142);
    (7144, 7145); (7149, 7149); (7151, 7153); (7212, 7219); (7222, 7223);
    (7288, 7293); (7376, 7378); (7380, 7392); (7394, 7400); (7405, 7405);
    (7412, 7412); (7416, 7417); (7468, 7530); (7544, 7544); (7579, 7679);
    (8125, 8125); (8127, 8129); (8141, 8143); (8157, 8159); (8173, 8175);
    (8189, 8190); (8203, 8207); (8216, 8217); (8228, 8228); (8231, 8231);
    (8234, 8238); (8288, 8292); (8294, 8303); (8305, 8305); (8319, 8319);
    (8336, 8348); (8400, 8432); (11388, 11389); (11503, 11505);
    (11631, 11631); (11647, 11647); (11744, 11775); (11823, 11823);
    (12293, 12293); (12330, 12333); (12337, 12341); (12347, 12347);
    (12441, 12446); (12540, 12542); (40981, 40981); (42232, 42237);
    (42508, 42508); (42607, 42610); (42612, 42621); (42623, 42623);
    (42652, 42655); (42736, 42737); (42752, 42785); (42864, 42864);
    (42888, 42890); (42994, 42996); (43000, 43001); (43010, 43010);
    (43014, 43014); (43019, 43019); (43045, 43046); (43052, 43052);
    (43204, 43205); (43232, 43249); (43263, 43263); (43302, 43309);
    (43335, 43345); (43392, 43394); (43443, 43443); (43446, 43449);
    (43452, 43453); (43471, 43471); (43493, 43494); (43561, 43566);
    (43569, 43570); (43573, 43574); (43587, 43587); (43596, 43596);
    (43632, 43632); (43644, 43644); (43696, 43696); (43698, 43700);
    (43703, 43704); (43710, 43711); (43713, 43713); (43741, 43741);
    (43756, 43757); (43763, 43764); (43766, 43766); (43867, 43871);
    (43881, 43883); (44005, 44005); (44008, 44008); (44013, 44013);
    (64286, 64286); (64434, 64450); (65024, 65039); (65043, 65043);
    (65056, 65071); (65106, 65106); (65109, 65109); (65279, 65279);
    (65287, 65287); (65294, 65294); (65306, 65306); (65342, 65342);
    (65344, 65344); (65392, 65392); (65438, 65439); (65507, 65507);
    (65529, 65531); (66045, 66045); (66272, 66272); (66422, 66426);
    (67456, 67461); (67463, 67504); (67506, 67514); (68097, 68099);
    (68101, 68102); (68108, 68111); (68152, 68154); (68159, 68159);
    (68325, 68326); (68900, 68903); (69291, 69292); (69446, 69456);
    (69506, 69509); (69633, 69633); (69688, 69702); (69744, 69744);
    (69747, 69748); (69759, 69761); (69811, 69814); (69817, 69818);
    (69821, 69821); (69826, 69826); (69837, 69837); (69888, 69890);
    (69927, 69931); (69933, 69940); (70003, 70003); (70016, 70017);
    (70070, 70078); (70089, 70092); (70095, 70095); (70191, 70193);
    (70196, 70196); (70198, 70199); (70206, 70206); (70367, 70367);
    (70371, 70378); (70400, 70401); (70459, 70460); (70464, 70464);
    (70502, 70508); (70512, 70516); (70712, 70719); (70722, 70724);
    (70726, 70726); (70750, 70750); (70835, 70840); (70842, 70842);
    (70847, 70848); (70850, 70851); (71090, 71093); (71100, 71101);
    (71103, 71104); (71132, 71133); (71219, 71226); (71229, 71229);
    (71231, 71232); (71339, 71339); (71341, 71341); (71344, 71349);
    (71351, 71351); (71453, 71455); (71458, 71461); (71463, 71467);
    (71727, 71735); (71737, 71738); (71995, 71996); (71998, 71998);
    (72003, 72003); (72148, 72151); (72154, 72155); (72160, 72160);
    (72193, 72202); (72243, 72248); (72251, 72254); (72263, 72263);
    (72273, 72278); (72281, 72283); (72330, 72342); (72344, 72345);
    (72752, 72758); (72760, 72765); (72767, 72767); (72850, 72871);
    (72874, 72880); (72882, 72883); (72885, 72886); (73009, 73014);
    (73018, 73018); (73020, 73021); (73023, 73029); (73031, 73031);
    (73104, 73105); (73109, 73109); (73111, 73111); (73459, 73460);
    (78896, 78904); (92912, 92916); (92976, 92982); (92992, 92995);
    (94031, 94031); (94095, 94111); (94176, 94177); (94179, 94180);
    (110576, 110579); (110581, 110587); (110589, 110590); (113821, 113822);
    (113824, 113827); (118528, 118573); (118576, 118598); (119143, 119145);
    (119155, 119170); (119173, 119179); (119210, 119213); (119362, 119364);
    (121344, 121398); (121403, 121452); (121461, 121461); (121476, 121476);
    (121499, 121503); (121505, 121519); (122880, 122886); (122888, 122904);
    (122907, 122913); (122915, 122916); (122918, 122922); (123184, 123197);
    (123566, 123566); (123628, 123631); (125136, 125142); (125252, 125259);
    (127995, 127999); (917505, 917505); (917536, 917631); (917760, 917999)
  ]%N.

(** The decimal digits of Unicode 14.0 (general category Nd), as ranges;
    every range is made of runs of ten digits, 0 to 9 in order. *)
Definition DECIMAL : list (char * char) :=
  [
    (48, 57); (1632, 1641); (1776, 1785); (1984, 1993); (2406, 2415);
    (2534, 2543); (2662, 2671); (2790, 2799); (2918, 2927); (3046, 3055);
    (3174, 3183); (3302, 3311); (3430, 3439); (3558, 3567); (3664, 3673);
    (3792, 3801); (3872, 3881); (4160, 4169); (4240, 4249); (6112, 6121);
    (6160, 6169); (6470, 6479); (6608, 6617); (6784, 6793); (6800, 6809);
    (6992, 7001); (7088, 7097); (7232, 7241); (7248, 7257); (42528, 42537);
    (43216, 43225); (43264, 43273); (43472, 43481); (43504, 43513);
    (43600, 43609); (44016, 44025); (65296, 65305); (66720, 66729);
    (68912, 68921); (69734, 69743); (69872, 69881); (69942, 69951);
    (70096, 70105); (70384, 70393); (70736, 70745); (70864, 70873);
    (71248, 71257); (71360, 71369); (71472, 71481); (71904, 71913);
    (72016, 72025); (72784, 72793); (73040, 73049); (73120, 73129);
    (92768, 92777); (92864, 92873); (93008, 93017); (120782, 120831);
    (123200, 123209); (123632, 123641); (125264, 125273); (130032, 130041)
  ]%N.

(** The entry of a code point in a table of mappings. *)
Fixpoint table_get (c : char) (t : list (char * str)) : option str :=
  match t with
  | [] => None
  | (k, v) :: t' => if (k =? c)%N then Some v else table_get c t'
  end.

Definition in_ranges (c : char) (rs : list (char * char)) : bool :=
  existsb (fun r => (fst r <=? c)%N && (c <=? snd r)%N) rs.

End Ucd.

(** ** Python strings *)

Module Py.

Definition char := N.
Definition str := list char.

(** A string literal of the source whose characters are all ASCII. *)
Definition lit (s : string) : str :=
  List.map N_of_ascii (list_ascii_of_string s).

Definition len (s : str) : Z := Z.of_nat (length s).

Definition NL : char := 10%N.
Definition CR : char := 13%N.
(** U+2014, the dash of the listing lines. *)
Definition EM_DASH : char := 8212%N.

Definition char_in (cs : list N) (c : char) : bool :=
  existsb (N.eqb c) cs.

(** [str.isspace] per character: the code points with the Unicode
    White_Space property or bidirectional class WS, B or S. *)
Definition isspace (c : char) : bool :=
  char_in [9; 10; 11; 12; 13; 28; 29; 30; 31; 32; 133; 160; 5760;
           8192; 8193; 8194; 8195; 8196; 8197; 8198; 8199; 8200; 8201;
           8202; 8232; 8233; 8239; 8287; 12288]%N c.

(** The line boundaries of [str.splitlines]. *)
Definition is_linebreak (c : char) : bool :=
  char_in [10; 11; 12; 13; 28; 29; 30; 133; 8232; 8233]%N c.

(** [text.splitlines(True)]: the lines with their terminators kept; "\r\n"
    is one terminator.  [cur] is the line being read. *)
Fixpoint splitlines_from (cur : str) (s : str) : list str :=
  match s with
  | [] => match cur with [] => [] | _ => [cur] end
  | c :: s' =>
      if is_linebreak c then
        match s' with
        | d :: s'' =>
            if (c =? CR)%N && (d =? NL)%N
            then (cur ++ [c; d]) :: splitlines_from [] s''
            else (cur ++ [c]) :: splitlines_from [] s'
        | [] => (cur ++ [c]) :: splitlines_from [] s'
        end
      else splitlines_from (cur ++ [c]) s'
  end.

Definition splitlines_keepends (s : str) : list str := splitlines_from [] s.

(** [s.strip()] *)
Fixpoint lstrip (s : str) : str :=
  match s with
  | c :: s' => if isspace c then lstrip s' else s
  | [] => []
  end.

Definition rstrip (s : str) : str := rev (lstrip (rev s)).

Definition strip (s : str) : str := rstrip (lstrip s).

(** [s.upper()]: every character is replaced by its upper-case mapping,
    which can be several characters long ("ß" gives "SS"). *)
Definition upper_char (c : char) : str :=
  match Ucd.table_get c Ucd.UPPER with
  | Some u => u
  | None => [c]
  end.

Definition upper (s : str) : str := flat_map upper_char s.

(** [s.split(sep)] for a one-character separator: never empty. *)
Fixpoint split_from (sep : char) (cur : str) (s : str) : list str :=
  match s with
  | [] => [cur]
  | c :: s' =>
      if (c =? sep)%N then cur :: split_from sep [] s'
      else split_from sep (cur ++ [c]) s'
  end.

Definition split (sep : char) (s : str) : list str := split_from sep [] s.

(** [xs[-1]] on a non-empty list; [split] never returns an empty one. *)
Definition last_item (xs : list str) : str := List.last xs [].

(** [s.startswith(p)] *)
Fixpoint startswith (p s : str) : bool :=
  match p, s with
  | [], _ => true
  | a :: p', b :: s' => (a =? b)%N && startswith p' s'
  | _ :: _, [] => false
  end.

(** [sep.join(xs)] *)
Fixpoint join (sep : str) (xs : list str) : str :=
  match xs with
  | [] => []
  | [x] => x
  | x :: rest => x ++ sep ++ join sep rest
  end.

(** [s.replace(a, b)] for single characters. *)
Definition replace_char (a b : char) (s : str) : str :=
  List.map (fun c => if (c =? a)%N then b else c) s.

(** [s.split()]: the maximal runs of characters that are not blank. *)
Fixpoint words_from (cur : str) (s : str) : list str :=
  match s with
  | [] => match cur with [] => [] | _ => [cur] end
  | c :: s' =>
      if isspace c then
        match cur with
        | [] => words_from [] s'
        | _ => cur :: words_from [] s'
        end
      else words_from (cur ++ [c]) s'
  end.

Definition words (s : str) : list str := words_from [] s.

(** [s.lower()]: every character is replaced by its lower-case mapping,
    but for U+03A3 (capital sigma), which becomes U+03C2 at the end of a
    word (a cased letter before it and none after it, characters that are
    case-ignorable being passed over) and U+03C3 elsewhere. *)
Definition lower_char (c : char) : str :=
  match Ucd.table_get c Ucd.LOWER with
  | Some l => l
  | None => [c]
  end.

Definition is_cased (c : char) : bool := Ucd.in_ranges c Ucd.CASED.
Definition is_case_ignorable (c : char) : bool :=
  Ucd.in_ranges c Ucd.CASE_IGNORABLE.

(** The first character of [s] that is not case-ignorable is cased. *)
Fixpoint cased_next (s : str) : bool :=
  match s with
  | [] => false
  | c :: s' => if is_case_ignorable c then cased_next s' else is_cased c
  end.

(** [before] is what was read, last character first. *)
Fixpoint lower_from (before : str) (s : str) : str :=
  match s with
  | [] => []
  | c :: s' =>
      (if (c =? 931)%N
       then [if cased_next before && negb (cased_next s')
             then 962%N else 963%N]
       else lower_char c)
      ++ lower_from (c :: before) s'
  end.

Definition lower (s : str) : str := lower_from [] s.

(** [c in s] for a character. *)
Definition contains_char (c : char) (s : str) : bool :=
  existsb (N.eqb c) s.

End Py.

Import Py.

(** ** Python floats *)

Module PyFloat.

Definition float := spec_float.

Definition prec : Z := 53.
Definition emax : Z := 1024.

(** The literal [0.0] and the integer [0] in a comparison with a float. *)
Definition zero : float := S754_zero false.

(** [x < y] and [x > y] on floats: false as soon as one side is a NaN. *)
Definition lt (x y : float) : bool := SFltb x y.
Definition gt (x y : float) : bool := SFltb y x.

Definition is_nan (x : float) : bool :=
  match x with S754_nan => true | _ => false end.

Definition is_finite (x : float) : bool :=
  match x with S754_zero _ | S754_finite _ _ _ => true | _ => false end.

Definition is_zero (x : float) : bool :=
  match x with S754_zero _ => true | _ => false end.

(** The sign bit: set on negative values, on [-0.0] and on [-inf]. *)
Definition sign_bit (x : float) : bool :=
  match x with
  | S754_zero s | S754_infinity s | S754_finite s _ _ => s
  | S754_nan => false
  end.

(** An ASCII digit: the digits that [".2f"] prints. *)
Definition is_digit (c : char) : bool := ((48 <=? c) && (c <=? 57))%N.

(** [\d] of a [str] pattern, and the digits that [float] reads: the
    decimal digits of Unicode, as "١" (U+0661). *)
Definition is_decimal (c : char) : bool := Ucd.in_ranges c Ucd.DECIMAL.

(** The value of a decimal digit: its rank in its run of ten. *)
Definition decimal_value (c : char) : N :=
  match List.find (fun r => (fst r <=? c)%N && (c <=? snd r)%N)
                  Ucd.DECIMAL with
  | Some r => ((c - fst r) mod 10)%N
  | None => 0%N
  end.

(** The integer written by a run of digits. *)
Definition digits_value (ds : str) : N :=
  fold_left (fun acc c => (10 * acc + decimal_value c)%N) ds 0%N.

(** The longest run of decimal digits at the head of [s], and what
    follows it. *)
Fixpoint span_digits (s : str) : str * str :=
  match s with
  | c :: s' =>
      if is_decimal c
      then let '(ds, rest) := span_digits s' in (c :: ds, rest)
      else ([], s)
  | [] => ([], [])
  end.

Fixpoint pow10 (k : nat) : positive :=
  match k with
  | O => 1%positive
  | S k' => (10 * pow10 k')%positive
  end.

(** The nearest binary64 value to [(-1)^neg * m / 10^k], ties to even. *)
Definition of_decimal (neg : bool) (m : N) (k : nat) : float :=
  match m with
  | N0 => S754_zero neg
  | Npos p =>
      SFdiv prec emax (S754_finite neg p 0) (S754_finite false (pow10 k) 0)
  end.

(** The sign in front of a number, and the rest. *)
Definition split_sign (s : str) : bool * str :=
  match s with
  | c :: r =>
      if (c =? 45)%N then (true, r)
      else if (c =? 43)%N then (false, r)
      else (false, s)
  | [] => (false, s)
  end.

(** The characters of a number as [float] reads it here: signs, decimal
    digits and ".". *)
Definition number_char (c : char) : bool :=
  (c =? 43)%N || (c =? 45)%N || (c =? 46)%N || is_decimal c.

(** [float(s)] on a string made of signs, decimal digits and ".", the
    characters that [POTENTIAL_RE] can capture once "," is replaced by
    ".": an optional sign, then digits with at most one "." among them
    and at least one digit ("12", "12.", ".5", "12.5").  [None] stands
    for [ValueError].  The other spellings that Python accepts
    (exponents, surrounding blanks, "inf", "nan", underscores) need other
    characters and are not modelled. *)
Definition float_of_str (s : str) : option float :=
  let '(neg, body) := split_sign s in
  let '(ip, rest) := span_digits body in
  match rest with
  | [] =>
      match ip with
      | [] => None
      | _ :: _ => Some (of_decimal neg (digits_value ip) 0)
      end
  | c :: r =>
      if (c =? 46)%N then
        let '(fp, rest') := span_digits r in
        match rest', ip ++ fp with
        | [], _ :: _ =>
            Some (of_decimal neg (digits_value (ip ++ fp)) (length fp))
        | _, _ => None
        end
      else None
  end.

(** Decimal digits of a natural number, most significant first. *)
Fixpoint uint_digits (u : Decimal.uint) : str :=
  match u with
  | Decimal.Nil => []
  | Decimal.D0 u => 48%N :: uint_digits u
  | Decimal.D1 u => 49%N :: uint_digits u
  | Decimal.D2 u => 50%N :: uint_digits u
  | Decimal.D3 u => 51%N :: uint_digits u
  | Decimal.D4 u => 52%N :: uint_digits u
  | Decimal.D5 u => 53%N :: uint_digits u
  | Decimal.D6 u => 54%N :: uint_digits u
  | Decimal.D7 u => 55%N :: uint_digits u
  | Decimal.D8 u => 56%N :: uint_digits u
  | Decimal.D9 u => 57%N :: uint_digits u
  end.

Definition str_of_N (n : N) : str := uint_digits (N.to_uint n).

(** [num / den] rounded to the nearest integer, ties to the even one. *)
Definition round_half_even (num den : Z) : Z :=
  let q := num / den in
  let r := num mod den in
  match 2 * r ?= den with
  | Lt => q
  | Gt => q + 1
  | Eq => if Z.even q then q else q + 1
  end.

(** The hundredths of [m * 2^e], rounded to nearest, ties to even. *)
Definition hundredths (m : positive) (e : Z) : Z :=
  match e with
  | Zneg pe => round_half_even (100 * Zpos m) (Z.pow 2 (Zpos pe))
  | _ => 100 * Zpos m * Z.pow 2 e
  end.

Definition two_digits (n : Z) : str :=
  str_of_N (Z.to_N (n / 10)) ++ str_of_N (Z.to_N (n mod 10)).

Definition fixed2 (h : Z) : str :=
  str_of_N (Z.to_N (h / 100)) ++ lit "." ++ two_digits (h mod 100).

(** [f"{x:.2f}"]: the correctly rounded decimal expansion with two
    digits after the point; the sign bit prints as "-". *)
Definition format_2f (x : float) : str :=
  match x with
  | S754_nan => lit "nan"
  | S754_infinity s => (if s then lit "-" else []) ++ lit "inf"
  | S754_zero s => (if s then lit "-" else []) ++ lit "0.00"
  | S754_finite s m e =>
      (if s then lit "-" else []) ++ fixed2 (hundredths m e)
  end.

(** The float nearest to a rational number, ties to even: what an
    operation on floats returns when [x] is its exact result.  Beyond the
    largest float it is an infinity. *)
Definition of_Q (x : Q) : float :=
  match Qnum x with
  | Z0 => S754_zero false
  | Zpos p =>
      SFdiv prec emax (S754_finite false p 0) (S754_finite false (Qden x) 0)
  | Zneg p =>
      SFdiv prec emax (S754_finite true p 0) (S754_finite false (Qden x) 0)
  end.

(** [x < n] for a float [x] and an int [n]: Python compares the two
    exactly; a NaN is below nothing. *)
Definition lt_int (x : float) (n : Z) : bool :=
  match x with
  | S754_nan => false
  | S754_infinity s => s
  | S754_zero _ => 0 <? n
  | S754_finite s m e =>
      let v := if s then Zneg m else Zpos m in
      match e with
      | Zneg pe => v <? n * Z.pow 2 (Zpos pe)
      | _ => v * Z.pow 2 e <? n
      end
  end.

End PyFloat.

Import PyFloat.

(** ** Regular expressions

    The fragment of [re] that [POTENTIAL_RE] is written in, with Python's
    backtracking order: [run r s] lists, most preferred first, the ways of
    matching [r] at the start of [s], each as the text matched and the
    text left. *)

Module Re.

Inductive re :=
| Cls (p : char -> bool)        (* one character of a class *)
| Star (p : char -> bool)       (* c*, greedy *)
| Plus (p : char -> bool)       (* c+, greedy *)
| Opt (r : re)                  (* r?, greedy *)
| Cat (r1 r2 : re).

Definition push (c : char) (m : str * str) : str * str := (c :: m.1, m.2).

Fixpoint star (p : char -> bool) (s : str) : list (str * str) :=
  match s with
  | c :: s' =>
      if p c then List.map (push c) (star p s') ++ [([], s)] else [([], s)]
  | [] => [([], [])]
  end.

Definition plus (p : char -> bool) (s : str) : list (str * str) :=
  match s with
  | c :: s' => if p c then List.map (push c) (star p s') else []
  | [] => []
  end.

Fixpoint run (r : re) (s : str) : list (str * str) :=
  match r with
  | Cls p =>
      match s with
      | c :: s' => if p c then [([c], s')] else []
      | [] => []
      end
  | Star p => star p s
  | Plus p => plus p s
  | Opt r' => run r' s ++ [([], s)]
  | Cat r1 r2 =>
      flat_map (fun m1 => List.map (fun m2 => (m1.1 ++ m2.1, m2.2))
                                   (run r2 m1.2))
               (run r1 s)
  end.

(** A pattern of the shape [(group)tail]: the text of group 1 in the
    preferred match that starts at the head of [s]. *)
Definition match_here (group tail : re) (s : str) : option str :=
  head (flat_map (fun m1 => match run tail m1.2 with
                            | [] => []
                            | _ :: _ => [m1.1]
                            end)
                 (run group s)).

(** [pattern.search(s)] followed by [m.group(1)]: the leftmost start
    wins.  [None] when nothing matches. *)
Fixpoint search (group tail : re) (s : str) : option str :=
  match match_here group tail s with
  | Some g => Some g
  | None =>
      match s with
      | [] => None
      | _ :: s' => search group tail s'
      end
  end.

End Re.

(** ** The parsed page *)

Module Dom.

(** What BeautifulSoup builds: text strings, the strings that [get_text]
    passes over (comments, declarations), and tags with their attribute
    dict and children.  The page itself is the root tag. *)
Inductive node :=
| Text (s : str)
| Other (s : str)
| Tag (name : str) (attrs : list (str * str)) (children : list node).

(** An element is addressed by the child indices leading to it. *)
Definition path := list nat.

Definition children (n : node) : list node :=
  match n with Tag _ _ cs => cs | _ => [] end.

Definition is_tag (n : node) : bool :=
  match n with Tag _ _ _ => true | _ => false end.

Definition named (names : list str) (n : node) : bool :=
  match n with
  | Tag nm _ _ => existsb (fun x => bool_decide (nm = x)) names
  | _ => false
  end.

Fixpoint assoc (k : str) (kvs : list (str * str)) : option str :=
  match kvs with
  | [] => None
  | (k', v) :: rest => if bool_decide (k' = k) then Some v else assoc k rest
  end.

(** [el.get(key)] and [el.get(key, "")]. *)
Definition attr (n : node) (k : str) : option str :=
  match n with Tag _ as_ _ => assoc k as_ | _ => None end.

Definition attr_or_empty (n : node) (k : str) : str :=
  default [] (attr n k).

Fixpoint at_path (n : node) (p : path) : option node :=
  match p with
  | [] => Some n
  | i :: p' =>
      match nth_error (children n) i with
      | Some c => at_path c p'
      | None => None
      end
  end.

(** Document order: a node, then its children's subtrees left to right. *)
Fixpoint walk (p : path) (n : node) : list (path * node) :=
  (p, n) ::
  match n with
  | Tag _ _ cs =>
      (fix kids (i : nat) (cs : list node) : list (path * node) :=
         match cs with
         | [] => []
         | c :: cs' => walk (p ++ [i]) c ++ kids (S i) cs'
         end) 0%nat cs
  | _ => []
  end.

Definition descendants (p : path) (n : node) : list (path * node) :=
  tail (walk p n).

(** [el.find_all(names)] on the element [n] found at [p]. *)
Definition find_all (names : list str) (p : path) (n : node)
    : list (path * node) :=
  List.filter (fun qn => named names (snd qn)) (descendants p n).

(** The text strings below [n], in document order. *)
Definition strings (n : node) : list str :=
  flat_map (fun qn => match snd qn with Text s => [s] | _ => [] end)
           (descendants [] n).

(** [el.text] *)
Definition text (n : node) : str := concat (strings n).

(** [el.get_text(" ", strip=True)] *)
Definition get_text_stripped (n : node) : str :=
  join (lit " ")
       (List.filter (fun s => negb (bool_decide (s = [])))
                    (List.map strip (strings n))).

(** The proper prefixes of a path, longest first: the ancestors of the
    element, nearest first. *)
Fixpoint prefixes (p : path) : list path :=
  match p with
  | [] => [[]]
  | i :: p' => [] :: List.map (cons i) (prefixes p')
  end.

Definition ancestors (p : path) : list path :=
  rev (removelast (prefixes p)).

(** [el.find_parent(name)] *)
Definition find_parent (name : str) (d : node) (p : path) : option path :=
  List.find (fun q => match at_path d q with
                      | Some n => named [name] n
                      | None => false
                      end)
            (ancestors p).

(** [el.parent] *)
Definition parent (p : path) : path := removelast p.

(** The siblings that come after the element, in order. *)
Definition next_siblings (d : node) (p : path) : list (path * node) :=
  match at_path d (parent p) with
  | Some par =>
      let i := List.last p 0%nat in
      List.map (fun jn => (parent p ++ [fst jn], snd jn))
               (skipn (S i) (combine (seq 0 (length (children par)))
                                     (children par)))
  | None => []
  end.

(** [el.find_next_siblings(name)] *)
Definition find_next_siblings (name : str) (d : node) (p : path)
    : list (path * node) :=
  List.filter (fun qn => named [name] (snd qn)) (next_siblings d p).

(** [el.find_next_sibling()]: the next sibling that is a tag. *)
Definition find_next_sibling (d : node) (p : path) : option (path * node) :=
  List.find (fun qn => is_tag (snd qn)) (next_siblings d p).

(** Everything after the element in document order, its own descendants
    first. *)
Fixpoint after (p : path) (l : list (path * node)) : list (path * node) :=
  match l with
  | [] => []
  | qn :: rest => if bool_decide (fst qn = p) then rest else after p rest
  end.

(** [el.find_all_next(name, limit=k)] *)
Definition find_all_next (name : str) (k : nat) (d : node) (p : path)
    : list (path * node) :=
  firstn k (List.filter (fun qn => named [name] (snd qn))
                        (after p (walk [] d))).

End Dom.

Import Dom.

(** ** notifier_bot.py: message splitting *)

Module Notifier.

(** *** The extracted records *)

(** An action is the string that an item holds under "action"; these
    are the four values of [ACTION_MAP]. *)
Definition action := str.

Definition BUY : action := lit "BUY".
Definition SELL : action := lit "SELL".
Definition KEEP : action := lit "KEEP".
Definition TAKE_PROFIT : action := lit "TAKE PROFIT".

(** One entry of the list that [parse_synthese] returns. *)
Record item := Item {
  code : str;
  name : str;
  act : action;
  potential : float
}.

Definition ACTION_MAP : list (str * action) :=
  [ (lit "f_1b.png", BUY);
    (lit "f_5b.png", SELL);
    (lit "f_3b.png", KEEP);
    (lit "f_4b.png", TAKE_PROFIT) ].

(** [ACTION_MAP[filename]] when [filename in ACTION_MAP]. *)
Fixpoint lookup_action (filename : str) (m : list (str * action))
    : option action :=
  match m with
  | [] => None
  | (k, v) :: rest =>
      if bool_decide (k = filename) then Some v
      else lookup_action filename rest
  end.

(** [POTENTIAL_RE = ([+-]?\d+(?:[.,]\d+)?)\s*%] *)
Definition is_sign (c : char) : bool := char_in [43; 45]%N c.
Definition is_sep (c : char) : bool := char_in [46; 44]%N c.
Definition is_percent (c : char) : bool := (c =? 37)%N.

Definition POTENTIAL_GROUP : Re.re :=
  Re.Cat (Re.Opt (Re.Cls is_sign))
         (Re.Cat (Re.Plus is_decimal)
                 (Re.Opt (Re.Cat (Re.Cls is_sep) (Re.Plus is_decimal)))).

Definition POTENTIAL_TAIL : Re.re :=
  Re.Cat (Re.Star isspace) (Re.Cls is_percent).

(** [m = POTENTIAL_RE.search(area)], then [m.group(1)]. *)
Definition POTENTIAL_RE_search (area : str) : option str :=
  Re.search POTENTIAL_GROUP POTENTIAL_TAIL area.

(** *** parse_synthese *)

(** [soup.find_all("a", href=lambda x: x and x.startswith("conseil/"))] *)
Definition is_conseil_link (n : node) : bool :=
  named [lit "a"] n &&
  match attr n (lit "href") with
  | Some x => negb (bool_decide (x = [])) && startswith (lit "conseil/") x
  | None => false
  end.

Definition links (d : node) : list (path * node) :=
  List.filter (fun qn => is_conseil_link (snd qn)) (descendants [] d).

(** [href.split("/")[-1].strip().upper()] *)
Definition code_of (a : node) : str :=
  upper (strip (last_item (split 47%N (attr_or_empty a (lit "href"))))).

(** [a.text.strip()] *)
Definition name_of (a : node) : str := strip (text a).

(** [tr if tr else a.parent]: a tag is always true. *)
Definition context (d : node) (p : path) : path :=
  match find_parent (lit "tr") d p with
  | Some tr => tr
  | None => parent p
  end.

(** The images searched for the action icon: those of the context; failing
    that, the following [img] siblings; failing that, the next six [img]
    in document order. *)
Definition nearby_imgs (d : node) (p : path) : list (path * node) :=
  let imgs :=
    match at_path d (context d p) with
    | Some par => find_all [lit "img"] (context d p) par
    | None => []
    end in
  let imgs :=
    match imgs with
    | [] => find_next_siblings (lit "img") d p
    | _ => imgs
    end in
  match imgs with
  | [] => find_all_next (lit "img") 6 d p
  | _ => imgs
  end.

(** The loop over [imgs]: the first file name found in [ACTION_MAP]. *)
Fixpoint infer_action (imgs : list (path * node)) : option action :=
  match imgs with
  | [] => None
  | img :: rest =>
      let src := attr_or_empty (snd img) (lit "src") in
      match src with
      | [] => infer_action rest
      | _ =>
          match lookup_action (last_item (split 47%N src)) ACTION_MAP with
          | Some a => Some a
          | None => infer_action rest
          end
      end
  end.

(** The [for _ in range(6)] walk over the following tag siblings. *)
Fixpoint sibling_texts (fuel : nat) (d : node) (sib : path) : list str :=
  match fuel with
  | O => []
  | S fuel' =>
      match find_next_sibling d sib with
      | None => []
      | Some (q, n) => get_text_stripped n :: sibling_texts fuel' d q
      end
  end.

Definition text_search_area (d : node) (p : path) : str :=
  match find_parent (lit "tr") d p with
  | Some tr =>
      match at_path d tr with
      | Some trn =>
          join (lit " ")
               (List.map (fun qn => get_text_stripped (snd qn))
                         (find_all [lit "td"; lit "th"] tr trn))
      | None => []
      end
  | None =>
      join (lit " ")
           (match at_path d (parent p) with
            | Some par => [get_text_stripped par]
            | None => []
            end ++ sibling_texts 6 d p)
  end.

(** [try: potential = float(val_str)] with [except Exception:
    potential = 0.0]. *)
Definition float_or_zero (val_str : str) : float :=
  match float_of_str val_str with
  | Some v => v
  | None => zero
  end.

(** The potential read in the search area; [0.0] when nothing matches. *)
Definition infer_potential (area : str) : float :=
  match POTENTIAL_RE_search area with
  | Some g => float_or_zero (replace_char 44%N 46%N g)
  | None => zero
  end.

(** One turn of the loop over [links]; the state is [seen] and
    [results]. *)
Definition parse_link (d : node) (st : gset (str * str) * list item)
    (a : path * node) : gset (str * str) * list item :=
  let '(seen, results) := st in
  let key := (code_of (snd a), name_of (snd a)) in
  if bool_decide (key ∈ seen) then (seen, results)
  else
    let seen := seen ∪ {[ key ]} in
    let action := infer_action (nearby_imgs d (fst a)) in
    let potential := infer_potential (text_search_area d (fst a)) in
    match action with
    | None => (seen, results)
    | Some ac =>
        (seen, results ++ [Item (fst key) (snd key) ac potential])
    end.

Definition parse_synthese (d : node) : list item :=
  snd (fold_left (parse_link d) (links d) (∅, [])).

(** *** scrape_with_cache *)

(** What [fetch_page] plus [BeautifulSoup] give: a page, or an
    exception. *)
Inductive reply := Page (d : node) | Failure.

(** The network: the number of requests made so far, and the replies the
    server will give to the next ones (none left: the request fails). *)
Record net := Net { fetch_calls : nat; replies : list reply }.

Definition fetch_page (w : net) : reply * net :=
  match replies w with
  | r :: rs => (r, Net (S (fetch_calls w)) rs)
  | [] => (Failure, Net (S (fetch_calls w)) [])
  end.

(** [_cache]: [ts] and [data] ([None] at start). *)
Record cache := Cache { ts : Q; data : option (list item) }.

Definition initial_cache : cache := Cache 0 None.

(** The truth value of [_cache["data"]]: [None] and [[]] are false. *)
Definition truthy (d : option (list item)) : bool :=
  match d with
  | Some (_ :: _) => true
  | _ => false
  end.

(** The outcome of a call: the list returned, or the exception. *)
Inductive outcome := Returned (items : list item) | Raised.

(** [now - t0 < CACHE_TTL] for two readings of the clock: the difference
    is a float, the nearest to the exact difference; it is compared with
    the integer [CACHE_TTL]. *)
Definition within_ttl (ttl : Z) (t0 now : Q) : bool :=
  lt_int (of_Q (now - t0)%Q) ttl.

(** [now - _cache["ts"] < CACHE_TTL] *)
Definition fresh (ttl : Z) (now : Q) (c : cache) : bool :=
  within_ttl ttl (ts c) now.

Definition scrape_with_cache (ttl : Z) (now : Q) (c : cache) (w : net)
    : outcome * cache * net :=
  if truthy (data c) && fresh ttl now c then
    (Returned (default [] (data c)), c, w)
  else
    match fetch_page w with
    | (Page d, w') =>
        let items := parse_synthese d in
        (Returned items, Cache now (Some items), w')
    | (Failure, w') =>
        if truthy (data c) then (Returned (default [] (data c)), c, w')
        else (Raised, c, w')
    end.

(** *** Grouping and formatting *)

(** The keys of [groups]. *)
Definition GROUP_KEYS : list action := [BUY; SELL; KEEP; TAKE_PROFIT].

(** [groups.get(a, [])] for the dict [groups] that [group_by_action]
    returns: an item is appended to the list of its action when that
    action is one of the four keys, and is dropped otherwise. *)
Definition group_by_action (items : list item) (a : action) : list item :=
  if bool_decide (a ∈ GROUP_KEYS)
  then List.filter (fun it => bool_decide (act it = a)) items
  else [].

(** [sorted(items, key=potential, reverse=True)]: a stable sort, largest
    key first, written as an insertion sort: an element goes behind the
    ones whose key is larger than its own and in front of the rest, which
    came after it in [items].  The builtin compares keys with [<] only;
    when no key is a NaN there is one stable result, this one. *)
Fixpoint insert_desc (x : item) (l : list item) : list item :=
  match l with
  | [] => [x]
  | y :: l' =>
      if lt (potential x) (potential y) then y :: insert_desc x l'
      else x :: l
  end.

Definition sorted_desc (items : list item) : list item :=
  fold_right insert_desc [] items.

(** [f"{name} ({code}) — {sign}{pot:.2f}%"] *)
Definition format_item (it : item) : str :=
  let pot := potential it in
  let sign := if gt pot zero then lit "+" else [] in
  name it ++ lit " (" ++ code it ++ lit ") " ++ [EM_DASH] ++ lit " " ++
  sign ++ format_2f pot ++ lit "%".

Definition format_lines (items : list item) : list str :=
  List.map format_item (sorted_desc items).

Definition format_items_sorted (items : list item) : str :=
  join [NL] (format_lines items).

(** *** split_long_message *)

(** The loop of [split_long_message]: [parts] grows at its end, [cur] is the
    part being filled. *)
Fixpoint pack_lines (limit : Z) (lines : list str) (parts : list str)
    (cur : str) : list str * str :=
  match lines with
  | [] => (parts, cur)
  | line :: rest =>
      if len cur + len line >? limit
      then pack_lines limit rest (parts ++ [cur]) line
      else pack_lines limit rest parts (cur ++ line)
  end.

Definition split_long_message (text : str) (limit : Z) : list str :=
  if len text <=? limit then [text]
  else
    let '(parts, cur) := pack_lines limit (splitlines_keepends text) [] [] in
    match cur with
    | [] => parts
    | _ => parts ++ [cur]
    end.

(** The default [limit=4000]. *)
Definition split_long_message_default (text : str) : list str :=
  split_long_message text 4000.

(** *** send_buy_sell_notification *)

(** U+1F4CA, U+2705 and U+1F6D1, the pictograms of the messages. *)
Definition BAR_CHART : char := 128202%N.
Definition CHECK_MARK : char := 9989%N.
Definition STOP_SIGN : char := 128721%N.

(** The messages sent for a list of signals; [stamp] is
    [tz_now.strftime('%Y-%m-%d %H:%M %Z')]. *)
Definition notification_messages (stamp : str) (items : list item)
    : list str :=
  let buy := group_by_action items BUY in
  let sell := group_by_action items SELL in
  match buy, sell with
  | [], [] =>
      [ [BAR_CHART] ++ lit " Market scan (" ++ stamp ++ lit ")" ++ [NL] ++
        lit "No BUY/SELL opportunities found." ]
  | _, _ =>
      let text :=
        [BAR_CHART] ++ lit " Market scan (" ++ stamp ++ lit ")" ++ [NL; NL] in
      let text :=
        match buy with
        | [] => text
        | _ => text ++ ([CHECK_MARK] ++ lit " BUY:" ++ [NL]) ++
               format_items_sorted buy ++ [NL; NL]
        end in
      let text :=
        match sell with
        | [] => text
        | _ => text ++ ([STOP_SIGN] ++ lit " SELL:" ++ [NL]) ++
               format_items_sorted sell ++ [NL; NL]
        end in
      split_long_message text 4000
  end.

(** The scheduled job: [weekday] is [tz_now.weekday()] (Monday is 0); the
    result is the list of messages sent to the chat, in order. *)
Definition send_buy_sell_notification (ttl : Z) (weekday : nat) (stamp : str)
    (now : Q) (c : cache) (w : net) : list str * cache * net :=
  if (5 <=? weekday)%nat then ([], c, w)
  else
    match scrape_with_cache ttl now c w with
    | (Raised, c', w') => ([], c', w')
    | (Returned items, c', w') => (notification_messages stamp items, c', w')
    end.

(** *** cmd_list_handler *)

(** The [mapping] of [cmd_list_handler]. *)
Definition COMMANDS : list (str * action) :=
  [ (lit "/what_to_buy", BUY);
    (lit "/what_to_sell", SELL);
    (lit "/what_to_keep", KEEP);
    (lit "/what_to_take_profit", TAKE_PROFIT) ].

(** What a call of the handler does: it replies with messages, in order,
    or [text.strip().split()[0]] raises [IndexError]. *)
Inductive handled := Replied (msgs : list str) | IndexError.

Definition cmd_list_handler (ttl : Z) (text : str) (now : Q) (c : cache)
    (w : net) : handled * cache * net :=
  match words (strip text) with
  | [] => (IndexError, c, w)
  | first :: _ =>
      match lookup_action (lower first) COMMANDS with
      | None => (Replied [lit "Unknown command."], c, w)
      | Some action =>
          match scrape_with_cache ttl now c w with
          | (Raised, c', w') =>
              (Replied [lit "Error fetching data. Try again later."], c', w')
          | (Returned items, c', w') =>
              match group_by_action items action with
              | [] =>
                  (Replied [lit "No items for " ++ action ++
                            lit "."], c', w')
              | lst =>
                  (Replied
                     (split_long_message
                        (action ++
                         lit " list (sorted by Potential):" ++ [NL; NL] ++
                         format_items_sorted lst)
                        4000),
                   c', w')
              end
          end
      end
  end.

End Notifier.


(** ** scraper/scraper.py: persistence *)

Module Scraper.

(** The documents of the three collections; [scraped_at] is the capture
    time. *)
Record company := Company {
  c_code : str;
  c_title : str;
  c_consensus : str;
  c_potential : str;
  c_url : str;
  c_scraped_at : Z
}.

Record shareholder := Shareholder {
  s_company_code : str;
  s_name : str;
  s_percentage : str;
  s_scraped_at : Z
}.

Record financial := Financial {
  f_company_code : str;
  f_metric : str;
  f_values : list (str * str);
  f_scraped_at : Z
}.

#[global] Instance company_eq_dec : EqDecision company.
Proof. solve_decision. Defined.
#[global] Instance shareholder_eq_dec : EqDecision shareholder.
Proof. solve_decision. Defined.
#[global] Instance financial_eq_dec : EqDecision financial.
Proof. solve_decision. Defined.

(** The natural keys, as the filters of [update_one] name them. *)
Definition company_key (c : company) : str := c_code c.
Definition shareholder_key (s : shareholder) : str * str :=
  (s_company_code s, s_name s).
Definition financial_key (f : financial) : str * str :=
  (f_company_code f, f_metric f).

(** What [update_one] reports. *)
Record update_result := UpdateResult {
  matched_count : nat;
  modified_count : nat;
  upserted : bool            (* [upserted_id] is set *)
}.

Section Collection.

Context {D K : Type} `{EqDecision D} `{EqDecision K}.
Variable key : D -> K.

(** [collection.update_one(filter, {'$set': doc}, upsert=True)] where
    [filter] selects on the natural key of [doc] and [doc] carries every
    field: the first document with that key takes the fields of [doc];
    when there is none, [doc] is inserted. *)
Fixpoint update_one (doc : D) (coll : list D) : list D * update_result :=
  match coll with
  | [] => ([doc], UpdateResult 0 0 true)
  | d :: rest =>
      if bool_decide (key d = key doc)
      then (doc :: rest,
            UpdateResult 1 (if bool_decide (d = doc) then 0 else 1) false)
      else
        let '(rest', r) := update_one doc rest in
        (d :: rest', r)
  end.

(** The loop of a [save_*] method: the collection and the two
    counters. *)
Fixpoint save_loop (docs : list D) (coll : list D) (inserted updated : nat)
    : list D * (nat * nat) :=
  match docs with
  | [] => (coll, (inserted, updated))
  | doc :: rest =>
      let '(coll', result) := update_one doc coll in
      if upserted result then save_loop rest coll' (S inserted) updated
      else if negb (Nat.eqb (modified_count result) 0)
      then save_loop rest coll' inserted (S updated)
      else save_loop rest coll' inserted updated
  end.

(** A [save_*] method: nothing is done, and nothing is logged, for an
    empty list; otherwise the counters are logged. *)
Definition save (docs : list D) (coll : list D)
    : list D * option (nat * nat) :=
  match docs with
  | [] => (coll, None)
  | _ =>
      let '(coll', counts) := save_loop docs coll 0%nat 0%nat in
      (coll', Some counts)
  end.

End Collection.

Record db := Db {
  companies : list company;
  shareholders : list shareholder;
  financials : list financial
}.

(** The "inserted, updated" lines of the log. *)
Inductive log_line :=
| LogCompanies (inserted updated : nat)
| LogShareholders (inserted updated : nat)
| LogFinancials (inserted updated : nat).

Definition logged (mk : nat -> nat -> log_line) (c : option (nat * nat))
    : list log_line :=
  match c with
  | Some (i, u) => [mk i u]
  | None => []
  end.

Definition save_companies (cs : list company) (d : db)
    : db * list log_line :=
  let '(coll, c) := save company_key cs (companies d) in
  (Db coll (shareholders d) (financials d), logged LogCompanies c).

Definition save_shareholders (shs : list shareholder) (d : db)
    : db * list log_line :=
  let '(coll, c) := save shareholder_key shs (shareholders d) in
  (Db (companies d) coll (financials d), logged LogShareholders c).

Definition save_financials (fs : list financial) (d : db)
    : db * list log_line :=
  let '(coll, c) := save financial_key fs (financials d) in
  (Db (companies d) (shareholders d) coll, logged LogFinancials c).

(** What one pass of [run] scrapes: the companies in page order, each with
    the shareholders and the financial metrics of its detail page. *)
Definition scraped : Type :=
  list (company * (list shareholder * list financial)).

(** The loop of [run] over the companies. *)
Fixpoint save_details (details : list (list shareholder * list financial))
    (d : db) : db * list log_line :=
  match details with
  | [] => (d, [])
  | (shs, fs) :: rest =>
      let '(d1, l1) := save_shareholders shs d in
      let '(d2, l2) := save_financials fs d1 in
      let '(d3, l3) := save_details rest d2 in
      (d3, l1 ++ l2 ++ l3)
  end.

(** The writes of [run]; it stops at once when no company was found. *)
Definition run_saves (src : scraped) (d : db) : db * list log_line :=
  match src with
  | [] => (d, [])
  | _ =>
      let '(d1, l1) := save_companies (List.map fst src) d in
      let '(d2, l2) := save_details (List.map snd src) d1 in
      (d2, l1 ++ l2)
  end.

(** [count_documents({})] of the three collections. *)
Definition count_documents (d : db) : nat * nat * nat :=
  (length (companies d), length (shareholders d), length (financials d)).

Definition line_inserted (l : log_line) : nat :=
  match l with
  | LogCompanies i _ | LogShareholders i _ | LogFinancials i _ => i
  end.

Definition line_updated (l : log_line) : nat :=
  match l with
  | LogCompanies _ u | LogShareholders _ u | LogFinancials _ u => u
  end.

(** *** Reading the pages *)

(** [el.find_all(name)] and [el.find(name)] on the subtree of [n]. *)
Definition find_all_nodes (name : str) (n : node) : list node :=
  List.map snd (find_all [name] [] n).

Definition find (name : str) (n : node) : option node :=
  head (find_all_nodes name n).

(** [soup.find('table', id=v)] *)
Definition find_table_by_id (v : str) (d : node) : option node :=
  List.find (fun n => bool_decide (attr n (lit "id") = Some v))
            (find_all_nodes (lit "table") d).

(** The test of [class_=v]: BeautifulSoup holds the class attribute as the
    list of its tokens; [v] matches when it is one of them or is what they
    give when joined by single blanks. *)
Definition class_is (v : str) (n : node) : bool :=
  match attr n (lit "class") with
  | Some cls =>
      existsb (fun t => bool_decide (t = v)) (words cls) ||
      bool_decide (join (lit " ") (words cls) = v)
  | None => false
  end.

(** [soup.find('table', class_=v)] *)
Definition find_table_by_class (v : str) (d : node) : option node :=
  List.find (class_is v) (find_all_nodes (lit "table") d).

(** [el.get_text(strip=True)] *)
Definition get_text_strip (n : node) : str :=
  concat (List.filter (fun s => negb (bool_decide (s = [])))
                      (List.map strip (strings n))).

(** [d[k] = v] on a dict kept in insertion order. *)
Fixpoint dict_set (k v : str) (kvs : list (str * str)) : list (str * str) :=
  match kvs with
  | [] => [(k, v)]
  | (k', v') :: rest =>
      if bool_decide (k' = k) then (k, v) :: rest
      else (k', v') :: dict_set k v rest
  end.

Definition BASE_URL : str := lit "https://www.ilboursa.com".

Section Clock.

(** [utcnow n] is the [n]-th reading of [datetime.utcnow()]; the functions
    below take the number of readings made so far and give it back. *)
Variable utcnow : nat -> Z.

(** The body of the loop of [get_company_list] for one row. *)
Definition company_of_row (row : node) (k : nat) : option company :=
  match find (lit "td") row with
  | None => None
  | Some td =>
      match find (lit "a") td with
      | None => None
      | Some a_tag =>
          let href := attr_or_empty a_tag (lit "href") in
          let code :=
            if contains_char 47%N href then last_item (split 47%N href)
            else href in
          let title := get_text_strip a_tag in
          let tds := find_all_nodes (lit "td") row in
          let consensus :=
            match nth_error tds 1 with
            | Some t => get_text_strip t
            | None => []
            end in
          let potential :=
            match nth_error tds 2 with
            | Some t => get_text_strip t
            | None => []
            end in
          Some (Company code title consensus potential
                        (BASE_URL ++ lit "/marches/societe/" ++ code)
                        (utcnow k))
      end
  end.

Fixpoint company_rows (rows : list node) (k : nat) : list company * nat :=
  match rows with
  | [] => ([], k)
  | row :: rest =>
      match company_of_row row k with
      | Some c =>
          let '(cs, k') := company_rows rest (S k) in (c :: cs, k')
      | None => company_rows rest k
      end
  end.

Definition companies_of_page (d : node) (k : nat) : list company * nat :=
  match find_table_by_id (lit "tabQuotes") d with
  | None => ([], k)
  | Some table =>
      match find (lit "tbody") table with
      | None => ([], k)
      | Some tbody => company_rows (find_all_nodes (lit "tr") tbody) k
      end
  end.

(** [get_company_list]: a failed request gives the empty list. *)
Definition get_company_list (w : Notifier.net) (k : nat)
    : list company * Notifier.net * nat :=
  match Notifier.fetch_page w with
  | (Notifier.Failure, w') => ([], w', k)
  | (Notifier.Page d, w') =>
      let '(cs, k') := companies_of_page d k in (cs, w', k')
  end.

(** The body of the loop of [scrape_shareholders] for one row. *)
Definition shareholder_of_row (company_code : str) (row : node) (k : nat)
    : option shareholder :=
  match find_all_nodes (lit "td") row with
  | _ :: t1 :: t2 :: _ =>
      match get_text_strip t1, get_text_strip t2 with
      | (_ :: _) as name, (_ :: _) as percentage =>
          Some (Shareholder company_code name percentage (utcnow k))
      | _, _ => None
      end
  | _ => None
  end.

Fixpoint shareholder_rows (company_code : str) (rows : list node) (k : nat)
    : list shareholder * nat :=
  match rows with
  | [] => ([], k)
  | row :: rest =>
      match shareholder_of_row company_code row k with
      | Some sh =>
          let '(shs, k') := shareholder_rows company_code rest (S k) in
          (sh :: shs, k')
      | None => shareholder_rows company_code rest k
      end
  end.

Definition shareholders_of_page (company_code : str) (d : node) (k : nat)
    : list shareholder * nat :=
  match find_table_by_id (lit "tblactions") d with
  | None => ([], k)
  | Some table =>
      match find (lit "tbody") table with
      | None => ([], k)
      | Some tbody =>
          shareholder_rows company_code (find_all_nodes (lit "tr") tbody) k
      end
  end.

Definition scrape_shareholders (company_code company_url : str)
    (w : Notifier.net) (k : nat) : list shareholder * Notifier.net * nat :=
  match Notifier.fetch_page w with
  | (Notifier.Failure, w') => ([], w', k)
  | (Notifier.Page d, w') =>
      let '(shs, k') := shareholders_of_page company_code d k in
      (shs, w', k')
  end.

(** The loop over [cells[1:]]: the cell of rank [i] goes with [years[i]]
    and cells beyond the years are passed over. *)
Fixpoint fill_values (years : list str) (cells : list node)
    (values : list (str * str)) : list (str * str) :=
  match years, cells with
  | year :: years', cell :: cells' =>
      let value := get_text_strip cell in
      fill_values years' cells'
        (if negb (bool_decide (value = [])) &&
            negb (bool_decide (value = lit "-"))
         then dict_set year value values
         else values)
  | _, _ => values
  end.

Definition financial_of_row (company_code : str) (years : list str)
    (row : node) (k : nat) : option financial :=
  match find_all_nodes (lit "td") row with
  | [] => None
  | c0 :: cells =>
      match fill_values years cells [] with
      | [] => None
      | values =>
          Some (Financial company_code (get_text_strip c0) values (utcnow k))
      end
  end.

Fixpoint financial_rows (company_code : str) (years : list str)
    (rows : list node) (k : nat) : list financial * nat :=
  match rows with
  | [] => ([], k)
  | row :: rest =>
      match financial_of_row company_code years row k with
      | Some f =>
          let '(fs, k') := financial_rows company_code years rest (S k) in
          (f :: fs, k')
      | None => financial_rows company_code years rest k
      end
  end.

Definition financials_of_page (company_code : str) (d : node) (k : nat)
    : list financial * nat :=
  match find_table_by_class (lit "tablenosort tbl100_6 tabSociete") d with
  | None => ([], k)
  | Some table =>
      let years :=
        match find (lit "thead") table with
        | Some thead =>
            List.map get_text_strip (tail (find_all_nodes (lit "th") thead))
        | None => []
        end in
      match find (lit "tbody") table, years with
      | Some tbody, _ :: _ =>
          financial_rows company_code years
                         (find_all_nodes (lit "tr") tbody) k
      | _, _ => ([], k)
      end
  end.

Definition scrape_financials (company_code company_url : str)
    (w : Notifier.net) (k : nat) : list financial * Notifier.net * nat :=
  match Notifier.fetch_page w with
  | (Notifier.Failure, w') => ([], w', k)
  | (Notifier.Page d, w') =>
      let '(fs, k') := financials_of_page company_code d k in
      (fs, w', k')
  end.

(** *** run *)

(** The loop of [run] over the companies, requests and writes in the
    order of the source. *)
Fixpoint run_companies (cs : list company) (d : db) (w : Notifier.net)
    (k : nat) : db * list log_line * Notifier.net * nat :=
  match cs with
  | [] => (d, [], w, k)
  | company :: rest =>
      let '(shs, w1, k1) :=
        scrape_shareholders (c_code company) (c_url company) w k in
      let '(d1, l1) := save_shareholders shs d in
      let '(fs, w2, k2) :=
        scrape_financials (c_code company) (c_url company) w1 k1 in
      let '(d2, l2) := save_financials fs d1 in
      let '(d3, l3, w3, k3) := run_companies rest d2 w2 k2 in
      (d3, l1 ++ l2 ++ l3, w3, k3)
  end.

(** [run]: [connected] is what [connect_mongodb] returns; the first
    component is the value returned. *)
Definition run (connected : bool) (d : db) (w : Notifier.net) (k : nat)
    : bool * db * list log_line * Notifier.net * nat :=
  if connected then
    let '(cs, w1, k1) := get_company_list w k in
    match cs with
    | [] => (false, d, [], w1, k1)
    | _ =>
        let '(d1, l1) := save_companies cs d in
        let '(d2, l2, w2, k2) := run_companies cs d1 w1 k1 in
        (true, d2, l1 ++ l2, w2, k2)
    end
  else (false, d, [], w, k).

End Clock.

End Scraper.

Import Notifier.

(** * Properties *)

(** ** Message splitting *)

Section Splitting.

Variable limit : Z.

Lemma len_app (a b : str) : len (a ++ b) = len a + len b.
Proof. unfold len. rewrite length_app. lia. Qed.

Lemma splitlines_from_cons (cur : str) (c : char) (s' : str) :
  splitlines_from cur (c :: s') =
  if is_linebreak c then
    match s' with
    | d :: s'' =>
        if (c =? CR)%N && (d =? NL)%N
        then (cur ++ [c; d]) :: splitlines_from [] s''
        else (cur ++ [c]) :: splitlines_from [] s'
    | [] => (cur ++ [c]) :: splitlines_from [] s'
    end
  else splitlines_from (cur ++ [c]) s'.
Proof. reflexivity. Qed.

(** [splitlines(True)] cuts the text and loses nothing. *)
Lemma concat_splitlines_bounded (n : nat) :
  forall (s cur : str), (length s <= n)%nat ->
    concat (splitlines_from cur s) = cur ++ s.
Proof.
  induction n as [|n IH]; intros s cur Hn.
  - destruct s; [|simpl in Hn; lia].
    simpl. destruct cur; simpl; by rewrite ?app_nil_r.
  - destruct s as [|c s'].
    { simpl. destruct cur; simpl; by rewrite ?app_nil_r. }
    rewrite splitlines_from_cons. simpl in Hn.
    destruct (is_linebreak c).
    + destruct s' as [|d s''].
      * simpl. by rewrite app_nil_r.
      * simpl in Hn.
        destruct ((c =? CR)%N && (d =? NL)%N); rewrite concat_cons;
          rewrite IH by (simpl; lia); by rewrite <- app_assoc.
    + rewrite IH by lia. by rewrite <- app_assoc.
Qed.

Lemma concat_splitlines (s : str) : concat (splitlines_keepends s) = s.
Proof. exact (concat_splitlines_bounded (length s) s [] (Nat.le_refl _)). Qed.

(** Every line of [splitlines(True)] has at least one character. *)
Lemma splitlines_nonempty_bounded (n : nat) :
  forall (s cur : str), (length s <= n)%nat ->
    Forall (fun l => l <> []) (splitlines_from cur s).
Proof.
  induction n as [|n IH]; intros s cur Hn.
  - destruct s; [|simpl in Hn; lia].
    simpl. destruct cur; constructor; done.
  - destruct s as [|c s'].
    { simpl. destruct cur; constructor; done. }
    rewrite splitlines_from_cons. simpl in Hn.
    destruct (is_linebreak c).
    + destruct s' as [|d s''].
      * constructor; [by destruct cur | constructor].
      * simpl in Hn.
        destruct ((c =? CR)%N && (d =? NL)%N); constructor;
          try (by destruct cur); apply IH; simpl; lia.
    + apply IH; lia.
Qed.

Lemma splitlines_nonempty (s : str) :
  Forall (fun l => l <> []) (splitlines_keepends s).
Proof. exact (splitlines_nonempty_bounded (length s) s [] (Nat.le_refl _)). Qed.

(** The loop of [split_long_message], with each part kept as the list of
    the lines it is made of. *)
Fixpoint pack_groups (lines : list str) (groups : list (list str))
    (cur : list str) : list (list str) * list str :=
  match lines with
  | [] => (groups, cur)
  | line :: rest =>
      if len (concat cur) + len line >? limit
      then pack_groups rest (groups ++ [cur]) [line]
      else pack_groups rest groups (cur ++ [line])
  end.

Lemma pack_lines_groups (lines : list str) (groups : list (list str))
    (cur : list str) :
  pack_lines limit lines (List.map (@concat char) groups) (concat cur) =
  (List.map (@concat char) (pack_groups lines groups cur).1,
   concat (pack_groups lines groups cur).2).
Proof.
  revert groups cur.
  induction lines as [|line rest IH]; intros groups cur; simpl; [done|].
  destruct (len (concat cur) + len line >? limit).
  - rewrite <- (IH (groups ++ [cur]) [line]).
    rewrite List.map_app. simpl. by rewrite app_nil_r.
  - rewrite <- (IH groups (cur ++ [line])).
    rewrite concat_app. simpl. by rewrite app_nil_r.
Qed.

Lemma pack_groups_concat (lines : list str) (groups : list (list str))
    (cur : list str) :
  concat ((pack_groups lines groups cur).1 ++ [(pack_groups lines groups cur).2])
  = concat (groups ++ [cur]) ++ lines.
Proof.
  revert groups cur.
  induction lines as [|line rest IH]; intros groups cur; simpl.
  - by rewrite app_nil_r.
  - destruct (len (concat cur) + len line >? limit); rewrite IH.
    + rewrite !concat_app. simpl. rewrite !app_nil_r.
      by rewrite <- !app_assoc.
    + rewrite !concat_app. simpl. rewrite !app_nil_r.
      by rewrite <- !app_assoc.
Qed.

Lemma pack_lines_concat (lines parts : list str) (cur : str) :
  concat (pack_lines limit lines parts cur).1 ++
    (pack_lines limit lines parts cur).2
  = concat parts ++ cur ++ concat lines.
Proof.
  revert parts cur.
  induction lines as [|line rest IH]; intros parts cur; simpl.
  - by rewrite app_nil_r.
  - destruct (len cur + len line >? limit); rewrite IH.
    + rewrite concat_app. simpl. by rewrite app_nil_r, <- app_assoc.
    + by rewrite <- app_assoc.
Qed.

(** A part goes over the limit only when it is one line (or none). *)
Definition fits_or_single (g : list str) : Prop :=
  len (concat g) <= limit \/ (length g <= 1)%nat.

(** A part is closed only when the next line does not fit in it: that
    line opens the next part. *)
Fixpoint closed_when_full (groups : list (list str)) : Prop :=
  match groups with
  | [] => True
  | g :: rest =>
      match rest with
      | [] => True
      | [] :: _ => False
      | (l :: _) :: _ => limit < len (concat g) + len l
      end /\ closed_when_full rest
  end.

Lemma closed_when_full_open (gs : list (list str)) (g : list str) (l : str) :
  closed_when_full (gs ++ [g]) ->
  limit < len (concat g) + len l ->
  closed_when_full (gs ++ [g; [l]]).
Proof.
  induction gs as [|g0 gs IH]; intros Hc Hl.
  - simpl. auto.
  - destruct Hc as [H1 H2]. split; [|by apply IH].
    destruct gs; simpl in *; done.
Qed.

Lemma closed_when_full_grow (gs : list (list str)) (g : list str) (l : str) :
  closed_when_full (gs ++ [g]) ->
  closed_when_full (gs ++ [g ++ [l]]).
Proof.
  induction gs as [|g0 gs IH]; intros Hc.
  - simpl. auto.
  - destruct Hc as [H1 H2]. split; [|by apply IH].
    destruct gs as [|g1 gs]; simpl in *; [|done].
    by destruct g.
Qed.

Definition pack_inv (groups : list (list str)) (cur : list str) : Prop :=
  Forall fits_or_single (groups ++ [cur]) /\
  closed_when_full (groups ++ [cur]) /\
  (cur = [] -> groups = []) /\
  Forall (fun l => l <> []) cur.

Lemma pack_groups_inv (lines : list str) :
  forall (groups : list (list str)) (cur : list str),
    Forall (fun l => l <> []) lines ->
    pack_inv groups cur ->
    pack_inv (pack_groups lines groups cur).1 (pack_groups lines groups cur).2.
Proof.
  induction lines as [|line rest IH]; intros groups cur Hne Hinv; [done|].
  inversion Hne as [|? ? Hline Hrest]; subst.
  destruct Hinv as (Hfit & Hclosed & Hcur & Hcurne).
  simpl. destruct (len (concat cur) + len line >? limit) eqn:Hcmp.
  - apply IH; [done|]. repeat split.
    + rewrite <- app_assoc. simpl.
      apply Forall_app. apply Forall_app in Hfit as [Hf1 Hf2].
      split; [done|]. inversion Hf2; subst.
      constructor; [done|]. constructor; [|constructor].
      right. simpl. lia.
    + rewrite <- app_assoc. simpl.
      apply closed_when_full_open; [done|lia].
    + done.
    + by constructor.
  - apply IH; [done|]. repeat split.
    + apply Forall_app. apply Forall_app in Hfit as [Hf1 Hf2].
      split; [done|]. constructor; [|constructor]. left.
      rewrite concat_app, len_app. simpl. rewrite app_nil_r. lia.
    + by apply closed_when_full_grow.
    + intros Habs. by destruct cur.
    + apply Forall_app. split; [done|]. by constructor.
Qed.

Lemma concat_nonempty (g : list str) :
  Forall (fun l => l <> []) g -> concat g = [] -> g = [].
Proof.
  destruct g as [|l g]; [done|]. intros Hne Hc.
  inversion Hne; subst. simpl in Hc. by destruct l.
Qed.

End Splitting.

(** C10.  Message splitting loses nothing: whatever the text and the
    limit (positive or not), the parts put end to end, in order, are the
    text itself, line terminators included. *)
Theorem split_long_message_concat (text : str) (limit : Z) :
  concat (split_long_message text limit) = text.
Proof.
  unfold split_long_message.
  destruct (len text <=? limit); [simpl; by rewrite app_nil_r|].
  pose proof (pack_lines_concat limit (splitlines_keepends text) [] []) as H.
  destruct (pack_lines limit (splitlines_keepends text) [] []) as [parts cur].
  simpl in H. rewrite concat_splitlines in H.
  destruct cur as [|c cur].
  - by rewrite app_nil_r in H.
  - by rewrite concat_app; simpl; rewrite app_nil_r.
Qed.

(** The reading of C5 under which every part is within the limit. *)
Definition parts_within_limit (text : str) (limit : Z) : Prop :=
  Forall (fun part => len part <= limit) (split_long_message text limit).

(** C5, counterexample.  With a limit of 3, the text "aaaaa\nb" has a
    first line of six characters: it is kept whole, in a part that is over
    the limit. *)
Lemma split_part_over_limit :
  ~ parts_within_limit (lit "aaaaa" ++ [NL] ++ lit "b") 3.
Proof.
  unfold parts_within_limit. vm_compute. intros H.
  inversion H as [|? ? _ H1]; subst.
  inversion H1 as [|? ? H2 _]; subst.
  by apply H2.
Qed.

Lemma split_groups (text : str) (limit : Z) :
  limit < len text ->
  exists groups : list (list str),
    concat groups = splitlines_keepends text /\
    split_long_message text limit = List.map (@concat char) groups /\
    Forall (fits_or_single limit) groups /\
    closed_when_full limit groups.
Proof.
  intros Hlong. unfold split_long_message.
  destruct (len text <=? limit) eqn:Hle; [lia|].
  pose proof (splitlines_nonempty text) as Hlines.
  set (lines := splitlines_keepends text) in *.
  pose proof (pack_lines_groups limit lines [] []) as Hpg.
  pose proof (pack_groups_concat limit lines [] []) as Hcat.
  pose proof (pack_groups_inv limit lines [] [] Hlines) as Hinv.
  destruct (pack_groups limit lines [] []) as [gs g].
  simpl in Hpg, Hcat, Hinv.
  destruct (pack_lines limit lines [] []) as [parts cur] eqn:E.
  pose proof (eq_trans (eq_sym E) Hpg) as E'.
  injection E' as -> ->.
  destruct Hinv as (Hfit & Hclosed & Hnil & Hne).
  { repeat split; simpl; auto. constructor; [|constructor].
    right. simpl. lia. }
  destruct (concat g) as [|c cs] eqn:Hg.
  - apply concat_nonempty in Hg; [|done]. subst g.
    rewrite (Hnil eq_refl) in *. exists []. by repeat split.
  - exists (gs ++ [g]). rewrite List.map_app. simpl. rewrite Hg.
    by repeat split.
Qed.

Lemma gtb_false (a b : Z) : a <= b -> (a >? b) = false.
Proof. intros H. rewrite Z.gtb_ltb. by apply Z.ltb_ge. Qed.

Lemma gtb_true (a b : Z) : b < a -> (a >? b) = true.
Proof. intros H. rewrite Z.gtb_ltb. by apply Z.ltb_lt. Qed.

Lemma split_five_lines (text : str) (limit : Z) (l1 l2 l3 l4 l5 : str) :
  splitlines_keepends text = [l1; l2; l3; l4; l5] ->
  len (l1 ++ l2 ++ l3) <= limit ->
  limit < len (l1 ++ l2 ++ l3) + len l4 ->
  exists (tail : str) (rest : list str),
    split_long_message text limit = (l1 ++ l2 ++ l3) :: (l4 ++ tail) :: rest.
Proof.
  intros Hlines Hfit Hover.
  pose proof (concat_splitlines text) as Htext. rewrite Hlines in Htext.
  simpl in Htext. rewrite app_nil_r in Htext.
  assert (Hlen : len text = len l1 + len l2 + len l3 + len l4 + len l5)
    by (rewrite <- Htext, !len_app; lia).
  rewrite !len_app in Hfit, Hover.
  assert (0 <= len l1 /\ 0 <= len l2 /\ 0 <= len l3 /\ 0 <= len l5)
    by (unfold len; lia).
  unfold split_long_message. rewrite Hlines.
  destruct (len text <=? limit) eqn:Hle; [lia|].
  simpl.
  rewrite (gtb_false (len [] + len l1)) by (unfold len at 1; simpl; lia).
  rewrite (gtb_false (len l1 + len l2)) by lia.
  rewrite len_app.
  rewrite (gtb_false (len l1 + len l2 + len l3)) by lia.
  rewrite !len_app.
  rewrite (gtb_true (len l1 + len l2 + len l3 + len l4)) by lia.
  rewrite <- !app_assoc.
  destruct (len l4 + len l5 >? limit).
  - exists [], (match l5 with [] => [] | _ => [l5] end).
    rewrite app_nil_r. by destruct l5.
  - exists l5, []. destruct (l4 ++ l5) eqn:H45; [|done].
    apply app_eq_nil in H45 as [-> _]. unfold len in *. simpl in *. lia.
Qed.

(** C5, as amended.  A text within the limit comes back as one part. A
    longer one is cut at line boundaries only: the parts are runs of whole
    consecutive lines; a part is closed only when the next line would take
    it over the limit; and a part is over the limit only when it is a
    single line, which is never cut.  With five lines of which the first
    three fit and the fourth does not fit after them, part one is lines 1
    to 3 and part two starts with line 4. *)
Theorem split_long_message_lines (text : str) (limit : Z) :
  (len text <= limit -> split_long_message text limit = [text]) /\
  (limit < len text ->
   exists groups : list (list str),
     concat groups = splitlines_keepends text /\
     split_long_message text limit = List.map (@concat char) groups /\
     Forall (fits_or_single limit) groups /\
     closed_when_full limit groups) /\
  (forall l1 l2 l3 l4 l5 : str,
     splitlines_keepends text = [l1; l2; l3; l4; l5] ->
     len (l1 ++ l2 ++ l3) <= limit ->
     limit < len (l1 ++ l2 ++ l3) + len l4 ->
     exists (tail : str) (rest : list str),
       split_long_message text limit
       = (l1 ++ l2 ++ l3) :: (l4 ++ tail) :: rest).
Proof.
  split; [|split].
  - intros Hle. unfold split_long_message.
    destruct (len text <=? limit) eqn:E; [done|lia].
  - apply split_groups.
  - apply split_five_lines.
Qed.

Definition five_lines : str :=
  lit "aa" ++ [NL] ++ lit "bb" ++ [NL] ++ lit "cc" ++ [NL] ++
  lit "dd" ++ [NL] ++ lit "e".

Lemma split_long_message_lines_witness :
  split_long_message (lit "court") 10 = [lit "court"] /\
  (exists groups : list (list str),
     concat groups = splitlines_keepends five_lines /\
     split_long_message five_lines 10 = List.map (@concat char) groups /\
     Forall (fits_or_single 10) groups /\
     closed_when_full 10 groups) /\
  (exists (tail : str) (rest : list str),
     split_long_message five_lines 10
     = (lit "aa" ++ [NL] ++ lit "bb" ++ [NL] ++ lit "cc" ++ [NL])
       :: ((lit "dd" ++ [NL]) ++ tail) :: rest).
Proof.
  split; [|split].
  - apply (proj1 (split_long_message_lines (lit "court") 10)).
    vm_compute. discriminate.
  - apply (proj1 (proj2 (split_long_message_lines five_lines 10))).
    vm_compute. reflexivity.
  - apply (proj2 (proj2 (split_long_message_lines five_lines 10))
             (lit "aa" ++ [NL]) (lit "bb" ++ [NL]) (lit "cc" ++ [NL])
             (lit "dd" ++ [NL]) (lit "e")).
    + reflexivity.
    + vm_compute. discriminate.
    + vm_compute. reflexivity.
Defined.

(** ** The order of floats *)

Section FloatOrder.

(** A key whose lexicographic order is the order of [SFcompare] on the
    values that are not NaN. *)
Definition rank (x : float) : Z * Z * Z :=
  match x with
  | S754_nan => (0, 0, 0)
  | S754_zero _ => (0, 0, 0)
  | S754_infinity true => (-2, 0, 0)
  | S754_infinity false => (2, 0, 0)
  | S754_finite false m e => (1, e, Zpos m)
  | S754_finite true m e => (-1, - e, Zneg m)
  end.

Definition lex_lt (a b : Z * Z * Z) : Prop :=
  a.1.1 < b.1.1 \/
  (a.1.1 = b.1.1 /\ (a.1.2 < b.1.2 \/ (a.1.2 = b.1.2 /\ a.2 < b.2))).

Lemma compare_cont_Eq (m1 m2 : positive) :
  Pos.compare_cont Eq m1 m2 = (Zpos m1 ?= Zpos m2).
Proof. reflexivity. Qed.

Lemma lt_rank (x y : float) :
  is_nan x = false -> is_nan y = false ->
  lt x y = true <-> lex_lt (rank x) (rank y).
Proof.
  unfold lt, SFltb, lex_lt.
  destruct x as [sx|sx| |sx mx ex], y as [sy|sy| |sy my ey];
    try discriminate; intros _ _; simpl;
    repeat match goal with s : bool |- _ => destruct s end; simpl;
    try (split; [discriminate | lia]);
    try (split; [lia | done]).
  - rewrite compare_cont_Eq.
    destruct (Z.compare_spec ex ey), (Z.compare_spec (Zpos mx) (Zpos my));
      simpl; split; (discriminate || lia || done).
  - rewrite compare_cont_Eq.
    destruct (Z.compare_spec ex ey), (Z.compare_spec (Zpos mx) (Zpos my));
      simpl; split; (discriminate || lia || done).
Qed.

Lemma lt_false_rank (x y : float) :
  is_nan x = false -> is_nan y = false ->
  lt x y = false <-> ~ lex_lt (rank x) (rank y).
Proof.
  intros Hx Hy. rewrite <- (lt_rank x y Hx Hy).
  destruct (lt x y); split; done.
Qed.

Lemma lt_asym (x y : float) : lt x y = true -> lt y x = false.
Proof.
  destruct (is_nan x) eqn:Hx; [by destruct x, y|].
  destruct (is_nan y) eqn:Hy; [by destruct x, y|].
  rewrite lt_rank, lt_false_rank by done.
  unfold lex_lt. destruct (rank x) as [[? ?] ?], (rank y) as [[? ?] ?].
  simpl. lia.
Qed.

(** Without NaN, "not smaller" is transitive. *)
Lemma ge_trans (x y z : float) :
  is_nan x = false -> is_nan y = false -> is_nan z = false ->
  lt x y = false -> lt y z = false -> lt x z = false.
Proof.
  intros Hx Hy Hz. rewrite !lt_false_rank by done.
  unfold lex_lt.
  destruct (rank x) as [[? ?] ?], (rank y) as [[? ?] ?], (rank z) as [[? ?] ?].
  simpl. lia.
Qed.

(** [x == y] on floats. *)
Definition feq (x y : float) : bool := SFeqb x y.

Lemma feq_rank (x y : float) :
  is_nan x = false -> is_nan y = false ->
  feq x y = true <-> rank x = rank y.
Proof.
  unfold feq, SFeqb.
  destruct x as [sx|sx| |sx mx ex], y as [sy|sy| |sy my ey];
    try discriminate; intros _ _; simpl;
    repeat match goal with s : bool |- _ => destruct s end; simpl;
    try (split; [discriminate | intros [=]; lia]);
    try (split; done).
  - rewrite compare_cont_Eq.
    destruct (Z.compare_spec ex ey), (Z.compare_spec (Zpos mx) (Zpos my));
      simpl; split; try discriminate; try done; intros [=]; try lia;
      subst; try lia; congruence.
  - rewrite compare_cont_Eq.
    destruct (Z.compare_spec ex ey), (Z.compare_spec (Zpos mx) (Zpos my));
      simpl; split; try discriminate; try done; intros [=]; try lia;
      subst; try lia; congruence.
Qed.

(** Two equal values are on the same side of any third one. *)
Lemma feq_lt_false (x y v : float) :
  is_nan x = false -> is_nan y = false ->
  feq x v = true -> lt x y = true -> feq y v = false.
Proof.
  intros Hx Hy Hxv Hlt.
  destruct (is_nan v) eqn:Hv; [by destruct x, v|].
  destruct (feq y v) eqn:Hyv; [|done].
  apply feq_rank in Hxv, Hyv; try done.
  apply lt_rank in Hlt; try done.
  rewrite Hxv, <- Hyv in Hlt. unfold lex_lt in Hlt.
  destruct (rank y) as [[? ?] ?]. simpl in Hlt. lia.
Qed.

End FloatOrder.

(** ** Listings *)

Section Listing.

Definition no_nan (items : list item) : Prop :=
  Forall (fun it => is_nan (potential it) = false) items.

(** [a] may stand in front of [b] in a descending listing. *)
Definition not_below (a b : item) : Prop :=
  lt (potential a) (potential b) = false.

Lemma insert_desc_perm (x : item) (l : list item) :
  Permutation (insert_desc x l) (x :: l).
Proof.
  induction l as [|y l IH]; simpl; [done|].
  destruct (lt (potential x) (potential y)); [|done].
  rewrite IH. apply perm_swap.
Qed.

Lemma sorted_desc_perm (items : list item) :
  Permutation (sorted_desc items) items.
Proof.
  induction items as [|x l IH]; simpl; [done|].
  rewrite insert_desc_perm. by constructor.
Qed.

Lemma no_nan_perm (l l' : list item) :
  Permutation l l' -> no_nan l -> no_nan l'.
Proof. intros Hp. unfold no_nan. by rewrite Hp. Qed.

Lemma insert_desc_sorted (x : item) (l : list item) :
  is_nan (potential x) = false -> no_nan l ->
  StronglySorted not_below l ->
  StronglySorted not_below (insert_desc x l).
Proof.
  intros Hx Hl Hs. induction Hs as [|y l Hs IH Hy]; simpl.
  - repeat constructor.
  - inversion Hl as [|? ? Hny Hl']; subst.
    destruct (lt (potential x) (potential y)) eqn:Hxy.
    + constructor; [by apply IH|].
      rewrite (insert_desc_perm x l). constructor; [|done].
      by apply lt_asym.
    + constructor; [by constructor|].
      constructor; [done|].
      rewrite Forall_forall in Hy. rewrite Forall_forall in Hl'.
      apply Forall_forall. intros z Hz.
      unfold not_below.
      apply (ge_trans _ (potential y));
        [done | done | by apply Hl' | done | by apply Hy].
Qed.

Lemma sorted_desc_sorted (items : list item) :
  no_nan items -> StronglySorted not_below (sorted_desc items).
Proof.
  induction items as [|x l IH]; intros Hn; simpl; [constructor|].
  inversion Hn; subst.
  apply insert_desc_sorted; [done| |by apply IH].
  apply (no_nan_perm l); [|done]. symmetry. apply sorted_desc_perm.
Qed.

(** The items whose potential equals [v], in the order of the list. *)
Definition ties (v : float) (l : list item) : list item :=
  List.filter (fun it => feq (potential it) v) l.

Lemma ties_insert_desc (v : float) (x : item) (l : list item) :
  is_nan (potential x) = false -> no_nan l ->
  ties v (insert_desc x l) = ties v (x :: l).
Proof.
  intros Hx Hl. induction l as [|y l IH]; [done|].
  inversion Hl as [|? ? Hy Hl']; subst. simpl.
  destruct (lt (potential x) (potential y)) eqn:Hxy; [|done].
  simpl. rewrite IH by done. simpl.
  destruct (feq (potential x) v) eqn:Hxv; [|done].
  by rewrite (feq_lt_false (potential x) (potential y) v).
Qed.

Lemma ties_sorted_desc (v : float) (items : list item) :
  no_nan items -> ties v (sorted_desc items) = ties v items.
Proof.
  induction items as [|x l IH]; intros Hn; [done|].
  inversion Hn; subst. simpl sorted_desc.
  rewrite ties_insert_desc; [|done|].
  - simpl. by rewrite IH.
  - apply (no_nan_perm l); [|done]. symmetry. apply sorted_desc_perm.
Qed.

End Listing.

(** ** The two-decimal rendering *)

Section Rendering.

Definition all_digits (s : str) : Prop :=
  Forall (fun c => is_digit c = true) s.

Lemma uint_digits_all_digits (u : Decimal.uint) : all_digits (uint_digits u).
Proof. induction u; simpl; constructor; done. Qed.

Lemma str_of_N_all_digits (n : N) : all_digits (str_of_N n).
Proof. apply uint_digits_all_digits. Qed.

Lemma str_of_N_nonempty (n : N) : str_of_N n <> [].
Proof.
  unfold str_of_N.
  assert (Hn : N.to_uint n <> Decimal.Nil).
  { destruct n; simpl; [discriminate|apply Unsigned.to_uint_nonnil]. }
  by destruct (N.to_uint n).
Qed.

Lemma str_of_N_one_digit (n : Z) :
  0 <= n < 10 ->
  exists d : char, str_of_N (Z.to_N n) = [d] /\ is_digit d = true.
Proof.
  intros Hn. rewrite <- (Z2Nat.id n) by lia.
  assert (Hk : (Z.to_nat n < 10)%nat) by lia.
  revert Hk. generalize (Z.to_nat n). clear. intros k.
  do 10 (destruct k as [|k]; [intros _; eexists; split; reflexivity|]).
  intros Hk. lia.
Qed.

Lemma two_digits_shape (n : Z) :
  0 <= n < 100 ->
  exists d1 d2 : char,
    two_digits n = [d1; d2] /\ is_digit d1 = true /\ is_digit d2 = true.
Proof.
  intros Hn. unfold two_digits.
  destruct (str_of_N_one_digit (n / 10)) as (d1 & -> & H1).
  { split; [apply Z.div_pos; lia | apply Z.div_lt_upper_bound; lia]. }
  destruct (str_of_N_one_digit (n mod 10)) as (d2 & -> & H2).
  { apply Z.mod_pos_bound. lia. }
  by exists d1, d2.
Qed.

Lemma fixed2_shape (h : Z) :
  exists (ds : str) (d1 d2 : char),
    fixed2 h = ds ++ lit "." ++ [d1; d2] /\
    ds <> [] /\ all_digits ds /\ is_digit d1 = true /\ is_digit d2 = true.
Proof.
  unfold fixed2.
  destruct (two_digits_shape (h mod 100)) as (d1 & d2 & -> & H1 & H2).
  { apply Z.mod_pos_bound. lia. }
  exists (str_of_N (Z.to_N (h / 100))), d1, d2.
  repeat split; auto using str_of_N_nonempty, str_of_N_all_digits.
Qed.

(** What stands in front of the digits: "+" on a potential above zero,
    "-" when the sign bit is set, nothing on [0.0]. *)
Definition sign_prefix (x : float) : str :=
  if gt x zero then lit "+"
  else if sign_bit x then lit "-"
  else [].

Lemma format_item_finite (it : item) :
  is_finite (potential it) = true ->
  exists (ds : str) (d1 d2 : char),
    ds <> [] /\ all_digits ds /\ is_digit d1 = true /\ is_digit d2 = true /\
    format_item it =
      name it ++ lit " (" ++ code it ++ lit ") " ++ [EM_DASH] ++ lit " " ++
      sign_prefix (potential it) ++ ds ++ lit "." ++ [d1; d2] ++ lit "%".
Proof.
  unfold format_item, sign_prefix.
  destruct (potential it) as [s|s| |s m e]; try discriminate; intros _.
  - exists (lit "0"), 48%N, 48%N. repeat split; try done.
    + repeat constructor.
    + by destruct s.
  - destruct (fixed2_shape (hundredths m e)) as (ds & d1 & d2 & Hf & ? & ? & ? & ?).
    exists ds, d1, d2. repeat split; try done.
    unfold format_2f. rewrite Hf.
    destruct s; simpl; by rewrite <- ?app_assoc.
Qed.

End Rendering.

(** The reading of C4 on a zero potential: the line ends in "0.00%" with
    no sign in front. *)
Definition zero_rendered_unsigned (it : item) : Prop :=
  is_zero (potential it) = true ->
  format_item it =
    name it ++ lit " (" ++ code it ++ lit ") " ++ [EM_DASH] ++ lit " 0.00%".

(** A page can yield the potential [-0.0]. *)
Example infer_potential_negative_zero :
  infer_potential (lit "-0%") = S754_zero true.
Proof. reflexivity. Qed.

(** C4, counterexample.  The potential [-0.0], which [float("-0")] gives,
    is a zero and is rendered with a sign: "-0.00%". *)
Lemma format_negative_zero_signed :
  ~ zero_rendered_unsigned
      (Item (lit "BT") (lit "Banque") BUY (infer_potential (lit "-0%"))).
Proof.
  unfold zero_rendered_unsigned. intros H.
  specialize (H eq_refl). vm_compute in H. discriminate H.
Qed.

(** C4, as amended.  For a bucket without NaN potentials the listing is
    one line per signal, the signals in descending order of potential,
    those of equal potential in their original order.  A line is
    "{name} ({code}) — {potential}%"; a finite potential is written with
    digits, a point and exactly two digits, with "+" in front when it is
    above zero, "-" when negative (or [-0.0]) and nothing on [0.0].  The
    potentials 5.0, -2.0, 10.0 come out as "+10.00%", "+5.00%",
    "-2.00%", in that order. *)
Theorem format_items_sorted_listing (items : list item) :
  no_nan items ->
  format_items_sorted items
    = join [NL] (List.map format_item (sorted_desc items)) /\
  Permutation (sorted_desc items) items /\
  StronglySorted not_below (sorted_desc items) /\
  (forall v : float, ties v (sorted_desc items) = ties v items) /\
  (forall it : item,
     is_finite (potential it) = true ->
     exists (ds : str) (d1 d2 : char),
       ds <> [] /\ all_digits ds /\
       is_digit d1 = true /\ is_digit d2 = true /\
       format_item it =
         name it ++ lit " (" ++ code it ++ lit ") " ++ [EM_DASH] ++
         lit " " ++ sign_prefix (potential it) ++
         ds ++ lit "." ++ [d1; d2] ++ lit "%") /\
  (forall (c1 n1 c2 n2 c3 n3 : str) (a1 a2 a3 : action),
     format_lines [ Item c1 n1 a1 (Prim2SF 5.0);
                    Item c2 n2 a2 (Prim2SF (-2.0));
                    Item c3 n3 a3 (Prim2SF 10.0) ]
     = [ n3 ++ lit " (" ++ c3 ++ lit ") " ++ [EM_DASH] ++ lit " +10.00%";
         n1 ++ lit " (" ++ c1 ++ lit ") " ++ [EM_DASH] ++ lit " +5.00%";
         n2 ++ lit " (" ++ c2 ++ lit ") " ++ [EM_DASH] ++ lit " -2.00%" ]).
Proof.
  intros Hn.
  refine (conj _ (conj _ (conj _ (conj _ (conj _ _))))).
  - reflexivity.
  - apply sorted_desc_perm.
  - by apply sorted_desc_sorted.
  - intros v. by apply ties_sorted_desc.
  - apply format_item_finite.
  - intros. vm_compute. reflexivity.
Qed.

Definition sample_bucket : list item :=
  [ Item (lit "A") (lit "Alpha") BUY (Prim2SF 5.0);
    Item (lit "B") (lit "Beta") BUY (Prim2SF (-2.0));
    Item (lit "C") (lit "Gamma") BUY (Prim2SF 10.0);
    Item (lit "D") (lit "Delta") BUY (Prim2SF 5.0) ].

Lemma format_items_sorted_listing_witness :
  no_nan sample_bucket /\
  List.map code (sorted_desc sample_bucket)
    = [lit "C"; lit "A"; lit "D"; lit "B"] /\
  ties (Prim2SF 5.0) (sorted_desc sample_bucket)
    = ties (Prim2SF 5.0) sample_bucket.
Proof.
  assert (Hn : no_nan sample_bucket) by (repeat constructor).
  pose proof (format_items_sorted_listing sample_bucket Hn)
    as (_ & _ & _ & Hties & _).
  split; [exact Hn|]. split; [reflexivity|]. apply Hties.
Defined.

(** ** The regular-expression matcher *)

Section Matcher.

Import Re.

(** The texts a pattern matches. *)
Inductive matches : re -> str -> Prop :=
| M_cls (p : char -> bool) (c : char) :
    p c = true -> matches (Cls p) [c]
| M_star (p : char -> bool) (u : str) :
    Forall (fun c => p c = true) u -> matches (Star p) u
| M_plus (p : char -> bool) (u : str) :
    u <> [] -> Forall (fun c => p c = true) u -> matches (Plus p) u
| M_opt_skip (r : re) : matches (Opt r) []
| M_opt_take (r : re) (u : str) : matches r u -> matches (Opt r) u
| M_cat (r1 r2 : re) (u v : str) :
    matches r1 u -> matches r2 v -> matches (Cat r1 r2) (u ++ v).

Lemma star_sound (p : char -> bool) (s u v : str) :
  In (u, v) (star p s) -> s = u ++ v /\ Forall (fun c => p c = true) u.
Proof.
  revert u v. induction s as [|c s IH]; intros u v Hin; simpl in Hin.
  - destruct Hin as [[= <- <-]|[]]. by split.
  - destruct (p c) eqn:Hc.
    + apply in_app_iff in Hin as [Hin|[[= <- <-]|[]]]; [|by split].
      apply in_map_iff in Hin as ([u' v'] & [= <- <-] & Hin').
      apply IH in Hin' as [-> Hall]. simpl. split; [done|by constructor].
    + destruct Hin as [[= <- <-]|[]]. by split.
Qed.

Lemma star_complete (p : char -> bool) (u v : str) :
  Forall (fun c => p c = true) u -> In (u, v) (star p (u ++ v)).
Proof.
  induction 1 as [|c u Hc Hu IH]; simpl.
  - destruct v as [|d v]; simpl; [by left|].
    destruct (p d); [apply in_app_iff; right|]; by left.
  - rewrite Hc. apply in_app_iff. left.
    apply in_map_iff. by exists (u, v).
Qed.

Lemma run_sound (r : re) :
  forall s u v : str, In (u, v) (run r s) -> s = u ++ v /\ matches r u.
Proof.
  induction r as [p|p|p|r IH|r1 IH1 r2 IH2]; intros s u v Hin; simpl in Hin.
  - destruct s as [|c s]; [done|]. destruct (p c) eqn:Hc; [|done].
    destruct Hin as [[= <- <-]|[]]. split; [done|by constructor].
  - apply star_sound in Hin as [-> Hall]. split; [done|by constructor].
  - destruct s as [|c s]; [done|]. simpl in Hin.
    destruct (p c) eqn:Hc; [|done].
    apply in_map_iff in Hin as ([u' v'] & [= <- <-] & Hin').
    apply star_sound in Hin' as [-> Hall]. simpl.
    split; [done|]. constructor; [done|by constructor].
  - apply in_app_iff in Hin as [Hin|[[= <- <-]|[]]].
    + apply IH in Hin as [-> Hm]. split; [done|by constructor].
    + split; [done|constructor].
  - apply in_flat_map in Hin as ([u1 s1] & Hin1 & Hin2).
    apply in_map_iff in Hin2 as ([u2 s2] & [= <- <-] & Hin2).
    apply IH1 in Hin1 as [-> Hm1]. apply IH2 in Hin2 as [Hs Hm2].
    simpl in *. subst s1. split; [by rewrite <- app_assoc|by constructor].
Qed.

Lemma run_complete (r : re) (u : str) :
  matches r u -> forall v : str, In (u, v) (run r (u ++ v)).
Proof.
  induction 1 as [p c Hc|p u Hu|p u Hne Hu|r|r u Hm IH|r1 r2 u1 u2 H1 IH1 H2 IH2];
    intros v; simpl.
  - rewrite Hc. by left.
  - by apply star_complete.
  - destruct Hu as [|c u Hc Hu]; [done|]. simpl. rewrite Hc.
    apply in_map_iff. exists (u, v). split; [done|by apply star_complete].
  - apply in_app_iff. right. by left.
  - apply in_app_iff. left. apply IH.
  - apply in_flat_map. exists (u1, u2 ++ v). split.
    + rewrite <- app_assoc. apply IH1.
    + apply in_map_iff. exists (u2, v). split; [done|apply IH2].
Qed.

Lemma head_in {A : Type} (l : list A) (x : A) : head l = Some x -> In x l.
Proof. destruct l; [done|]. intros [= ->]. by left. Qed.

Lemma in_head {A : Type} (l : list A) (x : A) :
  In x l -> exists y : A, head l = Some y.
Proof. destruct l as [|y l]; [done|]. by exists y. Qed.

Lemma match_here_sound (group tail : re) (s g : str) :
  match_here group tail s = Some g ->
  exists t rest : str,
    s = g ++ t ++ rest /\ matches group g /\ matches tail t.
Proof.
  unfold match_here. intros H. apply head_in in H.
  apply in_flat_map in H as ([g' s1] & Hin1 & Hin2). simpl in Hin2.
  destruct (run tail s1) as [|[t rest] l] eqn:Htail; [done|].
  destruct Hin2 as [->|[]].
  apply run_sound in Hin1 as [-> Hg].
  assert (Hin : In (t, rest) (run tail s1)) by (rewrite Htail; by left).
  apply run_sound in Hin as [-> Ht].
  by exists t, rest.
Qed.

Lemma match_here_complete (group tail : re) (g t rest : str) :
  matches group g -> matches tail t ->
  exists g' : str, match_here group tail (g ++ t ++ rest) = Some g'.
Proof.
  intros Hg Ht. unfold match_here. apply (in_head _ g).
  apply in_flat_map. exists (g, t ++ rest). split.
  - by apply run_complete.
  - simpl. pose proof (run_complete tail t Ht rest) as Hin.
    destruct (run tail (t ++ rest)); [done|by left].
Qed.

(** [search] answers with the match at the leftmost start that has
    one. *)
Lemma search_some (group tail : re) (s g : str) :
  search group tail s = Some g ->
  exists pre rest : str,
    s = pre ++ rest /\ match_here group tail rest = Some g /\
    forall pre' rest' : str,
      s = pre' ++ rest' -> (length pre' < length pre)%nat ->
      match_here group tail rest' = None.
Proof.
  induction s as [|c s IH]; simpl.
  - destruct (match_here group tail []) eqn:E; [|done].
    intros [= ->]. exists [], []. repeat split; [done|].
    intros pre' rest' _ Hlt. simpl in Hlt. lia.
  - destruct (match_here group tail (c :: s)) eqn:E.
    + intros [= ->]. exists [], (c :: s). repeat split; [done|].
      intros pre' rest' _ Hlt. simpl in Hlt. lia.
    + intros H. apply IH in H as (pre & rest & -> & Hm & Hleft).
      exists (c :: pre), rest. repeat split; [done|].
      intros pre' rest' Heq Hlt. destruct pre' as [|c' pre'].
      * simpl in Heq. by subst rest'.
      * simpl in Heq. injection Heq as <- Heq.
        apply (Hleft pre'); [done|simpl in Hlt; lia].
Qed.

Lemma search_none (group tail : re) (s : str) :
  search group tail s = None ->
  forall pre rest : str, s = pre ++ rest -> match_here group tail rest = None.
Proof.
  induction s as [|c s IH]; simpl.
  - destruct (match_here group tail []) eqn:E; [done|].
    intros _ pre rest Heq. symmetry in Heq.
    apply app_eq_nil in Heq as [-> ->]. done.
  - destruct (match_here group tail (c :: s)) eqn:E; [done|].
    intros H pre rest Heq. destruct pre as [|c' pre].
    + simpl in Heq. by subst rest.
    + simpl in Heq. injection Heq as <- Heq. by apply (IH H pre).
Qed.

End Matcher.

(** ** Percent tokens *)

Section PercentToken.

Import Re.

Definition all_space (s : str) : Prop := Forall (fun c => isspace c = true) s.

(** A run of decimal digits, of whatever script. *)
Definition all_decimal (s : str) : Prop :=
  Forall (fun c => is_decimal c = true) s.

(** An optional sign, digits, and optionally "." or "," and digits. *)
Definition is_number (g : str) : Prop :=
  exists sg ip fr : str,
    g = sg ++ ip ++ fr /\
    (sg = [] \/ exists c : char, sg = [c] /\ is_sign c = true) /\
    ip <> [] /\ all_decimal ip /\
    (fr = [] \/
     exists (c : char) (fp : str),
       fr = c :: fp /\ is_sep c = true /\ fp <> [] /\ all_decimal fp).

(** The window [w] reads [pre], the number [g], blanks, "%", [post]. *)
Definition percent_token (pre g post w : str) : Prop :=
  exists sp : str,
    w = pre ++ g ++ (sp ++ [37%N]) ++ post /\ is_number g /\ all_space sp.

Definition has_percent_token (w : str) : Prop :=
  exists pre g post : str, percent_token pre g post w.

Lemma matches_group (g : str) : matches POTENTIAL_GROUP g <-> is_number g.
Proof.
  unfold POTENTIAL_GROUP, is_number. split.
  - intros H.
    inversion H as [| | | | |? ? sg rest Hsg Hrest]; subst; clear H.
    inversion Hrest as [| | | | |? ? ip fr Hip Hfr]; subst; clear Hrest.
    exists sg, ip, fr. split; [done|].
    inversion Hip as [| |? ? Hne Hall| | |]; subst; clear Hip.
    repeat split; try done.
    + inversion Hsg as [| | |?|? ? Hc|]; subst; [by left|].
      inversion Hc; subst. right. by eexists.
    + inversion Hfr as [| | |?|? ? Hc|]; subst; [by left|].
      inversion Hc as [| | | | |? ? u v Hu Hv]; subst.
      inversion Hu; subst. inversion Hv; subst.
      right. by eexists _, _.
  - intros (sg & ip & fr & -> & Hsg & Hne & Hip & Hfr).
    constructor; [|constructor].
    + destruct Hsg as [->|(c & -> & Hc)]; [constructor|].
      by do 2 constructor.
    + by constructor.
    + destruct Hfr as [->|(c & fp & -> & Hc & Hfp & Hd)]; [constructor|].
      constructor. change (c :: fp) with ([c] ++ fp).
      constructor; by constructor.
Qed.

Lemma matches_tail (t : str) :
  matches POTENTIAL_TAIL t <-> exists sp : str, t = sp ++ [37%N] /\ all_space sp.
Proof.
  unfold POTENTIAL_TAIL. split.
  - intros H. inversion H as [| | | | |? ? sp pc Hsp Hpc]; subst; clear H.
    inversion Hsp; subst. inversion Hpc as [? c Hc| | | | |]; subst.
    apply N.eqb_eq in Hc as ->. by exists sp.
  - intros (sp & -> & Hsp). constructor; by constructor.
Qed.

Definition search_potential_spec (area g : str) : Prop :=
  exists pre post : str,
    percent_token pre g post area /\
    forall pre' g' post' : str,
      percent_token pre' g' post' area -> (length pre <= length pre')%nat.

(** The search finds a percent token, and no token starts before it. *)
Lemma POTENTIAL_RE_search_some (area g : str) :
  POTENTIAL_RE_search area = Some g -> search_potential_spec area g.
Proof.
  intros H. apply search_some in H as (pre & rest & -> & Hm & Hleft).
  apply match_here_sound in Hm as (t & post & -> & Hg & Ht).
  apply matches_group in Hg. apply matches_tail in Ht as (sp & -> & Hsp).
  exists pre, post. split; [by exists sp|].
  intros pre' g' post' (sp' & Heq & Hg' & Hsp').
  destruct (Nat.le_gt_cases (length pre) (length pre')) as [|Hlt]; [done|].
  specialize (Hleft pre' _ Heq Hlt).
  destruct (match_here_complete POTENTIAL_GROUP POTENTIAL_TAIL g'
              (sp' ++ [37%N]) post') as [g'' Hg''].
  - by apply matches_group.
  - apply matches_tail. by exists sp'.
  - congruence.
Qed.

(** A window with a percent token has a match. *)
Lemma POTENTIAL_RE_search_complete (area : str) :
  has_percent_token area -> exists g : str, POTENTIAL_RE_search area = Some g.
Proof.
  intros (pre & g & post & sp & -> & Hg & Hsp).
  destruct (POTENTIAL_RE_search (pre ++ g ++ (sp ++ [37%N]) ++ post))
    as [g'|] eqn:E; [by exists g'|].
  pose proof (search_none _ _ _ E pre _ eq_refl) as Hnone.
  destruct (match_here_complete POTENTIAL_GROUP POTENTIAL_TAIL g
              (sp ++ [37%N]) post) as [g'' Hg''].
  - by apply matches_group.
  - apply matches_tail. by exists sp.
  - congruence.
Qed.

End PercentToken.

(** ** Reading the number *)

Section ReadNumber.

Lemma is_decimal_ge (c : char) : is_decimal c = true -> (48 <= c)%N.
Proof.
  unfold is_decimal, Ucd.in_ranges. intros H.
  apply existsb_exists in H as (r & Hr & Hc).
  assert (Hlow : forallb (fun r => (48 <=? fst r)%N) Ucd.DECIMAL = true)
    by (vm_compute; reflexivity).
  rewrite forallb_forall in Hlow. specialize (Hlow r Hr).
  apply andb_true_iff in Hc as [Hc _].
  apply N.leb_le in Hlow. apply N.leb_le in Hc.
  exact (N.le_trans _ _ _ Hlow Hc).
Qed.

Lemma is_sign_cases (c : char) : is_sign c = true -> c = 43%N \/ c = 45%N.
Proof.
  unfold is_sign, char_in. simpl. rewrite !orb_true_iff.
  intros [H|[H|H]]; [left|right|done]; by apply N.eqb_eq.
Qed.

Lemma is_sep_cases (c : char) : is_sep c = true -> c = 46%N \/ c = 44%N.
Proof.
  unfold is_sep, char_in. simpl. rewrite !orb_true_iff.
  intros [H|[H|H]]; [left|right|done]; by apply N.eqb_eq.
Qed.

Lemma replace_char_app (a b : char) (x y : str) :
  replace_char a b (x ++ y) = replace_char a b x ++ replace_char a b y.
Proof. apply List.map_app. Qed.

Lemma replace_char_cons (a b c : char) (x : str) :
  replace_char a b (c :: x)
  = (if (c =? a)%N then b else c) :: replace_char a b x.
Proof. reflexivity. Qed.

Lemma replace_comma_digits (ds : str) :
  all_decimal ds -> replace_char 44%N 46%N ds = ds.
Proof.
  induction 1 as [|c ds Hc Hds IH]; [done|].
  rewrite replace_char_cons, IH.
  apply is_decimal_ge in Hc.
  destruct (N.eqb_spec c 44); [lia|done].
Qed.

Lemma span_digits_app (ds rest : str) :
  all_decimal ds ->
  match rest with [] => True | c :: _ => is_decimal c = false end ->
  span_digits (ds ++ rest) = (ds, rest).
Proof.
  intros Hds Hrest. induction Hds as [|c ds Hc Hds IH]; cbn -[is_decimal].
  - destruct rest as [|c rest]; [done|]. cbn -[is_decimal]. by rewrite Hrest.
  - by rewrite Hc, IH.
Qed.

(** The sign that a number starts with. *)
Definition number_negative (g : str) : bool :=
  match g with
  | c :: _ => (c =? 45)%N
  | [] => false
  end.

(** What [float] reads once the sign is off. *)
Definition float_of_body (neg : bool) (body : str) : option float :=
  let '(ip, rest) := span_digits body in
  match rest with
  | [] =>
      match ip with
      | [] => None
      | _ :: _ => Some (of_decimal neg (digits_value ip) 0)
      end
  | c :: r =>
      if (c =? 46)%N then
        let '(fp, rest') := span_digits r in
        match rest', ip ++ fp with
        | [], _ :: _ =>
            Some (of_decimal neg (digits_value (ip ++ fp)) (length fp))
        | _, _ => None
        end
      else None
  end.

Lemma float_of_str_body (s : str) :
  float_of_str s = float_of_body (split_sign s).1 (split_sign s).2.
Proof. unfold float_of_str, float_of_body. by destruct (split_sign s). Qed.

(** [float] never fails on what the pattern captures. *)
Lemma float_of_number (g : str) :
  is_number g ->
  exists v : float, float_of_str (replace_char 44%N 46%N g) = Some v.
Proof.
  intros (sg & ip & fr & -> & Hsg & Hne & Hip & Hfr).
  rewrite !replace_char_app.
  rewrite (replace_comma_digits ip Hip).
  set (fr' := replace_char 44%N 46%N fr).
  assert (Hfr' : fr' = [] \/
                 exists fp : str,
                   fr' = 46%N :: fp /\ fp <> [] /\ all_decimal fp).
  { subst fr'. destruct Hfr as [->|(c & fp & -> & Hc & Hfp & Hd)]; [by left|].
    right. exists fp. rewrite replace_char_cons.
    rewrite (replace_comma_digits fp Hd).
    by apply is_sep_cases in Hc as [->| ->]. }
  clearbody fr'. clear Hfr.
  assert (Hspan : span_digits (ip ++ fr') = (ip, fr')).
  { apply span_digits_app; [done|].
    destruct Hfr' as [->|(fp & -> & _)]; done. }
  assert (Hbody : forall neg : bool,
             exists v : float, float_of_body neg (ip ++ fr') = Some v).
  { intros neg. unfold float_of_body. rewrite Hspan.
    destruct ip as [|d ip]; [done|].
    destruct Hfr' as [->|(fp & -> & Hfp & Hd)]; [by eexists|].
    rewrite N.eqb_refl. pose proof (span_digits_app fp [] Hd I) as Hfpspan.
    rewrite app_nil_r in Hfpspan. rewrite Hfpspan.
    by eexists. }
  rewrite float_of_str_body.
  destruct Hsg as [->|(c & -> & Hc)].
  - destruct ip as [|d ip]; [done|].
    inversion Hip as [|? ? Hd _]; subst.
    apply is_decimal_ge in Hd.
    simpl app. unfold split_sign.
    destruct (N.eqb_spec d 45); [lia|].
    destruct (N.eqb_spec d 43); [lia|].
    apply Hbody.
  - apply is_sign_cases in Hc as [->| ->]; rewrite replace_char_cons;
      simpl; apply Hbody.
Qed.

(** What the pattern captures is, once "," is replaced, made of the
    characters that [float_of_str] is given on. *)
Lemma number_chars (g : str) :
  is_number g ->
  Forall (fun c => number_char c = true) (replace_char 44%N 46%N g).
Proof.
  intros (sg & ip & fr & -> & Hsg & _ & Hip & Hfr).
  assert (Hd : forall ds : str,
             all_decimal ds ->
             Forall (fun c => number_char c = true)
                    (replace_char 44%N 46%N ds)).
  { intros ds Hds. rewrite (replace_comma_digits ds Hds).
    eapply Forall_impl; [exact Hds|]. intros c Hc. unfold number_char.
    rewrite Hc. by rewrite !orb_true_r. }
  rewrite !replace_char_app, !Forall_app. refine (conj _ (conj (Hd ip Hip) _)).
  - destruct Hsg as [->|(c & -> & Hc)]; [constructor|].
    apply is_sign_cases in Hc as [->| ->]; by repeat constructor.
  - destruct Hfr as [->|(c & fp & -> & Hc & _ & Hfp)]; [constructor|].
    rewrite replace_char_cons. constructor; [|by apply Hd].
    by apply is_sep_cases in Hc as [->| ->].
Qed.

End ReadNumber.

(** ** A parsed number is never a NaN *)

Section NotNan.

Lemma shr_1_nonneg (mrs : shr_record) :
  0 <= shr_m mrs -> 0 <= shr_m (shr_1 mrs).
Proof.
  destruct mrs as [m r s]. simpl.
  destruct m as [|[p|p|]|p]; simpl; lia.
Qed.

Lemma iter_shr_1_nonneg (p : positive) :
  forall mrs : shr_record,
    0 <= shr_m mrs -> 0 <= shr_m (SpecFloat.iter_pos shr_1 p mrs).
Proof.
  induction p as [p IH|p IH|]; intros mrs H; simpl.
  - apply IH, IH. by apply shr_1_nonneg.
  - by apply IH, IH.
  - by apply shr_1_nonneg.
Qed.

Lemma shr_fexp_nonneg (m e : Z) (l : location) :
  0 <= m -> 0 <= shr_m (shr_fexp prec emax m e l).1.
Proof.
  intros Hm. unfold shr_fexp, shr.
  assert (H0 : 0 <= shr_m (shr_record_of_loc m l))
    by (destruct l as [|[]]; simpl; lia).
  destruct (fexp prec emax (Zdigits2 m + e) - e); simpl; try done.
  by apply iter_shr_1_nonneg.
Qed.

Lemma round_nearest_even_nonneg (m : Z) (l : location) :
  0 <= m -> 0 <= round_nearest_even m l.
Proof.
  intros Hm. destruct l as [|[]]; simpl; try lia.
  destruct (Z.even m); lia.
Qed.

Lemma binary_round_aux_not_nan (s : bool) (m e : Z) (l : location) :
  0 <= m -> is_nan (binary_round_aux prec emax s m e l) = false.
Proof.
  intros Hm. unfold binary_round_aux.
  pose proof (shr_fexp_nonneg m e l Hm) as H1.
  destruct (shr_fexp prec emax m e l) as [mrs' e'].
  simpl in H1.
  pose proof (shr_fexp_nonneg
                (round_nearest_even (shr_m mrs') (loc_of_shr_record mrs'))
                e' loc_Exact
                (round_nearest_even_nonneg _ _ H1)) as H2.
  destruct (shr_fexp prec emax _ e' loc_Exact) as [mrs'' e''].
  simpl in H2.
  destruct (shr_m mrs'') as [|p|p]; [done| |lia].
  by destruct (e'' <=? emax - prec).
Qed.

Lemma of_decimal_not_nan (neg : bool) (m : N) (k : nat) :
  is_nan (of_decimal neg m k) = false.
Proof.
  unfold of_decimal. destruct m as [|p]; [done|].
  unfold SFdiv, SFdiv_core_binary.
  set (e' := Z.min _ _). set (m' := match 0 - 0 - e' with
                                     | Zpos _ => _ | _ => _ end).
  assert (Hm' : 0 <= m').
  { subst m'. destruct (0 - 0 - e'); try lia.
    apply Z.shiftl_nonneg. lia. }
  pose proof (Z_div_mod m' (Zpos (pow10 k)) ltac:(lia)) as Hdiv.
  destruct (Z.div_eucl m' (Zpos (pow10 k))) as [q r].
  apply binary_round_aux_not_nan. nia.
Qed.

Lemma float_of_str_not_nan (s : str) (v : float) :
  float_of_str s = Some v -> is_nan v = false.
Proof.
  unfold float_of_str.
  destruct (split_sign s) as [neg body].
  destruct (span_digits body) as [ip rest].
  destruct rest as [|c r].
  - destruct ip as [|d ip]; [done|].
    intros [= <-]. apply of_decimal_not_nan.
  - destruct (c =? 46)%N; [|done].
    destruct (span_digits r) as [fp rest'].
    destruct rest'; [|done]. destruct (ip ++ fp) as [|d' ds] eqn:E; [done|].
    intros [= <-]. apply of_decimal_not_nan.
Qed.

Lemma infer_potential_not_nan (area : str) :
  is_nan (infer_potential area) = false.
Proof.
  unfold infer_potential, float_or_zero.
  destruct (POTENTIAL_RE_search area) as [g|]; [|done].
  destruct (float_of_str _) as [v|] eqn:E; [|done].
  by apply float_of_str_not_nan in E.
Qed.

End NotNan.

(** ** The synthesis extractor *)

Section Extraction.

Variable d : node.

(** The pair that [seen] records for a link. *)
Definition key_of (a : path * node) : str * str :=
  (code_of a.2, name_of a.2).

Definition item_key (it : item) : str * str := (code it, name it).

(** The file name that the loop over the images looks up. *)
Definition icon_name (img : path * node) : str :=
  last_item (split 47%N (attr_or_empty img.2 (lit "src"))).

(** What a link that is not skipped as already seen contributes. *)
Definition emit (a : path * node) : option item :=
  match infer_action (nearby_imgs d a.1) with
  | Some ac =>
      Some (Item (code_of a.2) (name_of a.2) ac
                 (infer_potential (text_search_area d a.1)))
  | None => None
  end.

(** The links that are not skipped, given the keys seen so far. *)
Fixpoint first_wins (seen : gset (str * str)) (l : list (path * node))
    : list (path * node) :=
  match l with
  | [] => []
  | a :: l' =>
      if bool_decide (key_of a ∈ seen) then first_wins seen l'
      else a :: first_wins (seen ∪ {[ key_of a ]}) l'
  end.

(** The first link of each key, in the order of the list. *)
Fixpoint first_occurrences (l : list (path * node)) : list (path * node) :=
  match l with
  | [] => []
  | a :: l' =>
      a :: filter (fun b => key_of b <> key_of a) (first_occurrences l')
  end.

Lemma parse_link_fold (l : list (path * node)) :
  forall (seen : gset (str * str)) (res : list item),
    (fold_left (parse_link d) l (seen, res)).2
    = res ++ omap emit (first_wins seen l).
Proof.
  induction l as [|a l IH]; intros seen res; simpl.
  - by rewrite app_nil_r.
  - unfold key_of at 1. destruct (bool_decide _) eqn:Hseen.
    + apply IH.
    + simpl. unfold emit at 1.
      destruct (infer_action (nearby_imgs d a.1)) as [ac|];
        (etrans; [apply IH|]).
      * by rewrite <- app_assoc.
      * done.
Qed.

Lemma first_wins_filter (l : list (path * node)) :
  forall seen : gset (str * str),
    first_wins seen l
    = filter (fun b => key_of b ∉ seen) (first_occurrences l).
Proof.
  induction l as [|a l IH]; intros seen; [done|]. simpl.
  rewrite filter_cons. destruct (bool_decide_reflect (key_of a ∈ seen)) as [Hin|Hin].
  - rewrite decide_False by (intros H; by apply H).
    rewrite IH, list_filter_filter.
    apply list_filter_iff. intros b. split; [|by intros [? ?]].
    intros Hb. split; [done|]. intros Heq. by rewrite Heq in Hb.
  - rewrite decide_True by done. f_equal.
    rewrite IH, list_filter_filter.
    apply list_filter_iff. intros b.
    by rewrite not_elem_of_union, not_elem_of_singleton.
Qed.

Lemma first_occurrences_sublist (l : list (path * node)) :
  first_occurrences l `sublist_of` l.
Proof.
  induction l as [|a l IH]; simpl; [done|].
  apply sublist_skip. etrans; [apply sublist_filter|done].
Qed.

Lemma first_occurrences_keys (l : list (path * node)) :
  NoDup (key_of <$> first_occurrences l).
Proof.
  induction l as [|a l IH]; simpl; [constructor|].
  apply NoDup_cons. split.
  - intros Hin. apply list_elem_of_fmap in Hin as (b & Hk & Hb).
    apply list_elem_of_filter in Hb as [Hne _]. by apply Hne.
  - eapply sublist_NoDup; [exact IH|].
    apply fmap_sublist, sublist_filter.
Qed.

(** A link is kept when no link before it has its key. *)
Lemma first_occurrences_spec (l : list (path * node)) (a : path * node) :
  a ∈ first_occurrences l <->
  exists l1 l2 : list (path * node),
    l = l1 ++ a :: l2 /\ key_of a ∉ key_of <$> l1.
Proof.
  induction l as [|c l IH]; cbn [first_occurrences].
  - split; [by intros H; inversion H|].
    intros (l1 & l2 & Heq & _). by destruct l1.
  - rewrite elem_of_cons, list_elem_of_filter, IH. split.
    + intros [->|(Hne & l1 & l2 & -> & Hnin)].
      * exists [], l. split; [done|]. apply not_elem_of_nil.
      * exists (c :: l1), l2. split; [done|].
        rewrite fmap_cons. apply not_elem_of_cons. by split.
    + intros (l1 & l2 & Heq & Hnin). destruct l1 as [|c' l1].
      * left. by injection Heq as ->.
      * injection Heq as <- ->. rewrite fmap_cons in Hnin.
        apply not_elem_of_cons in Hnin as [Hne Hnin].
        right. split; [done|]. by exists l1, l2.
Qed.

(** [parse_synthese] keeps the first link of each (code, name) pair, in
    document order, and emits those that have an action. *)
Lemma parse_synthese_first_occurrences :
  parse_synthese d = omap emit (first_occurrences (links d)).
Proof.
  unfold parse_synthese. rewrite parse_link_fold, first_wins_filter. simpl.
  f_equal. generalize (first_occurrences (links d)). intros l.
  induction l as [|b l IH]; [done|].
  rewrite filter_cons, decide_True by apply not_elem_of_empty.
  by rewrite IH.
Qed.

Lemma emit_key (a : path * node) (it : item) :
  emit a = Some it -> item_key it = key_of a.
Proof.
  unfold emit. destruct (infer_action _); [|done]. by intros [= <-].
Qed.

Lemma omap_emit_keys (l : list (path * node)) :
  item_key <$> omap emit l `sublist_of` key_of <$> l.
Proof.
  induction l as [|a l IH]; simpl; [done|].
  destruct (emit a) as [it|] eqn:E; simpl.
  - rewrite (emit_key a it E). by apply sublist_skip.
  - by apply sublist_cons.
Qed.

Lemma length_omap_emit (l : list (path * node)) :
  (length (omap emit l) <= length l)%nat.
Proof.
  induction l as [|a l IH]; csimpl; [done|].
  destruct (emit a); csimpl; lia.
Qed.

Lemma length_omap_emit_lt (l : list (path * node)) (a : path * node) :
  a ∈ l -> emit a = None -> (length (omap emit l) < length l)%nat.
Proof.
  induction l as [|c l IH]; [by intros H; inversion H|].
  intros Hin Ha. csimpl. apply elem_of_cons in Hin as [<-|Hin].
  - rewrite Ha. pose proof (length_omap_emit l). lia.
  - specialize (IH Hin Ha). destruct (emit c); csimpl; lia.
Qed.

End Extraction.

Section Icons.

Variable d : node.

(** No image near the link has a file name of [ACTION_MAP]. *)
Definition no_icon (a : path * node) : Prop :=
  forall img : path * node,
    img ∈ nearby_imgs d a.1 ->
    lookup_action (icon_name img) ACTION_MAP = None.

Lemma infer_action_cons (img : path * node) (rest : list (path * node)) :
  infer_action (img :: rest) =
  match attr_or_empty img.2 (lit "src") with
  | [] => infer_action rest
  | _ :: _ =>
      match lookup_action (icon_name img) ACTION_MAP with
      | Some a => Some a
      | None => infer_action rest
      end
  end.
Proof. reflexivity. Qed.

Lemma icon_name_no_src (img : path * node) :
  attr_or_empty img.2 (lit "src") = [] ->
  lookup_action (icon_name img) ACTION_MAP = None.
Proof. unfold icon_name. by intros ->. Qed.

Lemma infer_action_some (imgs : list (path * node)) (ac : action) :
  infer_action imgs = Some ac ->
  exists img : path * node,
    img ∈ imgs /\ lookup_action (icon_name img) ACTION_MAP = Some ac.
Proof.
  induction imgs as [|img imgs IH]; [done|]. rewrite infer_action_cons.
  destruct (attr_or_empty img.2 (lit "src")) as [|c src] eqn:Hsrc.
  - intros H. destruct (IH H) as (img' & Hin & Hl).
    exists img'. split; [by right|done].
  - destruct (lookup_action (icon_name img) ACTION_MAP) as [ac'|] eqn:Hl.
    + intros [= ->]. exists img. split; [by left|done].
    + intros H. destruct (IH H) as (img' & Hin & Hl').
      exists img'. split; [by right|done].
Qed.

Lemma infer_action_none (imgs : list (path * node)) :
  infer_action imgs = None <->
  forall img : path * node,
    img ∈ imgs -> lookup_action (icon_name img) ACTION_MAP = None.
Proof.
  induction imgs as [|img imgs IH].
  - split; [|done]. intros _ img H. inversion H.
  - rewrite infer_action_cons.
    assert (Hrest : (forall img' : path * node,
                       img' ∈ img :: imgs ->
                       lookup_action (icon_name img') ACTION_MAP = None) <->
                    lookup_action (icon_name img) ACTION_MAP = None /\
                    infer_action imgs = None).
    { rewrite IH. split.
      - intros H. split; [apply H; by left|].
        intros img' Hin. apply H. by right.
      - intros [H1 H2] img' Hin.
        apply elem_of_cons in Hin as [->|Hin]; [done|by apply H2]. }
    rewrite Hrest.
    destruct (attr_or_empty img.2 (lit "src")) as [|c src] eqn:Hsrc.
    + pose proof (icon_name_no_src img Hsrc) as Hno.
      split; [by intros H|by intros [_ H]].
    + destruct (lookup_action (icon_name img) ACTION_MAP).
      * split; [done|by intros [H _]].
      * split; [by intros H|by intros [_ H]].
Qed.

Lemma emit_none (a : path * node) : emit d a = None <-> no_icon a.
Proof.
  unfold emit, no_icon. rewrite <- infer_action_none.
  by destruct (infer_action _).
Qed.

Lemma upper_char_nonempty (c : char) : upper_char c <> [].
Proof.
  unfold upper_char.
  assert (H : Forall (fun kv => kv.2 <> []) Ucd.UPPER).
  { apply Forall_forall. intros kv Hkv.
    assert (Hb : forallb (fun kv => negb (bool_decide (kv.2 = []))) Ucd.UPPER
                 = true) by (vm_compute; reflexivity).
    rewrite forallb_forall in Hb. apply list_elem_of_In in Hkv.
    specialize (Hb kv Hkv). apply negb_true_iff, bool_decide_eq_false in Hb.
    exact Hb. }
  induction H as [|[k v] t Hv _ IH]; cbn [Ucd.table_get]; [done|].
  by destruct (k =? c)%N.
Qed.

Lemma upper_nil (s : str) : upper s = [] <-> s = [].
Proof.
  unfold upper. destruct s as [|c s]; [done|]. cbn [flat_map].
  split; [|done]. intros H. apply app_eq_nil in H as [H _].
  by apply upper_char_nonempty in H.
Qed.

(** The icon table holds the four actions only. *)
Lemma action_enumerated (filename : str) (a : action) :
  lookup_action filename ACTION_MAP = Some a ->
  a ∈ [BUY; SELL; KEEP; TAKE_PROFIT].
Proof.
  unfold ACTION_MAP. cbn [lookup_action].
  repeat (destruct (bool_decide _); [intros [= <-]; repeat constructor|]).
  done.
Qed.

Lemma parse_synthese_origin (it : item) :
  it ∈ parse_synthese d ->
  exists a : path * node,
    a ∈ first_occurrences (links d) /\ emit d a = Some it.
Proof.
  rewrite parse_synthese_first_occurrences.
  intros H. by apply list_elem_of_omap in H.
Qed.

(** Every signal of an extraction has one of the four actions. *)
Lemma parse_synthese_actions :
  Forall (fun it => act it ∈ [BUY; SELL; KEEP; TAKE_PROFIT])
         (parse_synthese d).
Proof.
  apply Forall_forall. intros it Hit.
  apply parse_synthese_origin in Hit as (a & _ & He).
  unfold emit in He.
  destruct (infer_action (nearby_imgs d a.1)) as [ac|] eqn:Hac; [|done].
  injection He as <-. cbn [act].
  apply infer_action_some in Hac as (img & _ & Hl).
  by apply (action_enumerated (icon_name img)).
Qed.

End Icons.

(** The page [<a href="conseil/">Societe</a><img src="f_1b.png">]. *)
Definition empty_code_page : node :=
  Tag (lit "[document]") []
    [ Tag (lit "a") [(lit "href", lit "conseil/")] [Text (lit "Societe")];
      Tag (lit "img") [(lit "src", lit "f_1b.png")] [] ].

(** The reading of C1 on the code of a signal. *)
Definition codes_nonempty (d : node) : Prop :=
  Forall (fun it => code it <> []) (parse_synthese d).

(** C1, counterexample.  A link whose target ends in "/" has an empty last
    segment; with an icon next to it, it is emitted with the code "". *)
Lemma parse_synthese_empty_code : ~ codes_nonempty empty_code_page.
Proof.
  unfold codes_nonempty. vm_compute. intros H.
  inversion H as [|? ? Hc _]. by apply Hc.
Qed.

(** C1, as amended.  The signals are those of the first link of each
    (code, name) pair, in document order, that have an action; no two of
    them share (code, name).  Each has the name of its link and as code
    the last segment of the link target, trimmed and upper-cased, which is
    empty when that segment is blank; its action is one of BUY, SELL,
    KEEP, TAKE PROFIT, the one the icon table gives for an image near the
    link. *)
Theorem parse_synthese_signals (d : node) :
  parse_synthese d = omap (emit d) (first_occurrences (links d)) /\
  (forall a : path * node,
     a ∈ first_occurrences (links d) <->
     exists l1 l2 : list (path * node),
       links d = l1 ++ a :: l2 /\ key_of a ∉ key_of <$> l1) /\
  first_occurrences (links d) `sublist_of` links d /\
  NoDup (item_key <$> parse_synthese d) /\
  (forall it : item,
     it ∈ parse_synthese d ->
     act it ∈ [BUY; SELL; KEEP; TAKE_PROFIT] /\
     exists a : path * node,
       a ∈ links d /\ code it = code_of a.2 /\ name it = name_of a.2 /\
       exists img : path * node,
         img ∈ nearby_imgs d a.1 /\
         lookup_action (icon_name img) ACTION_MAP = Some (act it)) /\
  (forall a : node,
     code_of a = [] <->
     strip (last_item (split 47%N (attr_or_empty a (lit "href")))) = []).
Proof.
  refine (conj _ (conj _ (conj _ (conj _ (conj _ _))))).
  - apply parse_synthese_first_occurrences.
  - apply first_occurrences_spec.
  - apply first_occurrences_sublist.
  - rewrite parse_synthese_first_occurrences.
    eapply sublist_NoDup; [apply first_occurrences_keys|].
    apply omap_emit_keys.
  - intros it Hit. split.
    { pose proof (parse_synthese_actions d) as Hact.
      rewrite Forall_forall in Hact. by apply Hact. }
    apply parse_synthese_origin in Hit as (a & Ha & He).
    exists a. split.
    { eapply elem_of_sublist; [done|apply first_occurrences_sublist]. }
    unfold emit in He.
    destruct (infer_action (nearby_imgs d a.1)) as [ac|] eqn:Hac; [|done].
    injection He as <-. simpl. repeat split.
    by apply infer_action_some.
  - intros a. apply upper_nil.
Qed.

(** The page [<a href="conseil/BT">Banque</a>], with no image. *)
Definition no_icon_page : node :=
  Tag (lit "[document]") []
    [ Tag (lit "a") [(lit "href", lit "conseil/BT")] [Text (lit "Banque")] ].

(** The images of the context of a link: those of its row, or of its
    parent when it is in no row. *)
Definition context_imgs (d : node) (p : path) : list (path * node) :=
  match at_path d (context d p) with
  | Some par => find_all [lit "img"] (context d p) par
  | None => []
  end.

(** No image of the context has a file name of [ACTION_MAP]. *)
Definition no_context_icon (d : node) (a : path * node) : Prop :=
  forall img : path * node,
    img ∈ context_imgs d a.1 ->
    lookup_action (icon_name img) ACTION_MAP = None.

(** When the context has an image, the images searched are those of the
    context. *)
Lemma nearby_imgs_context (d : node) (p : path) :
  context_imgs d p <> [] -> nearby_imgs d p = context_imgs d p.
Proof.
  unfold nearby_imgs, context_imgs.
  destruct (at_path d (context d p)) as [par|]; [|done].
  by destruct (find_all [lit "img"] (context d p) par).
Qed.

(** The reading of C2: a first link whose context holds no icon of the
    table is not emitted. *)
Definition context_icon_required (d : node) : Prop :=
  forall a : path * node,
    a ∈ first_occurrences (links d) -> no_context_icon d a ->
    key_of a ∉ item_key <$> parse_synthese d.

(** The page [<p><a href="conseil/a">A</a></p><img src="f_1b.png">]: the
    context of the link is the paragraph, which has no image. *)
Definition outside_icon_page : node :=
  Tag (lit "[document]") []
    [ Tag (lit "p") []
        [ Tag (lit "a") [(lit "href", lit "conseil/a")] [Text (lit "A")] ];
      Tag (lit "img") [(lit "src", lit "f_1b.png")] [] ].

(** C2, counterexample.  The context of the link has no image at all;
    the search goes on to the images that follow in the document, finds
    the BUY icon there, and the signal is emitted. *)
Lemma icon_outside_context_emitted : ~ context_icon_required outside_icon_page.
Proof.
  unfold context_icon_required. intros H.
  apply (H ([0; 0]%nat,
            Tag (lit "a") [(lit "href", lit "conseil/a")] [Text (lit "A")])).
  - vm_compute. constructor.
  - intros img Himg. vm_compute in Himg. inversion Himg.
  - vm_compute. constructor.
Qed.

(** C2, as amended.  The images searched for the icon of a link are
    those of its context (its row, else its parent) when the context has
    an image, else the [img] siblings that follow the link, else the next
    six [img] of the document.  A first link of its (code, name) pair for
    which no image searched has a file name of the icon table is not
    emitted; so is one whose context has an image but no icon of the
    table.  The output is never longer than the list of candidate links,
    and strictly shorter as soon as one such link exists.  Every signal
    emitted comes from a link whose action was found. *)
Theorem parse_synthese_requires_icon (d : node) :
  (length (parse_synthese d) <= length (links d))%nat /\
  (forall a : path * node,
     a ∈ first_occurrences (links d) -> no_icon d a ->
     (key_of a ∉ item_key <$> parse_synthese d) /\
     (length (parse_synthese d) < length (links d))%nat) /\
  (forall a : path * node,
     a ∈ first_occurrences (links d) ->
     context_imgs d a.1 <> [] -> no_context_icon d a ->
     (key_of a ∉ item_key <$> parse_synthese d) /\
     (length (parse_synthese d) < length (links d))%nat) /\
  (forall it : item,
     it ∈ parse_synthese d ->
     exists a : path * node,
       a ∈ first_occurrences (links d) /\ item_key it = key_of a /\
       infer_action (nearby_imgs d a.1) = Some (act it) /\ ~ no_icon d a).
Proof.
  pose proof (sublist_length _ _ (first_occurrences_sublist (links d))) as Hsub.
  assert (Hskip : forall a : path * node,
             a ∈ first_occurrences (links d) -> no_icon d a ->
             (key_of a ∉ item_key <$> parse_synthese d) /\
             (length (parse_synthese d) < length (links d))%nat).
  { intros a Ha Hno. apply emit_none in Hno. split.
    + intros Hin. apply list_elem_of_fmap in Hin as (it & Hk & Hit).
      apply parse_synthese_origin in Hit as (b & Hb & He).
      pose proof (emit_key d b it He) as Hkb.
      assert (a = b) as ->; [|congruence].
      pose proof (first_occurrences_keys (links d)) as Hnd.
      apply (NoDup_fmap_1 key_of) in Hnd as Hnd'.
      apply list_elem_of_lookup in Ha as [i Hi].
      apply list_elem_of_lookup in Hb as [j Hj].
      assert (i = j) as ->; [|congruence].
      apply (NoDup_lookup _ i j (key_of a) Hnd).
      * by rewrite list_lookup_fmap, Hi.
      * rewrite list_lookup_fmap, Hj. simpl. congruence.
    + rewrite parse_synthese_first_occurrences.
      pose proof (length_omap_emit_lt d _ a Ha Hno). lia. }
  refine (conj _ (conj Hskip (conj _ _))).
  - rewrite parse_synthese_first_occurrences.
    pose proof (length_omap_emit d (first_occurrences (links d))). lia.
  - intros a Ha Hctx Hno. apply (Hskip a Ha).
    unfold no_icon. by rewrite (nearby_imgs_context d a.1 Hctx).
  - intros it Hit.
    apply parse_synthese_origin in Hit as (a & Ha & He).
    exists a. split; [done|]. split; [by apply emit_key in He|].
    assert (Hsome : emit d a <> None) by congruence.
    rewrite emit_none in Hsome. split; [|done].
    unfold emit in He. destruct (infer_action _) as [ac|]; [|done].
    by injection He as <-.
Qed.

(** A row whose only image is not an icon of the table. *)
Definition logo_row_page : node :=
  Tag (lit "[document]") []
    [ Tag (lit "table") []
        [ Tag (lit "tr") []
            [ Tag (lit "td") []
                [ Tag (lit "a") [(lit "href", lit "conseil/BT")]
                      [Text (lit "Banque")] ];
              Tag (lit "td") []
                [ Tag (lit "img") [(lit "src", lit "logo.png")] [] ] ] ];
      Tag (lit "img") [(lit "src", lit "f_1b.png")] [] ].

Lemma parse_synthese_requires_icon_witness :
  (length (parse_synthese no_icon_page) < length (links no_icon_page))%nat /\
  (length (parse_synthese logo_row_page) < length (links logo_row_page))%nat /\
  exists a : path * node,
    a ∈ first_occurrences (links empty_code_page) /\
    infer_action (nearby_imgs empty_code_page a.1) = Some BUY.
Proof.
  split; [|split].
  - refine (proj2 (proj1 (proj2 (parse_synthese_requires_icon no_icon_page))
                     ([0%nat], Tag (lit "a") [(lit "href", lit "conseil/BT")]
                                    [Text (lit "Banque")]) _ _)).
    + vm_compute. constructor.
    + intros img Himg. vm_compute in Himg. inversion Himg.
  - refine (proj2 (proj1 (proj2 (proj2
                     (parse_synthese_requires_icon logo_row_page)))
                     ([0; 0; 0; 0]%nat,
                      Tag (lit "a") [(lit "href", lit "conseil/BT")]
                          [Text (lit "Banque")]) _ _ _)).
    + vm_compute. constructor.
    + vm_compute. discriminate.
    + intros img Himg. vm_compute in Himg.
      apply list_elem_of_singleton in Himg as ->. vm_compute. reflexivity.
  - destruct (proj2 (proj2 (proj2
                (parse_synthese_requires_icon empty_code_page)))
                (Item [] (lit "Societe") BUY zero))
      as (a & Ha & _ & Hact & _).
    + vm_compute. constructor.
    + exists a. split; [exact Ha|exact Hact].
Defined.

(** ** The potential *)

Section Potential.

(** A character that is neither a digit nor a sign: no match can start
    on it. *)
Definition plain (c : char) : Prop :=
  is_decimal c = false /\ is_sign c = false.

Lemma search_cons (group tail : Re.re) (c : char) (s : str) :
  Re.search group tail (c :: s) =
  match Re.match_here group tail (c :: s) with
  | Some g => Some g
  | None => Re.search group tail s
  end.
Proof. reflexivity. Qed.

Lemma match_here_plain (c : char) (s : str) :
  plain c -> Re.match_here POTENTIAL_GROUP POTENTIAL_TAIL (c :: s) = None.
Proof.
  intros [Hd Hs]. unfold Re.match_here, POTENTIAL_GROUP.
  cbn -[is_sign is_decimal is_sep isspace POTENTIAL_TAIL].
  rewrite Hs. cbn -[is_sign is_decimal is_sep isspace POTENTIAL_TAIL].
  by rewrite Hd.
Qed.

Lemma search_plain (pre rest : str) :
  Forall plain pre ->
  POTENTIAL_RE_search (pre ++ rest) = POTENTIAL_RE_search rest.
Proof.
  unfold POTENTIAL_RE_search.
  induction 1 as [|c pre Hc Hpre IH]; [done|].
  simpl app. rewrite search_cons, match_here_plain by done. apply IH.
Qed.

Lemma infer_potential_plain (pre rest : str) :
  Forall plain pre -> infer_potential (pre ++ rest) = infer_potential rest.
Proof. intros H. unfold infer_potential. by rewrite search_plain. Qed.

Lemma infer_potential_no_token (area : str) :
  ~ has_percent_token area -> infer_potential area = zero.
Proof.
  intros Hno. unfold infer_potential.
  destruct (POTENTIAL_RE_search area) as [g|] eqn:E; [|done].
  exfalso. apply Hno.
  apply POTENTIAL_RE_search_some in E as (pre & post & Htok & _).
  by exists pre, g, post.
Qed.

Lemma infer_potential_first_token (area g : str) :
  POTENTIAL_RE_search area = Some g ->
  search_potential_spec area g /\
  infer_potential area = float_or_zero (replace_char 44%N 46%N g) /\
  Forall (fun c => number_char c = true) (replace_char 44%N 46%N g) /\
  exists v : float,
    float_of_str (replace_char 44%N 46%N g) = Some v /\
    infer_potential area = v /\ is_nan v = false.
Proof.
  intros E. pose proof (POTENTIAL_RE_search_some area g E) as Hspec.
  split; [done|]. split; [unfold infer_potential; by rewrite E|].
  destruct Hspec as (pre & post & (sp & _ & Hnum & _) & _).
  split; [by apply number_chars|].
  destruct (float_of_number g Hnum) as [v Hv].
  exists v. split; [done|]. split.
  - unfold infer_potential, float_or_zero. by rewrite E, Hv.
  - by apply float_of_str_not_nan in Hv.
Qed.

(** The handler of the [try] block: a string of number characters that
    [float] rejects gives [0.0]. *)
Lemma float_or_zero_caught (val_str : str) :
  Forall (fun c => number_char c = true) val_str ->
  float_of_str val_str = None -> float_or_zero val_str = zero.
Proof. unfold float_or_zero. by intros _ ->. Qed.

Lemma parse_synthese_potential (d : node) (it : item) :
  it ∈ parse_synthese d ->
  exists a : path * node,
    a ∈ links d /\
    potential it = infer_potential (text_search_area d a.1).
Proof.
  intros Hit. apply parse_synthese_origin in Hit as (a & Ha & He).
  exists a. split.
  - eapply elem_of_sublist; [done|apply first_occurrences_sublist].
  - unfold emit in He. destruct (infer_action _); [|done].
    by injection He as <-.
Qed.

(** Every bucket of an extraction is free of NaN. *)
Lemma parse_synthese_no_nan (d : node) : no_nan (parse_synthese d).
Proof.
  apply Forall_forall. intros it Hit.
  apply parse_synthese_potential in Hit as (a & _ & ->).
  apply infer_potential_not_nan.
Qed.

End Potential.

(** C3.  The potential of an emitted signal is the float read in the
    search window of its link.  It is [0.0] when the window has no percent
    token (an optional sign, decimal digits, optionally "." or "," and
    decimal digits, then blanks and "%").  Otherwise the token that starts
    first is taken, "," is replaced by "." and the number, a string of
    signs, decimal digits and ".", is handed to the [try] block around
    [float]: such a string that [float] rejects, as "1.2.3", gives [0.0]
    there, and a captured token is never rejected.  After text
    free of digits and signs, "12,5%" gives 12.5 and "-3.2 %" gives -3.2;
    the digits may be of any script ("١٢%" gives 12.0). *)
Theorem infer_potential_total :
  (forall (d : node) (it : item),
     it ∈ parse_synthese d ->
     exists a : path * node,
       a ∈ links d /\
       potential it = infer_potential (text_search_area d a.1)) /\
  (forall area : str,
     ~ has_percent_token area -> infer_potential area = zero) /\
  (forall area : str,
     has_percent_token area ->
     exists g : str, POTENTIAL_RE_search area = Some g) /\
  (forall area g : str,
     POTENTIAL_RE_search area = Some g ->
     search_potential_spec area g /\
     infer_potential area = float_or_zero (replace_char 44%N 46%N g) /\
     Forall (fun c => number_char c = true) (replace_char 44%N 46%N g) /\
     exists v : float,
       float_of_str (replace_char 44%N 46%N g) = Some v /\
       infer_potential area = v /\ is_nan v = false) /\
  (forall val_str : str,
     Forall (fun c => number_char c = true) val_str ->
     float_of_str val_str = None -> float_or_zero val_str = zero) /\
  float_of_str (lit "1.2.3") = None /\
  (forall pre post : str,
     Forall plain pre ->
     infer_potential (pre ++ lit "12,5%" ++ post) = Prim2SF 12.5 /\
     infer_potential (pre ++ lit "-3.2 %" ++ post) = Prim2SF (-3.2) /\
     infer_potential (pre ++ [1633; 1634; 37]%N ++ post) = Prim2SF 12).
Proof.
  refine (conj _ (conj _ (conj _ (conj _ (conj _ (conj _ _)))))).
  - apply parse_synthese_potential.
  - apply infer_potential_no_token.
  - apply POTENTIAL_RE_search_complete.
  - apply infer_potential_first_token.
  - apply float_or_zero_caught.
  - vm_compute. reflexivity.
  - intros pre post Hpre.
    rewrite (infer_potential_plain pre (lit "12,5%" ++ post)) by done.
    rewrite (infer_potential_plain pre (lit "-3.2 %" ++ post)) by done.
    rewrite (infer_potential_plain pre ([1633; 1634; 37]%N ++ post)) by done.
    refine (conj _ (conj _ _)); vm_compute; reflexivity.
Qed.

Lemma infer_potential_total_witness :
  infer_potential (lit "Potentiel : 12,5% (objectif)") = Prim2SF 12.5 /\
  infer_potential (lit "Baisse de -3.2 % attendue") = Prim2SF (-3.2) /\
  infer_potential (lit "pas de chiffre") = zero /\
  infer_potential (lit "cours +7 % puis 9%") = Prim2SF 7 /\
  float_or_zero (lit "1.2.3") = zero.
Proof.
  destruct infer_potential_total
    as (_ & Hnone & _ & Hsome & Hcaught & Hbad & Hex).
  split; [|split; [|split; [|split]]].
  - apply (proj1 (Hex (lit "Potentiel : ") (lit " (objectif)")
                      ltac:(repeat constructor))).
  - apply (proj1 (proj2 (Hex (lit "Baisse de ") (lit " attendue")
                             ltac:(repeat constructor)))).
  - apply Hnone. intros Htok.
    destruct (POTENTIAL_RE_search_complete _ Htok) as [g' Hg'].
    vm_compute in Hg'. discriminate.
  - destruct (Hsome (lit "cours +7 % puis 9%") (lit "+7") eq_refl)
      as (_ & _ & _ & v & Hv & Hinf & _).
    rewrite Hinf. vm_compute in Hv. by injection Hv as <-.
  - apply Hcaught; [repeat constructor|exact Hbad].
Defined.

(** ** The cache *)

Section CacheLayer.

Variable ttl : Z.

(** A run of calls to [scrape_with_cache], one at each of the given clock
    readings. *)
Fixpoint gets (times : list Q) (c : cache) (w : net)
    : list outcome * cache * net :=
  match times with
  | [] => ([], c, w)
  | now :: rest =>
      let '(o, c1, w1) := scrape_with_cache ttl now c w in
      let '(os, c2, w2) := gets rest c1 w1 in
      (o :: os, c2, w2)
  end.

(** The call goes to the network. *)
Definition must_fetch (now : Q) (c : cache) : Prop :=
  truthy (data c) && fresh ttl now c = false.

Lemma truthy_nonempty (items : list item) :
  items <> [] -> truthy (Some items) = true.
Proof. by destruct items. Qed.

(** A call that goes to the network and gets a page stores and returns
    what the page yields. *)
Lemma scrape_fetch_page (now : Q) (c : cache) (w : net) (d : node)
    (rest : list reply) :
  must_fetch now c -> replies w = Page d :: rest ->
  scrape_with_cache ttl now c w
  = (Returned (parse_synthese d), Cache now (Some (parse_synthese d)),
     Net (S (fetch_calls w)) rest).
Proof.
  unfold must_fetch, scrape_with_cache, fetch_page. intros -> ->. done.
Qed.

(** Non-empty cached data, read within the TTL: no request. *)
Lemma scrape_hit (now t0 : Q) (items : list item) (w : net) :
  items <> [] -> within_ttl ttl t0 now = true ->
  scrape_with_cache ttl now (Cache t0 (Some items)) w
  = (Returned items, Cache t0 (Some items), w).
Proof.
  intros Hne Hlt. unfold scrape_with_cache, fresh. cbn [data ts].
  rewrite truthy_nonempty by done. by rewrite Hlt.
Qed.

Lemma gets_hit (times : list Q) (t0 : Q) (items : list item) (w : net) :
  items <> [] ->
  Forall (fun now => within_ttl ttl t0 now = true) times ->
  gets times (Cache t0 (Some items)) w
  = (List.map (fun _ => Returned items) times, Cache t0 (Some items), w).
Proof.
  intros Hne. induction 1 as [|now times Hnow Htimes IH]; [done|].
  simpl. rewrite scrape_hit by done. by rewrite IH.
Qed.

(** The network fails: the next reply is an exception. *)
Definition next_fails (w : net) : Prop :=
  match replies w with
  | Failure :: _ | [] => True
  | Page _ :: _ => False
  end.

Lemma scrape_fetch_failure (now : Q) (c : cache) (w : net) :
  must_fetch now c -> next_fails w ->
  exists w' : net,
    fetch_calls w' = S (fetch_calls w) /\
    scrape_with_cache ttl now c w
    = (if truthy (data c) then Returned (default [] (data c)) else Raised,
       c, w').
Proof.
  unfold must_fetch, next_fails, scrape_with_cache, fetch_page.
  intros -> Hfail. destruct (replies w) as [|[d|] rest]; [|done|];
    eexists; (split; [|by destruct (truthy (data c))]); done.
Qed.

Lemma must_fetch_stale (now : Q) (c : cache) :
  within_ttl ttl (ts c) now = false -> must_fetch now c.
Proof.
  intros H. unfold must_fetch, fresh. rewrite H. apply andb_false_r.
Qed.

(** When the request fails, a call returns what is cached if it is a
    non-empty list, whether the call went to the network or not. *)
Lemma scrape_failure_serves (now t0 : Q) (items : list item) (w : net) :
  items <> [] -> next_fails w ->
  (scrape_with_cache ttl now (Cache t0 (Some items)) w).1
  = (Returned items, Cache t0 (Some items)).
Proof.
  intros Hne Hfail.
  destruct (within_ttl ttl t0 now) eqn:Hin.
  - by rewrite scrape_hit.
  - assert (Hmf : must_fetch now (Cache t0 (Some items)))
      by (by apply must_fetch_stale).
    destruct (scrape_fetch_failure now _ w Hmf Hfail) as (w' & _ & ->).
    cbn [data fst]. by rewrite truthy_nonempty.
Qed.

End CacheLayer.

Lemma scrape_fetch_counts (ttl : Z) (now : Q) (c : cache) (w : net) :
  must_fetch ttl now c ->
  fetch_calls (scrape_with_cache ttl now c w).2 = S (fetch_calls w).
Proof.
  unfold must_fetch, scrape_with_cache, fetch_page. intros ->.
  destruct (replies w) as [|[d|] rest]; simpl; try done;
    by destruct (truthy (data c)).
Qed.

(** The page [<a href="conseil/BT">Banque</a><img src="f_1b.png">]. *)
Definition one_signal_page : node :=
  Tag (lit "[document]") []
    [ Tag (lit "a") [(lit "href", lit "conseil/BT")] [Text (lit "Banque")];
      Tag (lit "img") [(lit "src", lit "f_1b.png")] [] ].

(** A page without any candidate link. *)
Definition no_link_page : node :=
  Tag (lit "[document]") [] [ Text (lit "maintenance") ].

(** The reading of C6: after a first call that fetched [d], a call within
    the TTL leaves the number of requests at 1. *)
Definition refetch_free (ttl : Z) (t0 now : Q) (d : node) : Prop :=
  (now - t0 < inject_Z ttl)%Q ->
  let '(_, c1, w1) :=
    scrape_with_cache ttl t0 initial_cache (Net 0 [Page d; Page d]) in
  fetch_calls (scrape_with_cache ttl now c1 w1).2 = 1%nat.

(** C6, counterexample.  The first call fetches a page that yields no
    signal; the call one second later, well within the TTL of 300, fetches
    again. *)
Lemma cache_empty_list_refetched : ~ refetch_free 300 0 1 no_link_page.
Proof.
  unfold refetch_free. intros H.
  assert (Hlt : (1 - 0 < inject_Z 300)%Q) by reflexivity.
  specialize (H Hlt). vm_compute in H. discriminate H.
Qed.

(** The floats 0.7 and 300.7, as [time.time()] can return them. *)
Definition T0_7 : Q := 3152519739159347 # 4503599627370496.
Definition T300_7 : Q := 5289970343555891 # 17592186044416.

(** The two readings are less than 300 seconds apart, but their
    difference as a float is 300.0: the call at the second reading, after
    a first call that stored a signal, fetches again. *)
Lemma cache_boundary_refetched : ~ refetch_free 300 T0_7 T300_7 one_signal_page.
Proof.
  unfold refetch_free. intros H.
  assert (Hlt : (T300_7 - T0_7 < inject_Z 300)%Q) by reflexivity.
  specialize (H Hlt). vm_compute in H. discriminate H.
Qed.

(** C6, as amended.  After a call that fetched a page yielding at least
    one signal, every call at a reading [now] of the clock for which the
    float [now - ts] is below the TTL returns that list and makes no
    request: the count of requests stays where the first call left it (at
    1 when it was the first request).  A call at any other reading makes
    a request. *)
Theorem cache_hit_within_ttl (ttl : Z) (t0 : Q) (c0 : cache) (w0 : net)
    (d : node) (rest : list reply) (times : list Q) :
  must_fetch ttl t0 c0 ->
  replies w0 = Page d :: rest ->
  parse_synthese d <> [] ->
  Forall (fun now => within_ttl ttl t0 now = true) times ->
  exists (c1 : cache) (w1 : net),
    scrape_with_cache ttl t0 c0 w0 = (Returned (parse_synthese d), c1, w1) /\
    fetch_calls w1 = S (fetch_calls w0) /\
    gets ttl times c1 w1
    = (List.map (fun _ => Returned (parse_synthese d)) times, c1, w1) /\
    forall now : Q,
      within_ttl ttl t0 now = false ->
      fetch_calls (scrape_with_cache ttl now c1 w1).2 = S (fetch_calls w1).
Proof.
  intros Hfetch Hreply Hne Htimes.
  exists (Cache t0 (Some (parse_synthese d))), (Net (S (fetch_calls w0)) rest).
  split; [by apply scrape_fetch_page|]. split; [done|].
  split; [by apply gets_hit|].
  intros now Hout. apply scrape_fetch_counts. by apply must_fetch_stale.
Qed.

Lemma cache_hit_within_ttl_witness :
  exists (c1 : cache) (w1 : net),
    scrape_with_cache 300 1000 initial_cache (Net 0 [Page one_signal_page])
    = (Returned (parse_synthese one_signal_page), c1, w1) /\
    fetch_calls w1 = 1%nat /\
    gets 300 [1001; 2599 # 2]%Q c1 w1
    = (List.map (fun _ => Returned (parse_synthese one_signal_page))
                [1001; 2599 # 2]%Q, c1, w1) /\
    forall now : Q,
      within_ttl 300 1000 now = false ->
      fetch_calls (scrape_with_cache 300 now c1 w1).2 = S (fetch_calls w1).
Proof.
  apply (cache_hit_within_ttl 300 1000 initial_cache
           (Net 0 [Page one_signal_page]) one_signal_page []).
  - reflexivity.
  - reflexivity.
  - vm_compute. discriminate.
  - constructor; [vm_compute; reflexivity|].
    constructor; [vm_compute; reflexivity|constructor].
Defined.

(** C9.  After a call that fetched a page yielding no signal, every later
    call, at whatever time, makes a new request; when that request fails
    the call raises instead of returning the empty list. *)
Theorem cache_empty_list_not_served (ttl : Z) (t0 : Q) (c0 : cache)
    (w0 : net) (d : node) (rest : list reply) :
  must_fetch ttl t0 c0 ->
  replies w0 = Page d :: rest ->
  parse_synthese d = [] ->
  exists (c1 : cache) (w1 : net),
    scrape_with_cache ttl t0 c0 w0 = (Returned [], c1, w1) /\
    data c1 = Some [] /\
    forall now : Q,
      fetch_calls (scrape_with_cache ttl now c1 w1).2 = S (fetch_calls w1) /\
      (next_fails w1 ->
       (scrape_with_cache ttl now c1 w1).1 = (Raised, c1)).
Proof.
  intros Hfetch Hreply Hempty.
  exists (Cache t0 (Some [])), (Net (S (fetch_calls w0)) rest).
  split; [|split; [done|]].
  - rewrite <- Hempty at 1 2. by apply scrape_fetch_page.
  - intros now.
    assert (Hmf : must_fetch ttl now (Cache t0 (Some []))) by done.
    split; [by apply scrape_fetch_counts|].
    intros Hfail.
    destruct (scrape_fetch_failure ttl now _ _ Hmf Hfail) as (w' & _ & ->).
    done.
Qed.

Lemma cache_empty_list_not_served_witness :
  exists (c1 : cache) (w1 : net),
    scrape_with_cache 300 1000 initial_cache
      (Net 0 [Page no_link_page; Failure])
    = (Returned [], c1, w1) /\
    data c1 = Some [] /\
    forall now : Q,
      fetch_calls (scrape_with_cache 300 now c1 w1).2 = S (fetch_calls w1) /\
      (next_fails w1 ->
       (scrape_with_cache 300 now c1 w1).1 = (Raised, c1)).
Proof.
  apply (cache_empty_list_not_served 300 1000 initial_cache
           (Net 0 [Page no_link_page; Failure]) no_link_page [Failure]).
  - reflexivity.
  - reflexivity.
  - reflexivity.
Defined.

(** The reading of C7: the first call fetched [d], the next request
    fails, and the call after expiry returns what [d] gave. *)
Definition stale_served (ttl : Z) (t0 t1 : Q) (d : node) : Prop :=
  (inject_Z ttl <= t1 - t0)%Q ->
  let '(_, c1, w1) :=
    scrape_with_cache ttl t0 initial_cache (Net 0 [Page d; Failure]) in
  (scrape_with_cache ttl t1 c1 w1).1.1 = Returned (parse_synthese d).

(** C7, counterexample.  The first call fetched a page that yields no
    signal; the second request fails, and the call raises instead of
    returning the first call's (empty) list. *)
Lemma cache_empty_list_raises : ~ stale_served 300 0 301 no_link_page.
Proof.
  unfold stale_served. intros H.
  assert (Hle : (inject_Z 300 <= 301 - 0)%Q) by (unfold Qle; simpl; lia).
  specialize (H Hle). vm_compute in H. discriminate H.
Qed.

(** C7, as amended.  When the request of a call fails, the call returns
    the cached list if it is non-empty, however old it is, and raises
    when nothing, or only an empty list, was cached; the cache is left as
    it was.  So when the first call fetched a page yielding at least one
    signal and the second request fails, a call after expiry of the TTL
    returns the first call's list; and a failure with the cache at its
    initial state raises. *)
Theorem cache_serves_stale_on_failure (ttl : Z) :
  (forall (now : Q) (c : cache) (w : net),
     must_fetch ttl now c -> next_fails w ->
     (scrape_with_cache ttl now c w).1
     = (if truthy (data c) then Returned (default [] (data c)) else Raised,
        c)) /\
  (forall (t0 t1 : Q) (c0 : cache) (w0 : net) (d : node) (rest : list reply),
     must_fetch ttl t0 c0 ->
     replies w0 = Page d :: rest ->
     parse_synthese d <> [] ->
     match rest with Failure :: _ | [] => True | Page _ :: _ => False end ->
     (inject_Z ttl <= t1 - t0)%Q ->
     exists (c1 : cache) (w1 : net),
       scrape_with_cache ttl t0 c0 w0
       = (Returned (parse_synthese d), c1, w1) /\
       (scrape_with_cache ttl t1 c1 w1).1
       = (Returned (parse_synthese d), c1)) /\
  (forall (now : Q) (w : net),
     next_fails w ->
     (scrape_with_cache ttl now initial_cache w).1 = (Raised, initial_cache)).
Proof.
  refine (conj _ (conj _ _)).
  - intros now c w Hmf Hfail.
    by destruct (scrape_fetch_failure ttl now c w Hmf Hfail) as (w' & _ & ->).
  - intros t0 t1 c0 w0 d rest Hmf Hreply Hne Hrest Hstale.
    exists (Cache t0 (Some (parse_synthese d))), (Net (S (fetch_calls w0)) rest).
    split; [by apply scrape_fetch_page|].
    by apply scrape_failure_serves.
  - intros now w Hfail.
    assert (Hmf : must_fetch ttl now initial_cache) by done.
    by destruct (scrape_fetch_failure ttl now _ w Hmf Hfail) as (w' & _ & ->).
Qed.

Lemma cache_serves_stale_on_failure_witness :
  exists (c1 : cache) (w1 : net),
    scrape_with_cache 300 1000 initial_cache
      (Net 0 [Page one_signal_page; Failure])
    = (Returned (parse_synthese one_signal_page), c1, w1) /\
    (scrape_with_cache 300 5000 c1 w1).1
    = (Returned (parse_synthese one_signal_page), c1).
Proof.
  apply (proj1 (proj2 (cache_serves_stale_on_failure 300))
           1000%Q 5000%Q initial_cache
           (Net 0 [Page one_signal_page; Failure]) one_signal_page [Failure]).
  - reflexivity.
  - reflexivity.
  - vm_compute. discriminate.
  - exact I.
  - unfold Qle. simpl. lia.
Defined.

(** ** Upserts *)

Import Scraper.

Section CollectionFacts.

Context {D K : Type} `{EqDecision D} `{EqDecision K}.
Variable key : D -> K.

(** The natural keys stored in a collection. *)
Definition keys (coll : list D) : list K := key <$> coll.

(** An [update_one] whose key is stored matches one document and inserts
    nothing; the stored keys stay as they are. *)
Lemma update_one_present (doc : D) (coll : list D) :
  key doc ∈ keys coll ->
  upserted (update_one key doc coll).2 = false /\
  matched_count (update_one key doc coll).2 = 1%nat /\
  keys (update_one key doc coll).1 = keys coll.
Proof.
  unfold keys. induction coll as [|d coll IH]; [by intros H; inversion H|].
  intros Hin. cbn [update_one].
  destruct (bool_decide_reflect (key d = key doc)) as [Heq|Hne].
  - cbn [fst snd upserted matched_count]. rewrite !fmap_cons.
    by rewrite Heq.
  - rewrite fmap_cons in Hin.
    apply elem_of_cons in Hin as [Heq|Hin]; [congruence|].
    destruct (IH Hin) as (H1 & H2 & H3).
    destruct (update_one key doc coll) as [rest' r].
    cbn [fst snd] in *. rewrite !fmap_cons. by rewrite H3.
Qed.

(** An [update_one] whose key is not stored inserts the document. *)
Lemma update_one_absent (doc : D) (coll : list D) :
  key doc ∉ keys coll ->
  update_one key doc coll = (coll ++ [doc], UpdateResult 0 0 true).
Proof.
  unfold keys. induction coll as [|d coll IH]; [done|].
  intros Hnin. cbn [update_one]. rewrite fmap_cons in Hnin.
  apply not_elem_of_cons in Hnin as [Hne Hnin].
  rewrite bool_decide_false by congruence.
  by rewrite (IH Hnin).
Qed.

(** Whatever it does, [update_one] keeps the stored keys and stores the
    key of the document. *)
Lemma update_one_keys (doc : D) (coll : list D) (k : K) :
  k ∈ keys (update_one key doc coll).1 <-> k ∈ keys coll \/ k = key doc.
Proof.
  destruct (decide (key doc ∈ keys coll)) as [Hin|Hnin].
  - destruct (update_one_present doc coll Hin) as (_ & _ & ->).
    split; [by left|]. by intros [?| ->].
  - rewrite (update_one_absent doc coll Hnin). unfold keys. cbn [fst].
    rewrite fmap_app, elem_of_app. cbn [fmap list_fmap].
    by rewrite list_elem_of_singleton.
Qed.

Lemma save_loop_present (docs : list D) :
  forall (coll : list D) (i u : nat),
    (forall doc : D, doc ∈ docs -> key doc ∈ keys coll) ->
    keys (save_loop key docs coll i u).1 = keys coll /\
    (save_loop key docs coll i u).2.1 = i.
Proof.
  induction docs as [|doc docs IH]; intros coll i u Hall; [done|].
  simpl.
  destruct (update_one_present doc coll) as (Hup & _ & Hkeys).
  { apply Hall. by left. }
  destruct (update_one key doc coll) as [coll' r]. simpl in Hup, Hkeys.
  rewrite Hup.
  assert (Hall' : forall doc' : D, doc' ∈ docs -> key doc' ∈ keys coll').
  { intros doc' Hin. rewrite Hkeys. apply Hall. by right. }
  destruct (negb (modified_count r =? 0)%nat);
    destruct (IH coll' i (S u) Hall') as [H1 H2];
    destruct (IH coll' i u Hall') as [H3 H4];
    rewrite <- Hkeys; done.
Qed.

Lemma save_loop_keys (docs : list D) :
  forall (coll : list D) (i u : nat) (k : K),
    k ∈ keys (save_loop key docs coll i u).1 <->
    k ∈ keys coll \/ k ∈ keys docs.
Proof.
  induction docs as [|doc docs IH]; intros coll i u k; cbn [save_loop].
  - cbn [fst]. split; [by left|]. intros [?|H]; [done|].
    unfold keys in H. rewrite fmap_nil in H. by apply elem_of_nil in H.
  - pose proof (update_one_keys doc coll k) as Hk.
    destruct (update_one key doc coll) as [coll' r]. cbn [fst] in Hk.
    assert (Hd : k ∈ keys (doc :: docs) <-> k = key doc \/ k ∈ keys docs)
      by (unfold keys; rewrite fmap_cons; apply elem_of_cons).
    destruct (upserted r); [|destruct (negb _)]; rewrite IH, Hk, Hd; tauto.
Qed.

Lemma save_present (docs coll : list D) :
  (forall doc : D, doc ∈ docs -> key doc ∈ keys coll) ->
  keys (save key docs coll).1 = keys coll /\
  match (save key docs coll).2 with
  | Some (i, _) => i = 0%nat
  | None => True
  end.
Proof.
  intros Hall. unfold save. destruct docs as [|doc docs]; [done|].
  destruct (save_loop_present (doc :: docs) coll 0 0 Hall) as [H1 H2].
  destruct (save_loop key (doc :: docs) coll 0 0) as [coll' [i u]].
  done.
Qed.

Lemma save_keys (docs coll : list D) (k : K) :
  k ∈ keys (save key docs coll).1 <-> k ∈ keys coll \/ k ∈ keys docs.
Proof.
  unfold save. destruct docs as [|doc docs].
  - cbn [fst]. split; [by left|]. intros [?|H]; [done|].
    unfold keys in H. rewrite fmap_nil in H. by apply elem_of_nil in H.
  - pose proof (save_loop_keys (doc :: docs) coll 0 0 k) as Hk.
    by destruct (save_loop key (doc :: docs) coll 0 0) as [coll' [i u]].
Qed.

(** The documents after an [update_one] are the new one and old ones. *)
Lemma update_one_elem_of (doc : D) (coll : list D) (d' : D) :
  d' ∈ (update_one key doc coll).1 -> d' = doc \/ d' ∈ coll.
Proof.
  induction coll as [|d coll IH]; cbn [update_one].
  - cbn [fst]. intros Hin. apply list_elem_of_singleton in Hin. by left.
  - destruct (bool_decide (key d = key doc)).
    + cbn [fst]. intros Hin. apply elem_of_cons in Hin as [->|Hin];
        [by left|right; by right].
    + destruct (update_one key doc coll) as [rest' r]. cbn [fst] in *.
      intros Hin. apply elem_of_cons in Hin as [->|Hin];
        [right; by left|].
      destruct (IH Hin) as [->|Hin']; [by left|right; by right].
Qed.

(** An [update_one] that finds a record differing from the document
    reports a modification. *)
Lemma update_one_modified (doc : D) (coll : list D) :
  key doc ∈ keys coll ->
  (forall d : D, d ∈ coll -> key d = key doc -> d <> doc) ->
  modified_count (update_one key doc coll).2 = 1%nat.
Proof.
  unfold keys. induction coll as [|d coll IH]; [by intros H; inversion H|].
  intros Hin Hdiff. cbn [update_one].
  destruct (bool_decide_reflect (key d = key doc)) as [Heq|Hne].
  - cbn [snd modified_count].
    rewrite bool_decide_false; [done|]. apply Hdiff; [by left|done].
  - rewrite fmap_cons in Hin.
    apply elem_of_cons in Hin as [Heq|Hin]; [congruence|].
    assert (Hdiff' : forall d0 : D, d0 ∈ coll -> key d0 = key doc -> d0 <> doc)
      by (intros d0 Hd0; apply Hdiff; by right).
    specialize (IH Hin Hdiff').
    by destruct (update_one key doc coll) as [rest' r].
Qed.

(** When every document has its key stored, differs from the record
    stored under that key, and no key comes twice, every operation counts
    as an update. *)
Lemma save_loop_all_updated (docs : list D) :
  forall (coll : list D) (i u : nat),
    (forall doc : D, doc ∈ docs -> key doc ∈ keys coll) ->
    (forall doc d : D,
       doc ∈ docs -> d ∈ coll -> key d = key doc -> d <> doc) ->
    NoDup (keys docs) ->
    (save_loop key docs coll i u).2 = (i, (u + length docs)%nat).
Proof.
  induction docs as [|doc docs IH]; intros coll i u Hall Hdiff Hnd.
  - cbn [save_loop snd length]. by rewrite Nat.add_0_r.
  - cbn [save_loop].
    destruct (update_one_present doc coll) as (Hup & _ & Hkeys);
      [apply Hall; by left|].
    pose proof (update_one_modified doc coll) as Hmod.
    pose proof (update_one_elem_of doc coll) as Helem.
    destruct (update_one key doc coll) as [coll' r].
    cbn [fst snd] in Hup, Hkeys, Hmod, Helem.
    rewrite Hup, Hmod.
    + cbn [negb Nat.eqb]. unfold keys in Hnd. rewrite fmap_cons in Hnd.
      apply NoDup_cons in Hnd as [Hfresh Hnd].
      rewrite IH; [cbn [length]; f_equal; lia| | |done].
      * intros doc' Hin. rewrite Hkeys. apply Hall. by right.
      * intros doc' d' Hdoc' Hd' Hk.
        destruct (Helem d' Hd') as [->|Hold].
        -- exfalso. apply Hfresh. rewrite Hk.
           by apply list_elem_of_fmap_2.
        -- apply Hdiff; [by right|done|done].
    + apply Hall. by left.
    + intros d Hd. apply Hdiff; [by left|done].
Qed.

Lemma save_loop_elem_of (docs : list D) (x : D) :
  forall (coll : list D) (i u : nat),
    x ∈ (save_loop key docs coll i u).1 -> x ∈ docs \/ x ∈ coll.
Proof.
  induction docs as [|doc docs IH]; intros coll i u; cbn [save_loop].
  - by right.
  - pose proof (update_one_elem_of doc coll x) as Hx.
    destruct (update_one key doc coll) as [coll' r]. cbn [fst] in Hx.
    assert (Hstep : forall i' u' : nat,
               x ∈ (save_loop key docs coll' i' u').1 ->
               x ∈ doc :: docs \/ x ∈ coll).
    { intros i' u' H. destruct (IH coll' i' u' H) as [?|H'].
      - left. by right.
      - destruct (Hx H') as [->|?]; [left; by left|by right]. }
    destruct (upserted r); [|destruct (negb _)]; apply Hstep.
Qed.

(** The documents after a save are saved ones and old ones. *)
Lemma save_elem_of (docs coll : list D) (x : D) :
  x ∈ (save key docs coll).1 -> x ∈ docs \/ x ∈ coll.
Proof.
  unfold save. destruct docs as [|doc docs]; [by right|].
  pose proof (save_loop_elem_of (doc :: docs) x coll 0 0) as H.
  by destruct (save_loop key (doc :: docs) coll 0 0) as [coll' [i u]].
Qed.

(** When every document has its key stored but is not stored as it is,
    and no key comes twice, a save counts every document as updated. *)
Lemma save_all_updated (docs coll : list D) :
  (forall doc : D, doc ∈ docs -> key doc ∈ keys coll) ->
  (forall doc : D, doc ∈ docs -> doc ∉ coll) ->
  NoDup (keys docs) ->
  (save key docs coll).2
  = match docs with [] => None | _ => Some (0%nat, length docs) end.
Proof.
  intros Hall Hnew Hnd. unfold save. destruct docs as [|doc docs]; [done|].
  pose proof (save_loop_all_updated (doc :: docs) coll 0 0 Hall) as H.
  destruct (save_loop key (doc :: docs) coll 0 0) as [coll' c].
  cbn [snd] in *. rewrite H; [done| |done].
  intros doc' d' Hdoc' Hd' _ Heq. subst d'. by apply (Hnew doc').
Qed.

Lemma keys_length (coll coll' : list D) :
  keys coll' = keys coll -> length coll' = length coll.
Proof.
  unfold keys. intros H.
  by rewrite <- (length_fmap key coll'), H, length_fmap.
Qed.

End CollectionFacts.

Section Persistence.

Definition ckeys (d : db) : list str := keys company_key (companies d).
Definition skeys (d : db) : list (str * str) :=
  keys shareholder_key (shareholders d).
Definition fkeys (d : db) : list (str * str) :=
  keys financial_key (financials d).

(** Two captures of the same source data: equal but for [scraped_at]. *)
Definition same_company (c1 c2 : company) : Prop :=
  c_code c1 = c_code c2 /\ c_title c1 = c_title c2 /\
  c_consensus c1 = c_consensus c2 /\ c_potential c1 = c_potential c2 /\
  c_url c1 = c_url c2.

Definition same_shareholder (s1 s2 : shareholder) : Prop :=
  s_company_code s1 = s_company_code s2 /\ s_name s1 = s_name s2 /\
  s_percentage s1 = s_percentage s2.

Definition same_financial (f1 f2 : financial) : Prop :=
  f_company_code f1 = f_company_code f2 /\ f_metric f1 = f_metric f2 /\
  f_values f1 = f_values f2.

Definition same_source (src1 src2 : scraped) : Prop :=
  Forall2 (fun e1 e2 =>
             same_company e1.1 e2.1 /\
             Forall2 same_shareholder e1.2.1 e2.2.1 /\
             Forall2 same_financial e1.2.2 e2.2.2)
          src1 src2.

(** Every record of the source has its natural key in the store. *)
Definition details_covered (d : db)
    (details : list (list shareholder * list financial)) : Prop :=
  Forall (fun e =>
            Forall (fun s => shareholder_key s ∈ skeys d) e.1 /\
            Forall (fun f => financial_key f ∈ fkeys d) e.2)
         details.

Definition covered (d : db) (src : scraped) : Prop :=
  Forall (fun c => company_key c ∈ ckeys d) (src.*1) /\
  details_covered d (src.*2).

(** The store has grown: no natural key was lost. *)
Definition db_le (d d' : db) : Prop :=
  (forall k, k ∈ ckeys d -> k ∈ ckeys d') /\
  (forall k, k ∈ skeys d -> k ∈ skeys d') /\
  (forall k, k ∈ fkeys d -> k ∈ fkeys d').

Lemma db_le_refl (d : db) : db_le d d.
Proof. by repeat split. Qed.

Lemma db_le_trans (d1 d2 d3 : db) : db_le d1 d2 -> db_le d2 d3 -> db_le d1 d3.
Proof. intros (A1 & A2 & A3) (B1 & B2 & B3). repeat split; auto. Qed.

Lemma details_covered_le (d d' : db)
    (details : list (list shareholder * list financial)) :
  db_le d d' -> details_covered d details -> details_covered d' details.
Proof.
  intros (_ & Hs & Hf). unfold details_covered. intros Hcov.
  eapply Forall_impl; [exact Hcov|]. intros e [H1 H2]. split.
  - eapply Forall_impl; [exact H1|]. auto.
  - eapply Forall_impl; [exact H2|]. auto.
Qed.

Lemma save_companies_spec (cs : list company) (d : db) :
  shareholders (save_companies cs d).1 = shareholders d /\
  financials (save_companies cs d).1 = financials d /\
  (forall k, k ∈ ckeys (save_companies cs d).1 <->
             k ∈ ckeys d \/ k ∈ keys company_key cs) /\
  ((forall c, c ∈ cs -> company_key c ∈ ckeys d) ->
   ckeys (save_companies cs d).1 = ckeys d /\
   Forall (fun l => line_inserted l = 0%nat) (save_companies cs d).2).
Proof.
  unfold save_companies, ckeys.
  pose proof (save_keys company_key cs (companies d)) as Hk.
  pose proof (save_present company_key cs (companies d)) as Hp.
  destruct (save company_key cs (companies d)) as [coll c].
  cbn [fst snd companies shareholders financials] in *.
  refine (conj _ (conj _ (conj Hk _))); try done.
  intros H. destruct (Hp H) as [Hkeys Hc]. split; [done|].
  destruct c as [[i u]|]; [|constructor].
  subst i. by repeat constructor.
Qed.

Lemma save_shareholders_spec (shs : list shareholder) (d : db) :
  companies (save_shareholders shs d).1 = companies d /\
  financials (save_shareholders shs d).1 = financials d /\
  (forall k, k ∈ skeys (save_shareholders shs d).1 <->
             k ∈ skeys d \/ k ∈ keys shareholder_key shs) /\
  ((forall s, s ∈ shs -> shareholder_key s ∈ skeys d) ->
   skeys (save_shareholders shs d).1 = skeys d /\
   Forall (fun l => line_inserted l = 0%nat) (save_shareholders shs d).2).
Proof.
  unfold save_shareholders, skeys.
  pose proof (save_keys shareholder_key shs (shareholders d)) as Hk.
  pose proof (save_present shareholder_key shs (shareholders d)) as Hp.
  destruct (save shareholder_key shs (shareholders d)) as [coll c].
  cbn [fst snd companies shareholders financials] in *.
  refine (conj _ (conj _ (conj Hk _))); try done.
  intros H. destruct (Hp H) as [Hkeys Hc]. split; [done|].
  destruct c as [[i u]|]; [|constructor].
  subst i. by repeat constructor.
Qed.

Lemma save_financials_spec (fs : list financial) (d : db) :
  companies (save_financials fs d).1 = companies d /\
  shareholders (save_financials fs d).1 = shareholders d /\
  (forall k, k ∈ fkeys (save_financials fs d).1 <->
             k ∈ fkeys d \/ k ∈ keys financial_key fs) /\
  ((forall f, f ∈ fs -> financial_key f ∈ fkeys d) ->
   fkeys (save_financials fs d).1 = fkeys d /\
   Forall (fun l => line_inserted l = 0%nat) (save_financials fs d).2).
Proof.
  unfold save_financials, fkeys.
  pose proof (save_keys financial_key fs (financials d)) as Hk.
  pose proof (save_present financial_key fs (financials d)) as Hp.
  destruct (save financial_key fs (financials d)) as [coll c].
  cbn [fst snd companies shareholders financials] in *.
  refine (conj _ (conj _ (conj Hk _))); try done.
  intros H. destruct (Hp H) as [Hkeys Hc]. split; [done|].
  destruct c as [[i u]|]; [|constructor].
  subst i. by repeat constructor.
Qed.

End Persistence.

Lemma save_details_grows
    (details : list (list shareholder * list financial)) :
  forall d : db,
    db_le d (save_details details d).1 /\
    details_covered (save_details details d).1 details.
Proof.
  induction details as [|[shs fs] rest IH]; intros d; cbn [save_details].
  - split; [apply db_le_refl|constructor].
  - destruct (save_shareholders_spec shs d) as (Hc1 & Hf1 & Hk1 & _).
    destruct (save_shareholders shs d) as [d1 l1]. cbn [fst] in *.
    destruct (save_financials_spec fs d1) as (Hc2 & Hs2 & Hk2 & _).
    destruct (save_financials fs d1) as [d2 l2]. cbn [fst] in *.
    destruct (IH d2) as [Hle3 Hcov3].
    destruct (save_details rest d2) as [d3 l3]. cbn [fst] in *.
    assert (Hle2 : db_le d d2).
    { unfold db_le, ckeys, skeys, fkeys in *.
      rewrite Hc2, Hc1, Hs2. repeat split; [done| |].
      - intros k Hk. apply Hk1. by left.
      - intros k Hk. apply Hk2. left. unfold fkeys. by rewrite Hf1. }
    split; [by apply (db_le_trans d d2 d3)|].
    constructor; [|done]. cbn [fst snd].
    destruct Hle3 as (_ & Hs3 & Hf3). split.
    + apply Forall_forall. intros s Hs. apply Hs3.
      unfold skeys. rewrite Hs2. apply Hk1. right.
      unfold keys. by apply list_elem_of_fmap_2.
    + apply Forall_forall. intros f Hf. apply Hf3.
      apply Hk2. right. unfold keys. by apply list_elem_of_fmap_2.
Qed.

Lemma save_details_present
    (details : list (list shareholder * list financial)) :
  forall d : db,
    details_covered d details ->
    ckeys (save_details details d).1 = ckeys d /\
    skeys (save_details details d).1 = skeys d /\
    fkeys (save_details details d).1 = fkeys d /\
    Forall (fun l => line_inserted l = 0%nat) (save_details details d).2.
Proof.
  induction details as [|[shs fs] rest IH]; intros d Hcov;
    cbn [save_details]; [by repeat split|].
  inversion Hcov as [|? ? [Hshs Hfs] Hrest]; subst. cbn [fst snd] in *.
  rewrite Forall_forall in Hshs. rewrite Forall_forall in Hfs.
  destruct (save_shareholders_spec shs d) as (Hc1 & Hf1 & _ & Hp1).
  destruct (Hp1 Hshs) as [Hk1 Hl1].
  destruct (save_shareholders shs d) as [d1 l1]. cbn [fst snd] in *.
  assert (Hfs1 : forall f, f ∈ fs -> financial_key f ∈ fkeys d1).
  { intros f Hf. unfold fkeys. rewrite Hf1. by apply Hfs. }
  destruct (save_financials_spec fs d1) as (Hc2 & Hs2 & _ & Hp2).
  destruct (Hp2 Hfs1) as [Hk2 Hl2].
  destruct (save_financials fs d1) as [d2 l2]. cbn [fst snd] in *.
  assert (Hck : ckeys d2 = ckeys d) by (unfold ckeys; by rewrite Hc2, Hc1).
  assert (Hsk : skeys d2 = skeys d) by (unfold skeys; by rewrite Hs2).
  assert (Hfk : fkeys d2 = fkeys d).
  { rewrite Hk2. unfold fkeys. by rewrite Hf1. }
  assert (Hcov2 : details_covered d2 rest).
  { apply (details_covered_le d); [|done].
    unfold db_le. rewrite Hck, Hsk, Hfk. by repeat split. }
  destruct (IH d2 Hcov2) as (H1 & H2 & H3 & H4).
  destruct (save_details rest d2) as [d3 l3]. cbn [fst snd] in *.
  rewrite H1, H2, H3. repeat split; try done.
  by rewrite !Forall_app.
Qed.

(** After a pass, every record of its source has its key stored. *)
Lemma run_saves_covers (src : scraped) (d : db) :
  covered (run_saves src d).1 src.
Proof.
  unfold run_saves. destruct src as [|e src]; [by split; constructor|].
  set (src' := e :: src).
  destruct (save_companies_spec (List.map fst src') d) as (_ & _ & Hk1 & _).
  destruct (save_companies (List.map fst src') d) as [d1 l1]. cbn [fst] in *.
  destruct (save_details_grows (List.map snd src') d1) as [(Hc2 & _ & _) Hcov2].
  destruct (save_details (List.map snd src') d1) as [d2 l2]. cbn [fst] in *.
  split; [|done].
  apply Forall_forall. intros c Hc. apply Hc2, Hk1. right.
  unfold keys. by apply list_elem_of_fmap_2.
Qed.

(** A pass over a source whose keys are all stored inserts nothing and
    leaves the stored keys as they are. *)
Lemma run_saves_present (src : scraped) (d : db) :
  covered d src ->
  ckeys (run_saves src d).1 = ckeys d /\
  skeys (run_saves src d).1 = skeys d /\
  fkeys (run_saves src d).1 = fkeys d /\
  Forall (fun l => line_inserted l = 0%nat) (run_saves src d).2.
Proof.
  intros [Hcs Hdet]. unfold run_saves.
  destruct src as [|e src]; [by repeat split|].
  set (src' := e :: src) in *.
  rewrite Forall_forall in Hcs.
  destruct (save_companies_spec (List.map fst src') d) as (Hs1 & Hf1 & _ & Hp1).
  destruct (Hp1 Hcs) as [Hk1 Hl1].
  destruct (save_companies (List.map fst src') d) as [d1 l1]. cbn [fst snd] in *.
  assert (Hcov1 : details_covered d1 (List.map snd src')).
  { apply (details_covered_le d); [|done].
    unfold db_le, skeys, fkeys. rewrite Hk1, Hs1, Hf1. by repeat split. }
  destruct (save_details_present (List.map snd src') d1 Hcov1) as (H1 & H2 & H3 & H4).
  destruct (save_details (List.map snd src') d1) as [d2 l2]. cbn [fst snd] in *.
  rewrite H1, H2, H3, Hk1. unfold skeys, fkeys. rewrite Hs1, Hf1.
  repeat split; try done. by rewrite Forall_app.
Qed.

Lemma same_shareholder_keys (l1 l2 : list shareholder) :
  Forall2 same_shareholder l1 l2 ->
  keys shareholder_key l1 = keys shareholder_key l2.
Proof.
  unfold keys. induction 1 as [|s1 s2 l1 l2 (H1 & H2 & _) _ IH]; [done|].
  rewrite !fmap_cons, IH. unfold shareholder_key. by rewrite H1, H2.
Qed.

Lemma same_financial_keys (l1 l2 : list financial) :
  Forall2 same_financial l1 l2 ->
  keys financial_key l1 = keys financial_key l2.
Proof.
  unfold keys. induction 1 as [|f1 f2 l1 l2 (H1 & H2 & _) _ IH]; [done|].
  rewrite !fmap_cons, IH. unfold financial_key. by rewrite H1, H2.
Qed.

Lemma keys_covered {D K : Type} (key : D -> K) (l1 l2 : list D)
    (stored : list K) :
  keys key l1 = keys key l2 ->
  Forall (fun x => key x ∈ stored) l1 -> Forall (fun x => key x ∈ stored) l2.
Proof.
  unfold keys. intros Hk H1. apply Forall_forall. intros x Hx.
  assert (Hin : key x ∈ key <$> l1)
    by (rewrite Hk; by apply list_elem_of_fmap_2).
  apply list_elem_of_fmap in Hin as (y & -> & Hy).
  rewrite Forall_forall in H1. by apply H1.
Qed.

Lemma same_source_covered (d : db) (src1 src2 : scraped) :
  same_source src1 src2 -> covered d src1 -> covered d src2.
Proof.
  unfold covered, details_covered.
  induction 1 as [|e1 e2 src1 src2 (Hc & Hs & Hf) _ IH].
  - done.
  - rewrite !fmap_cons. intros [Hcs Hdet].
    inversion Hcs as [|? ? Hc1 Hcs']; subst.
    inversion Hdet as [|? ? [Hs1 Hf1] Hdet']; subst.
    destruct (IH (conj Hcs' Hdet')) as [IH1 IH2].
    split; constructor; try done.
    + destruct Hc as (Hcode & _). unfold company_key in *. by rewrite <- Hcode.
    + split.
      * apply (keys_covered shareholder_key e1.2.1);
          [by apply same_shareholder_keys|done].
      * apply (keys_covered financial_key e1.2.2);
          [by apply same_financial_keys|done].
Qed.

(** *** Updates of a second pass *)

(** The updates that a log reports. *)
Definition updates (log : list log_line) : nat :=
  sum_list_with line_updated log.

(** The shareholder and financial records of a source, in the order of
    the saves. *)
Definition all_shareholders (src : scraped) : list shareholder :=
  concat (List.map (fun e => e.2.1) src).
Definition all_financials (src : scraped) : list financial :=
  concat (List.map (fun e => e.2.2) src).

(** The number of [update_one] calls of a pass. *)
Definition operations (src : scraped) : nat :=
  (length src + length (all_shareholders src)
   + length (all_financials src))%nat.

(** No two records of the source share a natural key. *)
Definition keys_distinct (src : scraped) : Prop :=
  NoDup (keys company_key src.*1) /\
  NoDup (keys shareholder_key (all_shareholders src)) /\
  NoDup (keys financial_key (all_financials src)).

(** No record of the source is stored as it is: each differs from what
    the store holds, by its capture time if by nothing else. *)
Definition none_stored (d : db) (src : scraped) : Prop :=
  (forall c, c ∈ src.*1 -> c ∉ companies d) /\
  (forall s, s ∈ all_shareholders src -> s ∉ shareholders d) /\
  (forall f, f ∈ all_financials src -> f ∉ financials d).

Lemma updates_logged (mk : nat -> nat -> log_line) (n : nat) (docs : nat) :
  (forall i u, line_updated (mk i u) = u) ->
  updates (logged mk (match docs with
                      | O => None
                      | S _ => Some (0%nat, docs)
                      end)) = docs.
Proof.
  intros Hmk. destruct docs; [done|]. unfold updates. cbn.
  rewrite Hmk. lia.
Qed.

Lemma save_shareholders_all_updated (shs : list shareholder) (d : db) :
  (forall s, s ∈ shs -> shareholder_key s ∈ skeys d) ->
  (forall s, s ∈ shs -> s ∉ shareholders d) ->
  NoDup (keys shareholder_key shs) ->
  updates (save_shareholders shs d).2 = length shs /\
  (forall x, x ∈ shareholders (save_shareholders shs d).1 ->
             x ∈ shs \/ x ∈ shareholders d).
Proof.
  intros Hall Hnew Hnd. unfold save_shareholders.
  pose proof (save_all_updated shareholder_key shs (shareholders d)
                Hall Hnew Hnd) as Hc.
  pose proof (save_elem_of shareholder_key shs (shareholders d)) as He.
  destruct (save shareholder_key shs (shareholders d)) as [coll c].
  cbn [fst snd shareholders] in *. subst c. split; [|done].
  destruct shs; [done|]. unfold updates. cbn. lia.
Qed.

Lemma save_financials_all_updated (fs : list financial) (d : db) :
  (forall f, f ∈ fs -> financial_key f ∈ fkeys d) ->
  (forall f, f ∈ fs -> f ∉ financials d) ->
  NoDup (keys financial_key fs) ->
  updates (save_financials fs d).2 = length fs /\
  (forall x, x ∈ financials (save_financials fs d).1 ->
             x ∈ fs \/ x ∈ financials d).
Proof.
  intros Hall Hnew Hnd. unfold save_financials.
  pose proof (save_all_updated financial_key fs (financials d)
                Hall Hnew Hnd) as Hc.
  pose proof (save_elem_of financial_key fs (financials d)) as He.
  destruct (save financial_key fs (financials d)) as [coll c].
  cbn [fst snd financials] in *. subst c. split; [|done].
  destruct fs; [done|]. unfold updates. cbn. lia.
Qed.

Lemma save_companies_all_updated (cs : list company) (d : db) :
  (forall c, c ∈ cs -> company_key c ∈ ckeys d) ->
  (forall c, c ∈ cs -> c ∉ companies d) ->
  NoDup (keys company_key cs) ->
  updates (save_companies cs d).2 = length cs.
Proof.
  intros Hall Hnew Hnd. unfold save_companies.
  pose proof (save_all_updated company_key cs (companies d)
                Hall Hnew Hnd) as Hc.
  destruct (save company_key cs (companies d)) as [coll c].
  cbn [fst snd] in *. subst c.
  destruct cs; [done|]. unfold updates. cbn. lia.
Qed.

Lemma keys_app_disjoint {D K : Type} (key : D -> K) (l1 l2 : list D)
    (x : D) :
  NoDup (keys key (l1 ++ l2)) -> x ∈ l1 -> x ∈ l2 -> False.
Proof.
  unfold keys. rewrite fmap_app. intros Hnd H1 H2.
  apply NoDup_app in Hnd as (_ & Hdis & _).
  apply (Hdis (key x)); by apply list_elem_of_fmap_2.
Qed.

Lemma save_details_all_updated
    (details : list (list shareholder * list financial)) :
  forall d : db,
    details_covered d details ->
    NoDup (keys shareholder_key (concat (List.map fst details))) ->
    NoDup (keys financial_key (concat (List.map snd details))) ->
    (forall s, s ∈ concat (List.map fst details) -> s ∉ shareholders d) ->
    (forall f, f ∈ concat (List.map snd details) -> f ∉ financials d) ->
    updates (save_details details d).2
    = (length (concat (List.map fst details))
       + length (concat (List.map snd details)))%nat.
Proof.
  induction details as [|[shs fs] details IH]; intros d Hcov Hns Hnf Hs Hf;
    [done|].
  cbn [save_details List.map concat fst snd] in *.
  inversion Hcov as [|? ? [Hcs Hcf] Hcov']; subst. cbn [fst snd] in *.
  rewrite Forall_forall in Hcs. rewrite Forall_forall in Hcf.
  assert (Hns1 : NoDup (keys shareholder_key shs)).
  { unfold keys in *. rewrite fmap_app in Hns.
    by apply NoDup_app in Hns as (? & _ & _). }
  assert (Hnf1 : NoDup (keys financial_key fs)).
  { unfold keys in *. rewrite fmap_app in Hnf.
    by apply NoDup_app in Hnf as (? & _ & _). }
  destruct (save_shareholders_all_updated shs d) as [Hu1 He1];
    [done|intros s Hin; apply Hs, elem_of_app; by left|done|].
  destruct (save_shareholders_spec shs d) as (Hc1 & Hf1 & _ & Hp1).
  destruct (Hp1 Hcs) as [Hk1 _].
  destruct (save_shareholders shs d) as [d1 l1]. cbn [fst snd] in *.
  destruct (save_financials_all_updated fs d1) as [Hu2 He2];
    [unfold fkeys; rewrite Hf1; exact Hcf
    |intros f Hin; rewrite Hf1; apply Hf, elem_of_app; by left|done|].
  destruct (save_financials_spec fs d1) as (Hc2 & Hs2 & _ & Hp2).
  destruct Hp2 as [Hk2 _]; [unfold fkeys; rewrite Hf1; exact Hcf|].
  destruct (save_financials fs d1) as [d2 l2]. cbn [fst snd] in *.
  specialize (IH d2).
  destruct (save_details details d2) as [d3 l3]. cbn [fst snd] in *.
  unfold updates in *. rewrite !sum_list_with_app, Hu1, Hu2, IH.
  - rewrite !length_app. lia.
  - apply (details_covered_le d); [|done].
    unfold db_le, ckeys, skeys, fkeys in *.
    rewrite Hc2, Hc1, Hs2, Hk1, Hk2, Hf1. by repeat split.
  - unfold keys in *. rewrite fmap_app in Hns.
    by apply NoDup_app in Hns as (_ & _ & ?).
  - unfold keys in *. rewrite fmap_app in Hnf.
    by apply NoDup_app in Hnf as (_ & _ & ?).
  - intros s Hin Hst. rewrite Hs2 in Hst.
    destruct (He1 s Hst) as [Hshs|Hold].
    + by apply (keys_app_disjoint shareholder_key _ _ s Hns).
    + apply (Hs s); [apply elem_of_app; by right|done].
  - intros f Hin Hst.
    destruct (He2 f Hst) as [Hfs|Hold].
    + by apply (keys_app_disjoint financial_key _ _ f Hnf).
    + rewrite Hf1 in Hold. apply (Hf f); [apply elem_of_app; by right|done].
Qed.

(** A pass over a source whose keys are all stored and distinct, and
    whose records are not stored as they are, counts every operation as an
    update. *)
Lemma run_saves_all_updated (src : scraped) (d : db) :
  covered d src -> keys_distinct src -> none_stored d src ->
  updates (run_saves src d).2 = operations src.
Proof.
  intros [Hcs Hdet] (Hn1 & Hn2 & Hn3) (Ho1 & Ho2 & Ho3).
  unfold run_saves, operations, all_shareholders, all_financials in *.
  destruct src as [|e src]; [done|]. set (src' := e :: src) in *.
  rewrite Forall_forall in Hcs.
  pose proof (save_companies_all_updated (List.map fst src') d Hcs Ho1 Hn1)
    as Hu1.
  destruct (save_companies_spec (List.map fst src') d) as (Hs1 & Hf1 & _ & Hp1).
  destruct (Hp1 Hcs) as [Hk1 _].
  destruct (save_companies (List.map fst src') d) as [d1 l1].
  cbn [fst snd] in *.
  assert (Hmap1 : List.map fst (List.map snd src')
                  = List.map (fun e => e.2.1) src') by apply List.map_map.
  assert (Hmap2 : List.map snd (List.map snd src')
                  = List.map (fun e => e.2.2) src') by apply List.map_map.
  pose proof (save_details_all_updated (List.map snd src') d1) as Hu2.
  rewrite Hmap1, Hmap2 in Hu2.
  destruct (save_details (List.map snd src') d1) as [d2 l2].
  cbn [fst snd] in *.
  unfold updates in *. rewrite sum_list_with_app, Hu1, Hu2.
  - rewrite length_map. lia.
  - apply (details_covered_le d); [|done].
    unfold db_le, skeys, fkeys. rewrite Hk1, Hs1, Hf1. by repeat split.
  - done.
  - done.
  - intros s Hin. rewrite Hs1. by apply Ho2.
  - intros f Hin. rewrite Hf1. by apply Ho3.
Qed.

(** The reading of C8 on updates: saving the same source data a second
    time counts every operation as an update. *)
Definition resave_all_updates (d0 : db) (src : scraped) : Prop :=
  updates (run_saves src (run_saves src d0).1).2 = operations src.

(** C8, as amended.  Run the writes of the pipeline on a source, then
    again on a second capture of the same source data (the same records,
    captured at other times or not): in the second run every [update_one]
    finds a record with its natural key, so every "inserted" counter that
    is logged is 0, the three collections keep their number of documents,
    and the natural keys stored stay as they were.  An operation counts
    as an update when it changes the stored record: when no two records
    of the second capture share a natural key and none is stored as it
    is, every operation of the second run is counted as updated. *)
Theorem upsert_idempotent (d0 : db) (src1 src2 : scraped) :
  same_source src1 src2 ->
  let d1 := (run_saves src1 d0).1 in
  covered d1 src2 /\
  Forall (fun l => line_inserted l = 0%nat) (run_saves src2 d1).2 /\
  count_documents (run_saves src2 d1).1 = count_documents d1 /\
  ckeys (run_saves src2 d1).1 = ckeys d1 /\
  skeys (run_saves src2 d1).1 = skeys d1 /\
  fkeys (run_saves src2 d1).1 = fkeys d1 /\
  (keys_distinct src2 -> none_stored d1 src2 ->
   updates (run_saves src2 d1).2 = operations src2).
Proof.
  intros Hsame d1.
  assert (Hcov : covered d1 src2).
  { apply (same_source_covered d1 src1); [done|]. apply run_saves_covers. }
  destruct (run_saves_present src2 d1 Hcov) as (H1 & H2 & H3 & H4).
  refine (conj Hcov (conj H4 (conj _ (conj H1 (conj H2 (conj H3 _)))))).
  - unfold count_documents.
    by rewrite (keys_length company_key _ _ H1),
               (keys_length shareholder_key _ _ H2),
               (keys_length financial_key _ _ H3).
  - by apply run_saves_all_updated.
Qed.

Definition empty_db : db := Db [] [] [].

(** One company with two shareholders and one metric, captured at time
    [t]. *)
Definition sample_source (t : Z) : scraped :=
  [ (Company (lit "BT") (lit "Banque de Tunisie") (lit "Acheter")
             (lit "12,5%") (lit "https://www.ilboursa.com/marches/societe/BT")
             t,
     ([ Shareholder (lit "BT") (lit "CIC") (lit "35,33%") t;
        Shareholder (lit "BT") (lit "Flottant") (lit "64,67%") t ],
      [ Financial (lit "BT") (lit "PNB")
                  [(lit "2023", lit "420"); (lit "2024", lit "455")] t ])) ].

Example run_saves_twice_log :
  (run_saves (sample_source 100) empty_db).2
  = [LogCompanies 1 0; LogShareholders 2 0; LogFinancials 1 0] /\
  (run_saves (sample_source 200) (run_saves (sample_source 100) empty_db).1).2
  = [LogCompanies 0 1; LogShareholders 0 2; LogFinancials 0 1].
Proof. split; vm_compute; reflexivity. Qed.

(** C8, counterexample.  The same records saved a second time, capture
    times included: every operation of the second pass finds its record
    and changes nothing, and the log reads 0 inserted, 0 updated. *)
Lemma resave_registers_no_update :
  ~ resave_all_updates empty_db (sample_source 100).
Proof. unfold resave_all_updates. vm_compute. discriminate. Qed.

Example resave_log :
  (run_saves (sample_source 100) (run_saves (sample_source 100) empty_db).1).2
  = [LogCompanies 0 0; LogShareholders 0 0; LogFinancials 0 0].
Proof. vm_compute. reflexivity. Qed.

Lemma upsert_idempotent_witness :
  Forall (fun l => line_inserted l = 0%nat)
         (run_saves (sample_source 200)
                    (run_saves (sample_source 100) empty_db).1).2 /\
  count_documents
    (run_saves (sample_source 200)
               (run_saves (sample_source 100) empty_db).1).1
  = count_documents (run_saves (sample_source 100) empty_db).1 /\
  updates (run_saves (sample_source 200)
                     (run_saves (sample_source 100) empty_db).1).2
  = 4%nat.
Proof.
  assert (Hsame : same_source (sample_source 100) (sample_source 200)).
  { repeat constructor. }
  pose proof (upsert_idempotent empty_db (sample_source 100)
                (sample_source 200) Hsame) as (_ & H1 & H2 & _ & _ & _ & H3).
  split; [exact H1|]. split; [exact H2|].
  apply H3.
  - refine (conj _ (conj _ _)); apply (bool_decide_unpack _);
      vm_compute; exact I.
  - refine (conj _ (conj _ _)); intros x Hx Hst;
      vm_compute in Hx; vm_compute in Hst;
      repeat (apply elem_of_cons in Hx as [->|Hx];
              [repeat (apply elem_of_cons in Hst as [Hst|Hst];
                       [discriminate Hst|]);
               inversion Hst|]);
      inversion Hx.
Defined.

(** ** A page, end to end *)

Definition cell (children : list node) : node := Tag (lit "td") [] children.

Definition row (href title icon pot : string) : node :=
  Tag (lit "tr") []
    [ cell [ Tag (lit "a") [(lit "href", lit href)] [Text (lit title)] ];
      cell [ Tag (lit "img") [(lit "src", lit icon)] [] ];
      cell [ Text (lit pot) ] ].

(** Four rows: a BUY, a SELL, a second row for the first asset, and a row
    whose image is not an action icon. *)
Definition sample_page : node :=
  Tag (lit "[document]") []
    [ Tag (lit "table") []
        [ row "conseil/bt" " Banque de Tunisie " "/images/f_1b.png" "+12,5 %";
          row "conseil/sfbt" "SFBT" "/images/f_5b.png" "-3.2 %";
          row "conseil/bt" "Banque de Tunisie" "/images/f_3b.png" "1%";
          row "conseil/xyz" "Sans avis" "/images/logo.png" "4%" ] ].

Example parse_synthese_sample_page :
  parse_synthese sample_page
  = [ Item (lit "BT") (lit "Banque de Tunisie") BUY (Prim2SF 12.5);
      Item (lit "SFBT") (lit "SFBT") SELL (Prim2SF (-3.2)) ].
Proof. vm_compute. reflexivity. Qed.

Example format_sample_page :
  format_items_sorted (parse_synthese sample_page)
  = lit "Banque de Tunisie (BT) " ++ [EM_DASH] ++ lit " +12.50%" ++ [NL] ++
    lit "SFBT (SFBT) " ++ [EM_DASH] ++ lit " -3.20%".
Proof. vm_compute. reflexivity. Qed.

Example scheduled_gets_sample_page :
  (gets 300 [0; 10; 299; 300; 301]%Q initial_cache
        (Net 0 [Page sample_page; Failure; Page no_link_page])).1.1
  = [ Returned (parse_synthese sample_page);   (* fetched *)
      Returned (parse_synthese sample_page);   (* cached *)
      Returned (parse_synthese sample_page);   (* cached *)
      Returned (parse_synthese sample_page);   (* expired, request failed *)
      Returned [] ] /\                         (* fetched *)
  fetch_calls
    (gets 300 [0; 10; 299; 300; 301]%Q initial_cache
          (Net 0 [Page sample_page; Failure; Page no_link_page])).2
  = 3%nat.
Proof. split; vm_compute; reflexivity. Qed.

(** Two links to "conseil/été" and "conseil/ÉTÉ" with the same text: the
    codes are both "ÉTÉ", and the second link is a repeat of the first. *)
Definition accented_page : node :=
  Tag (lit "[document]") []
    [ Tag (lit "a") [(lit "href", lit "conseil/" ++ [233; 116; 233]%N)]
          [Text (lit "Ete")];
      Tag (lit "a") [(lit "href", lit "conseil/" ++ [201; 84; 201]%N)]
          [Text (lit "Ete")];
      Tag (lit "img") [(lit "src", lit "f_1b.png")] [] ].

Example parse_synthese_accented_page :
  parse_synthese accented_page
  = [ Item [201; 84; 201]%N (lit "Ete") BUY zero ].
Proof. vm_compute. reflexivity. Qed.

(** "/WHAT_TO_KEEP" written with the Kelvin sign (U+212A) for its "K":
    in lower case it is the command, and the KEEP list is asked for. *)
Example cmd_list_handler_kelvin_sign :
  (cmd_list_handler 300 (lit "/WHAT_TO_" ++ [8490]%N ++ lit "EEP now") 0
                    initial_cache (Net 0 [Page sample_page])).1.1
  = Replied [lit "No items for KEEP."].
Proof. vm_compute. reflexivity. Qed.

(** * Further properties *)

(** ** More on message splitting *)

Section SplittingMore.

Variable limit : Z.

Lemma pack_lines_within (lines : list str) :
  forall (parts : list str) (cur : str),
    Forall (fun l => len l <= limit) lines ->
    Forall (fun p => len p <= limit) parts ->
    len cur <= limit ->
    Forall (fun p => len p <= limit) (pack_lines limit lines parts cur).1 /\
    len (pack_lines limit lines parts cur).2 <= limit.
Proof.
  induction lines as [|line rest IH]; intros parts cur Hlines Hparts Hcur;
    cbn [pack_lines]; [done|].
  inversion Hlines as [|? ? Hline Hrest]; subst.
  destruct (len cur + len line >? limit) eqn:Hcmp.
  - apply IH; [done| |done]. apply Forall_app. split; [done|].
    by constructor.
  - apply IH; [done|done|]. rewrite len_app.
    rewrite Z.gtb_ltb in Hcmp. apply Z.ltb_ge in Hcmp. lia.
Qed.

Lemma pack_lines_nonempty (lines : list str) :
  forall (parts : list str) (cur : str),
    Forall (fun l => l <> []) lines ->
    Forall (fun p => p <> []) parts ->
    cur <> [] ->
    Forall (fun p => p <> []) (pack_lines limit lines parts cur).1 /\
    (pack_lines limit lines parts cur).2 <> [].
Proof.
  induction lines as [|line rest IH]; intros parts cur Hlines Hparts Hcur;
    cbn [pack_lines]; [done|].
  inversion Hlines as [|? ? Hline Hrest]; subst.
  destruct (len cur + len line >? limit).
  - apply IH; [done| |done]. apply Forall_app. split; [done|].
    by constructor.
  - apply IH; [done|done|]. by destruct cur.
Qed.

(** Once a part has been closed, it stays the first part. *)
Lemma pack_lines_head (lines : list str) :
  forall (p : str) (parts : list str) (cur : str),
    exists ps : list str,
      (pack_lines limit lines (p :: parts) cur).1 = p :: ps.
Proof.
  induction lines as [|line rest IH]; intros p parts cur; cbn [pack_lines].
  - by exists parts.
  - destruct (len cur + len line >? limit).
    + apply (IH p (parts ++ [cur]) line).
    + apply IH.
Qed.

End SplittingMore.

(** X1.  When no line of the text is longer than the limit, no part is. *)
Theorem split_parts_within_limit (text : str) (limit : Z) :
  Forall (fun l => len l <= limit) (splitlines_keepends text) ->
  Forall (fun p => len p <= limit) (split_long_message text limit).
Proof.
  intros Hlines. unfold split_long_message.
  destruct (len text <=? limit) eqn:Hle.
  - apply Z.leb_le in Hle. by repeat constructor.
  - pose proof (splitlines_nonempty text) as Hne.
    destruct (splitlines_keepends text) as [|l1 rest] eqn:Hsplit.
    + cbn [pack_lines]. constructor.
    + assert (H0 : len [] <= limit).
      { inversion Hlines as [|? ? H1 _]; subst.
        unfold len in *. simpl. lia. }
      destruct (pack_lines_within limit (l1 :: rest) [] [] Hlines
                  (List.Forall_nil _) H0) as [Hparts Hcur].
      destruct (pack_lines limit (l1 :: rest) [] []) as [parts cur].
      cbn [fst snd] in *. destruct cur; [done|].
      apply Forall_app. split; [done|]. by constructor.
Qed.

Lemma split_parts_within_limit_witness :
  Forall (fun p => len p <= 10) (split_long_message five_lines 10).
Proof.
  apply split_parts_within_limit.
  vm_compute. repeat (constructor; [discriminate|]). constructor.
Defined.

(** X2.  When the first line of the text is longer than the limit, the
    first part returned is the empty string. *)
Theorem split_first_part_empty (text : str) (limit : Z) (l1 : str)
    (rest : list str) :
  splitlines_keepends text = l1 :: rest ->
  limit < len l1 ->
  exists ps : list str, split_long_message text limit = [] :: ps.
Proof.
  intros Hsplit Hlong.
  pose proof (concat_splitlines text) as Htext. rewrite Hsplit in Htext.
  assert (Hlen : limit < len text).
  { rewrite <- Htext. cbn [concat]. rewrite len_app. unfold len in *. lia. }
  unfold split_long_message.
  destruct (len text <=? limit) eqn:Hle; [apply Z.leb_le in Hle; lia|].
  rewrite Hsplit. cbn [pack_lines].
  rewrite gtb_true by (unfold len in *; simpl; lia).
  destruct (pack_lines_head limit rest [] [] l1) as [ps Hps].
  cbn [app].
  match goal with
  | |- context [match ?t with _ => _ end] => destruct t as [parts cur] eqn:E
  end.
  cbn [fst] in Hps. subst parts.
  destruct cur; eexists; reflexivity.
Qed.

Lemma split_first_part_empty_witness :
  exists ps : list str,
    split_long_message (lit "aaaaa" ++ [NL] ++ lit "b") 3 = [] :: ps.
Proof.
  apply (split_first_part_empty _ 3 (lit "aaaaa" ++ [NL]) [lit "b"]).
  - reflexivity.
  - vm_compute. reflexivity.
Defined.

(** X3.  For a text that is not empty and whose first line is within the
    limit, no part is empty. *)
Theorem split_no_empty_part (text : str) (limit : Z) (l1 : str)
    (rest : list str) :
  splitlines_keepends text = l1 :: rest ->
  len l1 <= limit ->
  Forall (fun p => p <> []) (split_long_message text limit).
Proof.
  intros Hsplit Hfit.
  pose proof (splitlines_nonempty text) as Hne. rewrite Hsplit in Hne.
  inversion Hne as [|? ? Hl1 Hrest]; subst.
  unfold split_long_message. destruct (len text <=? limit).
  - constructor; [|constructor]. intros ->. discriminate Hsplit.
  - rewrite Hsplit. cbn [pack_lines].
    rewrite gtb_false by (unfold len in *; simpl; lia).
    destruct (pack_lines_nonempty limit rest [] ([] ++ l1) Hrest
                (List.Forall_nil _) Hl1) as [Hparts Hcur].
    destruct (pack_lines limit rest [] ([] ++ l1)) as [parts cur].
    cbn [fst snd] in *. destruct cur; [done|].
    apply Forall_app. split; [done|]. by constructor.
Qed.

Lemma split_no_empty_part_witness :
  Forall (fun p => p <> []) (split_long_message five_lines 10).
Proof.
  apply (split_no_empty_part five_lines 10 (lit "aa" ++ [NL])
           [lit "bb" ++ [NL]; lit "cc" ++ [NL]; lit "dd" ++ [NL]; lit "e"]).
  - reflexivity.
  - vm_compute. discriminate.
Defined.

(** ** Buckets and listings *)

(** The bucket of a key. *)
Lemma group_by_action_key (items : list item) (a : action) :
  a ∈ GROUP_KEYS ->
  group_by_action items a
  = List.filter (fun it => bool_decide (act it = a)) items.
Proof.
  intros Ha. unfold group_by_action. by rewrite bool_decide_eq_true_2.
Qed.

Lemma group_by_action_sublist (items : list item) (a : action) :
  group_by_action items a `sublist_of` items.
Proof.
  unfold group_by_action.
  destruct (bool_decide (a ∈ GROUP_KEYS)); [|apply sublist_nil_l].
  induction items as [|it items IH]; [done|].
  cbn [List.filter]. destruct (bool_decide (act it = a)).
  - by apply sublist_skip.
  - by apply sublist_cons.
Qed.

Lemma group_by_action_elem_of (items : list item) (a : action) (it : item) :
  it ∈ group_by_action items a <->
  it ∈ items /\ act it = a /\ a ∈ GROUP_KEYS.
Proof.
  unfold group_by_action.
  destruct (bool_decide_reflect (a ∈ GROUP_KEYS)) as [Ha|Ha].
  - split.
    + intros H. apply list_elem_of_In, filter_In in H as [H1 H2].
      apply list_elem_of_In in H1. by apply bool_decide_eq_true in H2.
    + intros (H1 & H2 & _). apply list_elem_of_In, filter_In.
      split; [by apply list_elem_of_In|by apply bool_decide_eq_true].
  - split; [intros H; inversion H|tauto].
Qed.

Lemma filter_split (P Q : item -> bool) (items : list item) :
  (forall it : item, P it = true -> Q it = false) ->
  Permutation (List.filter P items ++ List.filter Q items)
              (List.filter (fun it => P it || Q it) items).
Proof.
  intros Hpq. induction items as [|it items IH]; [done|].
  cbn [List.filter]. destruct (P it) eqn:Hp.
  - rewrite (Hpq it Hp). cbn [orb app]. by constructor.
  - cbn [orb]. destruct (Q it); [|done].
    rewrite <- Permutation_middle. by constructor.
Qed.

(** The buckets of keys that are all different, put one after the other,
    are the items whose action is a key, rearranged. *)
Lemma buckets_perm (items : list item) (ks : list action) :
  NoDup ks ->
  Permutation
    (flat_map (fun k => List.filter (fun it => bool_decide (act it = k))
                                    items) ks)
    (List.filter (fun it => bool_decide (act it ∈ ks)) items).
Proof.
  induction 1 as [|k ks Hk Hnd IH]; cbn [flat_map].
  - induction items as [|it items IHi]; [done|]. cbn [List.filter].
    rewrite bool_decide_eq_false_2 by apply not_elem_of_nil. exact IHi.
  - rewrite IH, filter_split.
    + erewrite List.filter_ext; [done|]. intros it. cbn beta.
      destruct (bool_decide_reflect (act it = k)) as [->|Hne].
      * symmetry. apply bool_decide_eq_true_2. by left.
      * cbn [orb]. apply bool_decide_ext. rewrite elem_of_cons. tauto.
    + intros it Hit. apply bool_decide_eq_true in Hit as ->.
      by apply bool_decide_eq_false_2.
Qed.

Lemma group_keys_distinct : NoDup GROUP_KEYS.
Proof. apply (bool_decide_unpack _). vm_compute. exact I. Qed.

Lemma buckets_of_keys (items : list item) :
  Permutation (group_by_action items BUY ++ group_by_action items SELL ++
               group_by_action items KEEP ++
               group_by_action items TAKE_PROFIT)
              (List.filter (fun it => bool_decide (act it ∈ GROUP_KEYS))
                           items).
Proof.
  rewrite <- (buckets_perm items GROUP_KEYS group_keys_distinct).
  unfold GROUP_KEYS. cbn [flat_map]. rewrite app_nil_r.
  rewrite !group_by_action_key by (unfold GROUP_KEYS; set_solver).
  done.
Qed.

(** X4.  The four buckets of [group_by_action] split the items that have
    one of the four actions: together they are a rearrangement of these
    items, every other item being dropped; each bucket keeps the order of
    the list, and an item is in the bucket of its action and in no other.
    Nothing is dropped from what [parse_synthese] extracts. *)
Theorem group_by_action_partition (items : list item) :
  Permutation (group_by_action items BUY ++ group_by_action items SELL ++
               group_by_action items KEEP ++
               group_by_action items TAKE_PROFIT)
              (List.filter (fun it => bool_decide (act it ∈ GROUP_KEYS))
                           items) /\
  (forall a : action, group_by_action items a `sublist_of` items) /\
  (forall (a : action) (it : item),
     it ∈ group_by_action items a <->
     it ∈ items /\ act it = a /\ a ∈ GROUP_KEYS) /\
  (forall d : node,
     Permutation (group_by_action (parse_synthese d) BUY ++
                  group_by_action (parse_synthese d) SELL ++
                  group_by_action (parse_synthese d) KEEP ++
                  group_by_action (parse_synthese d) TAKE_PROFIT)
                 (parse_synthese d)).
Proof.
  refine (conj (buckets_of_keys items) (conj _ (conj _ _))).
  - intros a. apply group_by_action_sublist.
  - intros a it. apply group_by_action_elem_of.
  - intros d. rewrite buckets_of_keys.
    pose proof (parse_synthese_actions d) as Hact.
    induction Hact as [|it l Hit _ IH]; [done|].
    cbn [List.filter]. rewrite bool_decide_eq_true_2 by exact Hit.
    by constructor.
Qed.

(** X5.  A bucket that already stands in descending order of potential
    is listed in that order. *)
Theorem sorted_desc_descending (items : list item) :
  Sorted not_below items -> sorted_desc items = items.
Proof.
  induction 1 as [|x l Hs IH Hhd]; [done|].
  cbn [sorted_desc fold_right]. fold (sorted_desc l). rewrite IH.
  destruct Hhd as [|y l' Hxy]; [done|].
  cbn [insert_desc]. unfold not_below in Hxy. by rewrite Hxy.
Qed.

Lemma sorted_desc_descending_witness :
  sorted_desc [ Item (lit "C") (lit "Gamma") BUY (Prim2SF 10.0);
                Item (lit "A") (lit "Alpha") BUY (Prim2SF 5.0);
                Item (lit "D") (lit "Delta") BUY (Prim2SF 5.0);
                Item (lit "B") (lit "Beta") BUY (Prim2SF (-2.0)) ]
  = [ Item (lit "C") (lit "Gamma") BUY (Prim2SF 10.0);
      Item (lit "A") (lit "Alpha") BUY (Prim2SF 5.0);
      Item (lit "D") (lit "Delta") BUY (Prim2SF 5.0);
      Item (lit "B") (lit "Beta") BUY (Prim2SF (-2.0)) ].
Proof.
  apply sorted_desc_descending.
  repeat constructor.
Defined.

Lemma no_nan_group (items : list item) (a : action) :
  no_nan items -> no_nan (group_by_action items a).
Proof.
  unfold no_nan. rewrite !Forall_forall. intros H it Hit.
  apply H. by apply group_by_action_elem_of in Hit as [Hit _].
Qed.

(** X6.  Whatever the page, each bucket of the extraction is listed in
    descending order of potential, signals of equal potential in the
    order of the page: the extractor never yields a NaN, so the sort is
    never handed one. *)
Theorem extraction_listing_sorted (d : node) (a : action) :
  no_nan (group_by_action (parse_synthese d) a) /\
  Permutation (sorted_desc (group_by_action (parse_synthese d) a))
              (group_by_action (parse_synthese d) a) /\
  StronglySorted not_below
    (sorted_desc (group_by_action (parse_synthese d) a)) /\
  (forall v : float,
     ties v (sorted_desc (group_by_action (parse_synthese d) a))
     = ties v (group_by_action (parse_synthese d) a)).
Proof.
  assert (Hn : no_nan (group_by_action (parse_synthese d) a))
    by apply no_nan_group, parse_synthese_no_nan.
  refine (conj Hn (conj _ (conj _ _))).
  - apply sorted_desc_perm.
  - by apply sorted_desc_sorted.
  - intros v. by apply ties_sorted_desc.
Qed.

(** ** More on the cache *)

(** X7.  A call of [scrape_with_cache] makes at most one request.  The
    list it returns is the one the cache holds afterwards; the cache is
    otherwise as before or holds the list just fetched, stamped with the
    time of the call.  The call raises only when its request failed with
    no list, or an empty one, in the cache; it then leaves the cache as it
    was. *)
Theorem scrape_with_cache_effects (ttl : Z) (now : Q) (c : cache) (w : net) :
  (fetch_calls (scrape_with_cache ttl now c w).2 = fetch_calls w \/
   fetch_calls (scrape_with_cache ttl now c w).2 = S (fetch_calls w)) /\
  match (scrape_with_cache ttl now c w).1.1 with
  | Returned items =>
      data (scrape_with_cache ttl now c w).1.2 = Some items /\
      ((scrape_with_cache ttl now c w).1.2 = c \/
       (scrape_with_cache ttl now c w).1.2 = Cache now (Some items))
  | Raised =>
      (scrape_with_cache ttl now c w).1.2 = c /\
      truthy (data c) = false /\
      next_fails w /\
      fetch_calls (scrape_with_cache ttl now c w).2 = S (fetch_calls w)
  end.
Proof.
  unfold scrape_with_cache, fetch_page, next_fails.
  destruct c as [t0 [[|it items]|]]; cbn [data truthy andb default].
  - destruct (replies w) as [|[d|] rest]; cbn [fst snd fetch_calls data];
      auto.
  - destruct (fresh ttl now _); cbn [fst snd fetch_calls data]; [auto|].
    destruct (replies w) as [|[d|] rest]; cbn [fst snd fetch_calls data];
      auto.
  - destruct (replies w) as [|[d|] rest]; cbn [fst snd fetch_calls data];
      auto.
Qed.

(** ** The scheduled job *)

Lemma pack_lines_cur_nonempty (limit : Z) (lines : list str) :
  forall (parts : list str) (cur : str),
    Forall (fun l => l <> []) lines -> cur <> [] ->
    (pack_lines limit lines parts cur).2 <> [].
Proof.
  induction lines as [|line rest IH]; intros parts cur Hlines Hcur;
    cbn [pack_lines]; [done|].
  inversion Hlines; subst.
  destruct (len cur + len line >? limit); apply IH; try done.
  by destruct cur.
Qed.

(** A text that is not empty gives at least one part. *)
Lemma split_long_message_nonempty (text : str) (limit : Z) :
  text <> [] -> split_long_message text limit <> [].
Proof.
  intros Htext. unfold split_long_message.
  destruct (len text <=? limit); [done|].
  pose proof (splitlines_nonempty text) as Hne.
  pose proof (concat_splitlines text) as Hcat.
  destruct (splitlines_keepends text) as [|l1 rest]; [by subst text|].
  inversion Hne as [|? ? Hl1 Hrest]; subst. cbn [pack_lines].
  assert (Hcur : forall (parts : list str) (cur : str),
             cur <> [] ->
             match pack_lines limit rest parts cur with
             | (ps, []) => ps
             | (ps, (_ :: _) as c) => ps ++ [c]
             end <> []).
  { intros parts cur Hc.
    pose proof (pack_lines_cur_nonempty limit rest parts cur Hrest Hc) as H.
    destruct (pack_lines limit rest parts cur) as [ps [|c0 c]]; [done|].
    by destruct ps. }
  destruct (len [] + len l1 >? limit); apply Hcur; by destruct l1.
Qed.

Lemma notification_messages_nonempty (stamp : str) (items : list item) :
  notification_messages stamp items <> [].
Proof.
  unfold notification_messages.
  destruct (group_by_action items BUY), (group_by_action items SELL);
    [done| | |]; apply split_long_message_nonempty; done.
Qed.

(** X8.  The scheduled job sends nothing, makes no request and leaves the
    cache alone on Saturday and Sunday.  On the other days it sends
    nothing exactly when the scrape raises, and otherwise at least one
    message; the cache and the network end as [scrape_with_cache] leaves
    them. *)
Theorem scheduled_job_sends (ttl : Z) (weekday : nat) (stamp : str)
    (now : Q) (c : cache) (w : net) :
  ((5 <= weekday)%nat ->
   send_buy_sell_notification ttl weekday stamp now c w = ([], c, w)) /\
  ((weekday < 5)%nat ->
   ((send_buy_sell_notification ttl weekday stamp now c w).1.1 = [] <->
    (scrape_with_cache ttl now c w).1.1 = Raised) /\
   (send_buy_sell_notification ttl weekday stamp now c w).1.2
   = (scrape_with_cache ttl now c w).1.2 /\
   (send_buy_sell_notification ttl weekday stamp now c w).2
   = (scrape_with_cache ttl now c w).2).
Proof.
  unfold send_buy_sell_notification. split.
  - intros H. by rewrite (proj2 (Nat.leb_le 5 weekday) H).
  - intros H. rewrite (proj2 (Nat.leb_gt 5 weekday) H).
    destruct (scrape_with_cache ttl now c w) as [[[items|] c'] w'];
      cbn [fst snd]; [|done].
    split; [|done]. split; [|done].
    intros Hnil. by apply notification_messages_nonempty in Hnil.
Qed.

Lemma scheduled_job_sends_witness :
  send_buy_sell_notification 300 5 (lit "2026-01-03 09:30 CET") 0
    initial_cache (Net 0 [Page sample_page])
  = ([], initial_cache, Net 0 [Page sample_page]) /\
  ((send_buy_sell_notification 300 0 (lit "2026-01-05 09:30 CET") 0
      initial_cache (Net 0 [Failure])).1.1 = [] <->
   (scrape_with_cache 300 0 initial_cache (Net 0 [Failure])).1.1 = Raised).
Proof.
  split.
  - apply (proj1 (scheduled_job_sends 300 5 (lit "2026-01-03 09:30 CET") 0
                    initial_cache (Net 0 [Page sample_page]))).
    lia.
  - apply (proj2 (scheduled_job_sends 300 0 (lit "2026-01-05 09:30 CET") 0
                    initial_cache (Net 0 [Failure]))).
    lia.
Defined.

Lemma group_by_action_filter (P : item -> bool) (items : list item)
    (a : action) :
  (forall it : item, act it = a -> P it = true) ->
  group_by_action (List.filter P items) a = group_by_action items a.
Proof.
  intros HP. unfold group_by_action.
  destruct (bool_decide (a ∈ GROUP_KEYS)); [|done].
  induction items as [|it items IH]; [done|]. cbn [List.filter].
  destruct (P it) eqn:HPit; cbn [List.filter].
  - by rewrite IH.
  - rewrite IH. rewrite bool_decide_eq_false_2; [done|].
    intros Ha. rewrite (HP it Ha) in HPit. discriminate.
Qed.

(** X9.  The scheduled messages are those of the BUY and SELL signals
    alone: removing every KEEP and TAKE PROFIT signal from the list
    changes nothing. *)
Theorem notification_buy_sell_only (stamp : str) (items : list item) :
  notification_messages stamp
    (List.filter (fun it => bool_decide (act it = BUY) ||
                            bool_decide (act it = SELL)) items)
  = notification_messages stamp items.
Proof.
  unfold notification_messages.
  rewrite !group_by_action_filter; [done| |].
  - intros it ->. reflexivity.
  - intros it ->. reflexivity.
Qed.

(** ** The command handler *)

Section Blank.

Lemma words_from_nil (s : str) :
  forall cur : str, words_from cur s = [] <-> cur = [] /\ all_space s.
Proof.
  induction s as [|c s IH]; intros cur; cbn [words_from].
  - destruct cur; split; try done; [by intros _; split; [|constructor]|].
    by intros [? _].
  - destruct (isspace c) eqn:Hc.
    + destruct cur as [|c0 cur].
      * rewrite IH. split; intros [H1 H2]; (split; [done|]).
        -- by constructor.
        -- by inversion H2.
      * split; [done|]. by intros [? _].
    + rewrite IH. split.
      * intros [H _]. by destruct cur.
      * intros [_ H]. inversion H; subst. congruence.
Qed.

Lemma lstrip_all_space (s : str) : all_space (lstrip s) <-> all_space s.
Proof.
  induction s as [|c s IH]; [done|]. cbn [lstrip].
  destruct (isspace c) eqn:Hc; [|done].
  rewrite IH. split; intros H; [by constructor|by inversion H].
Qed.

Lemma all_space_rev (s : str) : all_space (rev s) <-> all_space s.
Proof.
  unfold all_space. split; intros H.
  - apply List.Forall_rev in H. by rewrite rev_involutive in H.
  - by apply List.Forall_rev.
Qed.

Lemma strip_all_space (s : str) : all_space (strip s) <-> all_space s.
Proof.
  unfold strip, rstrip.
  by rewrite all_space_rev, lstrip_all_space, all_space_rev,
             lstrip_all_space.
Qed.

Lemma words_strip_nil (s : str) : words (strip s) = [] <-> all_space s.
Proof.
  unfold words. rewrite words_from_nil, strip_all_space. tauto.
Qed.

End Blank.

(** X10.  The handler raises [IndexError] exactly on a text made of blanks
    only.  On any other text it replies with at least one message,
    whatever the cache and the network do; when the first word, in lower
    case, is none of the four commands (as with "/what_to_buy@bot"), the
    reply is "Unknown command." and no request is made. *)
Theorem cmd_list_handler_answers (ttl : Z) (text : str) (now : Q)
    (c : cache) (w : net) :
  ((cmd_list_handler ttl text now c w).1.1 = IndexError <->
   all_space text) /\
  (forall msgs : list str,
     (cmd_list_handler ttl text now c w).1.1 = Replied msgs -> msgs <> []) /\
  (forall (first : str) (rest : list str),
     words (strip text) = first :: rest ->
     lookup_action (lower first) COMMANDS = None ->
     cmd_list_handler ttl text now c w
     = (Replied [lit "Unknown command."], c, w)).
Proof.
  unfold cmd_list_handler.
  pose proof (words_strip_nil text) as Hblank.
  destruct (words (strip text)) as [|first rest].
  - split; [|split]; [|done|done].
    cbn [fst]. split; [intros _; by apply Hblank|done].
  - assert (Hnb : ~ all_space text) by (intros H; by apply Hblank in H).
    split; [|split].
    + split; [|done].
      destruct (lookup_action (lower first) COMMANDS) as [a|]; [|done].
      destruct (scrape_with_cache ttl now c w) as [[[items|] c'] w'];
        [|done].
      by destruct (group_by_action items a).
    + intros msgs.
      destruct (lookup_action (lower first) COMMANDS) as [a|];
        [|by intros [= <-]].
      destruct (scrape_with_cache ttl now c w) as [[[items|] c'] w'];
        [|by intros [= <-]].
      destruct (group_by_action items a) as [|it lst]; [by intros [= <-]|].
      cbn [fst]. intros [= <-]. apply split_long_message_nonempty.
      by destruct a.
    + intros first' rest' [= <- <-] Hnone. by rewrite Hnone.
Qed.

Lemma cmd_list_handler_answers_witness :
  cmd_list_handler 300 (lit "/what_to_buy@bourse_bot") 0 initial_cache
    (Net 0 [Page sample_page])
  = (Replied [lit "Unknown command."], initial_cache,
     Net 0 [Page sample_page]) /\
  [lit "Error fetching data. Try again later."] <> [].
Proof.
  split.
  - apply (proj2 (proj2 (cmd_list_handler_answers 300
                           (lit "/what_to_buy@bourse_bot") 0 initial_cache
                           (Net 0 [Page sample_page])))
             (lit "/what_to_buy@bourse_bot") []);
      reflexivity.
  - apply (proj1 (proj2 (cmd_list_handler_answers 300
                           (lit "/what_to_sell") 0 initial_cache
                           (Net 0 [Failure])))).
    reflexivity.
Defined.

(** ** More on upserts *)

Section CollectionMore.

Context {D K : Type} `{EqDecision D} `{EqDecision K}.
Variable key : D -> K.

(** [collection.find_one(filter)] with a filter on the natural key: the
    first document with that key. *)
Definition find_one (k : K) (coll : list D) : option D :=
  List.find (fun d => bool_decide (key d = k)) coll.

Lemma find_one_app (k : K) (l1 l2 : list D) :
  find_one k (l1 ++ l2)
  = match find_one k l1 with Some d => Some d | None => find_one k l2 end.
Proof.
  unfold find_one. induction l1 as [|d l1 IH]; [done|]. cbn [app List.find].
  by destruct (bool_decide (key d = k)).
Qed.

Lemma update_one_find_one (doc : D) (coll : list D) (k : K) :
  find_one k (update_one key doc coll).1
  = if bool_decide (key doc = k) then Some doc else find_one k coll.
Proof.
  unfold find_one. induction coll as [|d coll IH]; cbn [update_one].
  - cbn [fst List.find]. by destruct (bool_decide (key doc = k)).
  - destruct (bool_decide_reflect (key d = key doc)) as [Heq|Hne].
    + cbn [fst List.find]. rewrite Heq.
      by destruct (bool_decide (key doc = k)).
    + destruct (update_one key doc coll) as [rest' r]. cbn [fst] in *.
      cbn [List.find]. destruct (bool_decide_reflect (key d = k)) as [Hk|Hk].
      * rewrite bool_decide_eq_false_2; [done|congruence].
      * done.
Qed.

Lemma find_one_singleton (k : K) (doc : D) :
  find_one k [doc] = if bool_decide (key doc = k) then Some doc else None.
Proof. done. Qed.

Lemma save_loop_find_one (docs : list D) :
  forall (coll : list D) (i u : nat) (k : K),
    find_one k (save_loop key docs coll i u).1
    = match find_one k (rev docs) with
      | Some d => Some d
      | None => find_one k coll
      end.
Proof.
  induction docs as [|doc docs IH]; intros coll i u k; [done|].
  cbn [save_loop rev]. rewrite find_one_app, find_one_singleton.
  pose proof (update_one_find_one doc coll k) as Hu.
  destruct (update_one key doc coll) as [coll' r]. cbn [fst] in Hu.
  destruct (upserted r); [|destruct (negb _)]; rewrite IH, Hu;
    destruct (find_one k (rev docs)); try done;
    by destruct (bool_decide (key doc = k)).
Qed.

(** X11.  After a save, the record found under a natural key is the last
    document of the list that has this key, and the record found before
    when the list has none. *)
Theorem save_last_write_wins (docs coll : list D) (k : K) :
  find_one k (save key docs coll).1
  = match find_one k (rev docs) with
    | Some d => Some d
    | None => find_one k coll
    end.
Proof.
  unfold save. destruct docs as [|doc docs]; [done|].
  pose proof (save_loop_find_one (doc :: docs) coll 0 0 k) as H.
  by destruct (save_loop key (doc :: docs) coll 0 0) as [coll' [i u]].
Qed.

Lemma update_one_keys_list (doc : D) (coll : list D) :
  keys key (update_one key doc coll).1
  = if decide (key doc ∈ keys key coll) then keys key coll
    else keys key coll ++ [key doc].
Proof.
  destruct (decide (key doc ∈ keys key coll)) as [Hin|Hnin].
  - by destruct (update_one_present key doc coll Hin) as (_ & _ & ->).
  - rewrite (update_one_absent key doc coll Hnin). unfold keys.
    cbn [fst]. by rewrite fmap_app.
Qed.

Lemma save_loop_keys_unique (docs : list D) :
  forall (coll : list D) (i u : nat),
    NoDup (keys key coll) -> NoDup (keys key (save_loop key docs coll i u).1).
Proof.
  induction docs as [|doc docs IH]; intros coll i u Hnd; [done|].
  cbn [save_loop].
  pose proof (update_one_keys_list doc coll) as Hk.
  destruct (update_one key doc coll) as [coll' r]. cbn [fst] in Hk.
  assert (Hnd' : NoDup (keys key coll')).
  { rewrite Hk. destruct (decide _) as [|Hnin]; [done|].
    apply NoDup_app. split; [done|]. split.
    - intros x Hx Hx'. apply list_elem_of_singleton in Hx'. by subst.
    - apply NoDup_singleton. }
  destruct (upserted r); [|destruct (negb _)]; by apply IH.
Qed.

(** X12.  A save never stores a natural key twice: a collection whose
    keys are distinct still has distinct keys afterwards. *)
Theorem save_keeps_keys_unique (docs coll : list D) :
  NoDup (keys key coll) -> NoDup (keys key (save key docs coll).1).
Proof.
  intros Hnd. unfold save. destruct docs as [|doc docs]; [done|].
  pose proof (save_loop_keys_unique (doc :: docs) coll 0 0 Hnd) as H.
  by destruct (save_loop key (doc :: docs) coll 0 0) as [coll' [i u]].
Qed.

Lemma update_one_length (doc : D) (coll : list D) :
  length (update_one key doc coll).1
  = (length coll + if upserted (update_one key doc coll).2 then 1 else 0)%nat.
Proof.
  induction coll as [|d coll IH]; cbn [update_one]; [done|].
  destruct (bool_decide (key d = key doc)).
  - cbn [fst snd upserted length]. lia.
  - destruct (update_one key doc coll) as [rest' r].
    cbn [fst snd length] in *. lia.
Qed.

Lemma save_loop_counts (docs : list D) :
  forall (coll : list D) (i u : nat),
    (length (save_loop key docs coll i u).1 + i
     = length coll + (save_loop key docs coll i u).2.1)%nat /\
    (i <= (save_loop key docs coll i u).2.1)%nat /\
    (u <= (save_loop key docs coll i u).2.2)%nat /\
    ((save_loop key docs coll i u).2.1 + (save_loop key docs coll i u).2.2
     <= i + u + length docs)%nat.
Proof.
  induction docs as [|doc docs IH]; intros coll i u.
  - cbn [save_loop fst snd length]. lia.
  - cbn [save_loop]. pose proof (update_one_length doc coll) as Hl.
    destruct (update_one key doc coll) as [coll' r]. cbn [fst snd] in Hl.
    destruct (upserted r); [|destruct (negb _)];
      match goal with
      | |- context [save_loop key docs coll' ?i' ?u'] =>
          specialize (IH coll' i' u')
      end; cbn [length]; lia.
Qed.

(** X13.  The counters of a save add up: the collection grows by the
    number of inserts, and inserts plus updates never exceed the number
    of documents handed in. *)
Theorem save_counts (docs coll : list D) :
  match (save key docs coll).2 with
  | Some (inserted, updated) =>
      length (save key docs coll).1 = (length coll + inserted)%nat /\
      (inserted + updated <= length docs)%nat
  | None => docs = [] /\ (save key docs coll).1 = coll
  end.
Proof.
  unfold save. destruct docs as [|doc docs]; [done|].
  pose proof (save_loop_counts (doc :: docs) coll 0 0) as H.
  destruct (save_loop key (doc :: docs) coll 0 0) as [coll' [i u]].
  cbn [fst snd] in *. lia.
Qed.

Lemma update_one_same (doc : D) (coll : list D) :
  find_one (key doc) coll = Some doc ->
  update_one key doc coll = (coll, UpdateResult 1 0 false).
Proof.
  unfold find_one. induction coll as [|d coll IH]; [done|].
  cbn [List.find update_one].
  destruct (bool_decide (key d = key doc)).
  - intros [= ->]. by rewrite bool_decide_eq_true_2.
  - intros H. by rewrite (IH H).
Qed.

Lemma save_loop_same (docs : list D) (coll : list D) (i u : nat) :
  Forall (fun doc => find_one (key doc) coll = Some doc) docs ->
  save_loop key docs coll i u = (coll, (i, u)).
Proof.
  induction 1 as [|doc docs Hdoc _ IH]; [done|].
  cbn [save_loop]. by rewrite (update_one_same doc coll Hdoc).
Qed.

Lemma find_one_unique (l : list D) (doc : D) :
  NoDup (keys key l) -> doc ∈ l -> find_one (key doc) l = Some doc.
Proof.
  unfold keys, find_one. induction l as [|d l IH]; [by intros _ H; inversion H|].
  rewrite fmap_cons, NoDup_cons. intros [Hd Hnd] Hin. cbn [List.find].
  apply elem_of_cons in Hin as [->|Hin].
  - by rewrite bool_decide_eq_true_2.
  - rewrite bool_decide_eq_false_2; [by apply IH|].
    intros Heq. apply Hd. rewrite Heq. by apply list_elem_of_fmap_2.
Qed.

Lemma keys_rev_unique (l : list D) :
  NoDup (keys key l) -> NoDup (keys key (rev l)).
Proof.
  unfold keys. intros H.
  assert (Hp : key <$> rev l ≡ₚ key <$> l)
    by (apply fmap_Permutation; symmetry; apply Permutation_rev).
  by rewrite Hp.
Qed.

(** X14.  Saving again the very documents that were just saved, when no
    two of them share a natural key, leaves the collection as it is and
    counts no insert and no update. *)
Theorem save_again_unchanged (docs coll : list D) :
  NoDup (keys key docs) ->
  save key docs (save key docs coll).1
  = ((save key docs coll).1,
     match docs with [] => None | _ => Some (0%nat, 0%nat) end).
Proof.
  intros Hnd. destruct docs as [|doc docs]; [done|].
  set (ds := doc :: docs) in *.
  assert (Hall : Forall (fun x => find_one (key x) (save key ds coll).1
                                  = Some x) ds).
  { apply Forall_forall. intros x Hx.
    assert (Hfind : find_one (key x) (save key ds coll).1
                    = match find_one (key x) (rev ds) with
                      | Some d => Some d
                      | None => find_one (key x) coll
                      end).
    { pose proof (save_loop_find_one ds coll 0 0 (key x)) as Hl.
      unfold save. subst ds.
      by destruct (save_loop key (doc :: docs) coll 0 0) as [coll' [i u]]. }
    rewrite Hfind.
    rewrite (find_one_unique (rev ds) x); [done|by apply keys_rev_unique|].
    by apply list_elem_of_In, in_rev, list_elem_of_In in Hx. }
  unfold save at 1. cbn [ds].
  fold ds. by rewrite (save_loop_same ds _ 0 0 Hall).
Qed.

End CollectionMore.

Definition two_companies (t : Z) : list company :=
  [ Company (lit "BT") (lit "Banque de Tunisie") (lit "Acheter")
            (lit "12,5%") (lit "https://www.ilboursa.com/marches/societe/BT")
            t;
    Company (lit "SFBT") (lit "SFBT") (lit "Conserver") (lit "-3%")
            (lit "https://www.ilboursa.com/marches/societe/SFBT") t ].

Lemma save_keeps_keys_unique_witness :
  NoDup (keys company_key (two_companies 1)) /\
  NoDup (keys company_key
              (save company_key (two_companies 2) (two_companies 1)).1).
Proof.
  assert (H : NoDup (keys company_key (two_companies 1))).
  { apply (bool_decide_unpack _). vm_compute. exact I. }
  split; [exact H|].
  exact (save_keeps_keys_unique company_key (two_companies 2)
                                (two_companies 1) H).
Defined.

Lemma save_again_unchanged_witness :
  NoDup (keys company_key (two_companies 2)) /\
  save company_key (two_companies 2)
       (save company_key (two_companies 2) (two_companies 1)).1
  = ((save company_key (two_companies 2) (two_companies 1)).1,
     Some (0%nat, 0%nat)).
Proof.
  assert (H : NoDup (keys company_key (two_companies 2))).
  { apply (bool_decide_unpack _). vm_compute. exact I. }
  split; [exact H|].
  exact (save_again_unchanged company_key (two_companies 2)
                              (two_companies 1) H).
Defined.

Section CollectionFrame.

Context {D K : Type} `{EqDecision D} `{EqDecision K}.
Variable key : D -> K.

Lemma update_one_other (doc x : D) (coll : list D) :
  x ∈ coll -> key x <> key doc -> x ∈ (update_one key doc coll).1.
Proof.
  induction coll as [|d coll IH]; [by intros H; inversion H|].
  intros Hin Hne. cbn [update_one].
  destruct (bool_decide_reflect (key d = key doc)) as [Heq|Hd].
  - cbn [fst]. apply elem_of_cons in Hin as [->|Hin]; [congruence|].
    by right.
  - apply elem_of_cons in Hin as [->|Hin].
    + destruct (update_one key doc coll). by left.
    + specialize (IH Hin Hne). destruct (update_one key doc coll).
      by right.
Qed.

Lemma save_loop_other (docs : list D) (x : D) :
  forall (coll : list D) (i u : nat),
    x ∈ coll -> key x ∉ keys key docs ->
    x ∈ (save_loop key docs coll i u).1.
Proof.
  unfold keys. induction docs as [|doc docs IH]; intros coll i u Hin Hk;
    [done|].
  rewrite fmap_cons in Hk. apply not_elem_of_cons in Hk as [Hne Hk].
  cbn [save_loop]. pose proof (update_one_other doc x coll Hin Hne) as Hx.
  destruct (update_one key doc coll) as [coll' r]. cbn [fst] in Hx.
  destruct (upserted r); [|destruct (negb _)]; by apply IH.
Qed.

(** A save leaves every stored document whose natural key is not the key
    of a saved document where it is. *)
Lemma save_other (docs coll : list D) (x : D) :
  x ∈ coll -> key x ∉ keys key docs -> x ∈ (save key docs coll).1.
Proof.
  intros Hin Hk. unfold save. destruct docs as [|doc docs]; [done|].
  pose proof (save_loop_other (doc :: docs) x coll 0 0 Hin Hk) as H.
  by destruct (save_loop key (doc :: docs) coll 0 0) as [coll' [i u]].
Qed.

End CollectionFrame.

(** ** The records read from the pages *)

Section Pages.

Variable utcnow : nat -> Z.

(** What [scrape_shareholders] puts in a record. *)
Definition shareholder_ok (company_code : str) (s : shareholder) : Prop :=
  s_company_code s = company_code /\ s_name s <> [] /\ s_percentage s <> [].

Lemma shareholder_of_row_ok (company_code : str) (row : node) (k : nat)
    (sh : shareholder) :
  shareholder_of_row utcnow company_code row k = Some sh ->
  shareholder_ok company_code sh.
Proof.
  unfold shareholder_of_row.
  destruct (find_all_nodes (lit "td") row) as [|t0 [|t1 [|t2 tds]]];
    try discriminate.
  destruct (get_text_strip t1) as [|a name]; [discriminate|].
  destruct (get_text_strip t2) as [|b pct]; [discriminate|].
  intros [= <-]. by repeat split.
Qed.

Lemma shareholder_rows_ok (company_code : str) (rows : list node) :
  forall k : nat,
    Forall (shareholder_ok company_code)
           (shareholder_rows utcnow company_code rows k).1 /\
    (shareholder_rows utcnow company_code rows k).2
    = (k + length (shareholder_rows utcnow company_code rows k).1)%nat.
Proof.
  induction rows as [|row rows IH]; intros k.
  - cbn [shareholder_rows fst snd length]. split; [constructor|lia].
  - cbn [shareholder_rows].
    destruct (shareholder_of_row utcnow company_code row k) as [sh|] eqn:E.
    + destruct (IH (S k)) as [H1 H2].
      destruct (shareholder_rows utcnow company_code rows (S k)) as [shs k'].
      cbn [fst snd length] in *. split; [|lia].
      constructor; [|done]. by apply (shareholder_of_row_ok _ row k).
    + apply IH.
Qed.

Lemma shareholders_of_page_ok (company_code : str) (d : node) (k : nat) :
  Forall (shareholder_ok company_code)
         (shareholders_of_page utcnow company_code d k).1 /\
  (shareholders_of_page utcnow company_code d k).2
  = (k + length (shareholders_of_page utcnow company_code d k).1)%nat.
Proof.
  unfold shareholders_of_page.
  destruct (find_table_by_id (lit "tblactions") d) as [table|];
    [|cbn [fst snd length]; split; [constructor|lia]].
  destruct (find (lit "tbody") table) as [tbody|];
    [|cbn [fst snd length]; split; [constructor|lia]].
  apply shareholder_rows_ok.
Qed.

Lemma fetch_page_calls (w : net) :
  fetch_calls (fetch_page w).2 = S (fetch_calls w) /\
  replies (fetch_page w).2 = tail (replies w).
Proof. unfold fetch_page. by destruct (replies w). Qed.

Lemma scrape_shareholders_ok (company_code company_url : str) (w : net)
    (k : nat) :
  Forall (shareholder_ok company_code)
         (scrape_shareholders utcnow company_code company_url w k).1.1 /\
  fetch_calls (scrape_shareholders utcnow company_code company_url w k).1.2
  = S (fetch_calls w).
Proof.
  unfold scrape_shareholders. destruct (fetch_page_calls w) as [Hw _].
  destruct (fetch_page w) as [[d|] w']; cbn [fst snd] in *.
  - destruct (shareholders_of_page_ok company_code d k) as [H1 _].
    by destruct (shareholders_of_page utcnow company_code d k) as [shs k'].
  - by split; [constructor|].
Qed.

(** X15.  [scrape_shareholders] makes one request; every record it
    returns carries the company code it was called with, a name and a
    percentage that are not empty, and each record took one reading of the
    clock.  When the request fails it returns no record. *)
Theorem scrape_shareholders_records (company_code company_url : str)
    (w : net) (k : nat) :
  let '(shs, w', k') :=
    scrape_shareholders utcnow company_code company_url w k in
  Forall (shareholder_ok company_code) shs /\
  fetch_calls w' = S (fetch_calls w) /\
  replies w' = tail (replies w) /\
  k' = (k + length shs)%nat /\
  ((fetch_page w).1 = Failure -> shs = []).
Proof.
  unfold scrape_shareholders.
  assert (Hw : fetch_calls (fetch_page w).2 = S (fetch_calls w) /\
               replies (fetch_page w).2 = tail (replies w))
    by (unfold fetch_page; by destruct (replies w)).
  destruct (fetch_page w) as [[d|] w']; cbn [fst snd] in *.
  - destruct (shareholders_of_page_ok company_code d k) as [H1 H2].
    destruct (shareholders_of_page utcnow company_code d k) as [shs k'].
    cbn [fst snd] in *. by destruct Hw.
  - destruct Hw. repeat split; (done || (cbn [length]; lia)).
Qed.

(** [d[k] = v] keeps the keys apart and sets the value. *)
Lemma dict_set_elem_of (k v : str) (kvs : list (str * str)) (e : str * str) :
  e ∈ dict_set k v kvs -> e = (k, v) \/ e ∈ kvs.
Proof.
  induction kvs as [|[k' v'] kvs IH]; cbn [dict_set].
  - intros H. apply list_elem_of_singleton in H. by left.
  - destruct (bool_decide (k' = k)).
    + intros H. apply elem_of_cons in H as [->|H]; [by left|].
      right. by right.
    + intros H. apply elem_of_cons in H as [->|H]; [right; by left|].
      destruct (IH H) as [->|H']; [by left|right; by right].
Qed.

Lemma dict_set_keys (k v : str) (kvs : list (str * str)) :
  (dict_set k v kvs).*1
  = if decide (k ∈ kvs.*1) then kvs.*1 else kvs.*1 ++ [k].
Proof.
  induction kvs as [|[k' v'] kvs IH]; cbn [dict_set].
  - by rewrite decide_False by (intros H; inversion H).
  - destruct (bool_decide_reflect (k' = k)) as [->|Hne].
    + rewrite !fmap_cons. cbn [fst].
      by rewrite decide_True by (by left).
    + rewrite !fmap_cons, IH. cbn [fst].
      destruct (decide (k ∈ kvs.*1)) as [Hin|Hnin].
      * by rewrite decide_True by (by right).
      * rewrite decide_False; [done|].
        intros H. apply elem_of_cons in H as [?|?]; [congruence|done].
Qed.

Lemma dict_set_keys_unique (k v : str) (kvs : list (str * str)) :
  NoDup kvs.*1 -> NoDup (dict_set k v kvs).*1.
Proof.
  intros Hnd. rewrite dict_set_keys.
  destruct (decide (k ∈ kvs.*1)) as [|Hnin]; [done|].
  apply NoDup_app. split; [done|]. split; [|apply NoDup_singleton].
  intros x Hx Hx'. apply list_elem_of_singleton in Hx'. by subst.
Qed.

Lemma dict_set_nonempty (k v : str) (kvs : list (str * str)) :
  dict_set k v kvs <> [].
Proof.
  destruct kvs as [|[k' v'] kvs]; cbn [dict_set]; [done|].
  by destruct (bool_decide (k' = k)).
Qed.

(** A value kept by [scrape_financials]. *)
Definition value_ok (yv : str * str) : Prop :=
  yv.2 <> [] /\ yv.2 <> lit "-".

Lemma fill_values_ok (years : list str) :
  forall (cells : list node) (values : list (str * str)),
    NoDup values.*1 -> Forall value_ok values ->
    NoDup (fill_values years cells values).*1 /\
    Forall value_ok (fill_values years cells values) /\
    (forall y, y ∈ (fill_values years cells values).*1 ->
               y ∈ years \/ y ∈ values.*1).
Proof.
  induction years as [|year years IH]; intros cells values Hnd Hok.
  - cbn [fill_values]. repeat split; try done. intros y Hy. by right.
  - destruct cells as [|cell cells];
      [cbn [fill_values]; repeat split; try done; intros y Hy; by right|].
    cbn [fill_values]. set (value := get_text_strip cell).
    destruct (bool_decide_reflect (value = [])) as [He|He]; cbn [negb andb].
    { destruct (IH cells values Hnd Hok) as (H1 & H2 & H3).
      repeat split; try done. intros y Hy.
      destruct (H3 y Hy) as [?|?]; [left; by right|by right]. }
    destruct (bool_decide_reflect (value = lit "-")) as [Hd|Hd]; cbn [negb].
    { destruct (IH cells values Hnd Hok) as (H1 & H2 & H3).
      repeat split; try done. intros y Hy.
      destruct (H3 y Hy) as [?|?]; [left; by right|by right]. }
    destruct (IH cells (dict_set year value values)) as (H1 & H2 & H3).
    + by apply dict_set_keys_unique.
    + apply Forall_forall. intros e He'.
      destruct (dict_set_elem_of _ _ _ _ He') as [->|Hin]; [by split|].
      rewrite Forall_forall in Hok. by apply Hok.
    + repeat split; try done. intros y Hy.
      destruct (H3 y Hy) as [?|Hin]; [left; by right|].
      rewrite dict_set_keys in Hin.
      destruct (decide (year ∈ values.*1)); [by right|].
      apply elem_of_app in Hin as [?|Hin]; [by right|].
      apply list_elem_of_singleton in Hin. subst y. left. by left.
Qed.

(** What [scrape_financials] puts in a record. *)
Definition financial_ok (company_code : str) (f : financial) : Prop :=
  f_company_code f = company_code /\ f_values f <> [] /\
  NoDup (f_values f).*1 /\ Forall value_ok (f_values f).

Lemma financial_of_row_ok (company_code : str) (years : list str)
    (row : node) (k : nat) (f : financial) :
  financial_of_row utcnow company_code years row k = Some f ->
  financial_ok company_code f.
Proof.
  unfold financial_of_row.
  destruct (find_all_nodes (lit "td") row) as [|c0 cells]; [discriminate|].
  destruct (fill_values_ok years cells []) as (H1 & H2 & _);
    [constructor|constructor|].
  destruct (fill_values years cells []) as [|yv values] eqn:E;
    [discriminate|].
  intros [= <-]. by repeat split.
Qed.

Lemma financial_rows_ok (company_code : str) (years : list str)
    (rows : list node) :
  forall k : nat,
    Forall (financial_ok company_code)
           (financial_rows utcnow company_code years rows k).1 /\
    (financial_rows utcnow company_code years rows k).2
    = (k + length (financial_rows utcnow company_code years rows k).1)%nat.
Proof.
  induction rows as [|row rows IH]; intros k.
  - cbn [financial_rows fst snd length]. split; [constructor|lia].
  - cbn [financial_rows].
    destruct (financial_of_row utcnow company_code years row k) as [f|] eqn:E.
    + destruct (IH (S k)) as [H1 H2].
      destruct (financial_rows utcnow company_code years rows (S k))
        as [fs k'].
      cbn [fst snd length] in *. split; [|lia].
      constructor; [|done]. by apply (financial_of_row_ok _ years row k).
    + apply IH.
Qed.

Lemma financials_of_page_ok (company_code : str) (d : node) (k : nat) :
  Forall (financial_ok company_code)
         (financials_of_page utcnow company_code d k).1 /\
  (financials_of_page utcnow company_code d k).2
  = (k + length (financials_of_page utcnow company_code d k).1)%nat.
Proof.
  unfold financials_of_page.
  destruct (find_table_by_class _ d) as [table|];
    [|cbn [fst snd length]; split; [constructor|lia]].
  destruct (find (lit "tbody") table) as [tbody|];
    [|cbn [fst snd length]; split; [constructor|lia]].
  destruct (match find (lit "thead") table with
            | Some thead => _
            | None => []
            end) as [|y years];
    [cbn [fst snd length]; split; [constructor|lia]|].
  apply financial_rows_ok.
Qed.

Lemma scrape_financials_ok (company_code company_url : str) (w : net)
    (k : nat) :
  Forall (financial_ok company_code)
         (scrape_financials utcnow company_code company_url w k).1.1 /\
  fetch_calls (scrape_financials utcnow company_code company_url w k).1.2
  = S (fetch_calls w).
Proof.
  unfold scrape_financials. destruct (fetch_page_calls w) as [Hw _].
  destruct (fetch_page w) as [[d|] w']; cbn [fst snd] in *.
  - destruct (financials_of_page_ok company_code d k) as [H1 _].
    by destruct (financials_of_page utcnow company_code d k) as [fs k'].
  - by split; [constructor|].
Qed.

(** X16.  [scrape_financials] makes one request; every record it returns
    carries the company code it was called with and a dict of values that
    is not empty, holds each year once, and holds no empty value and no
    "-".  When the request fails it returns no record. *)
Theorem scrape_financials_records (company_code company_url : str)
    (w : net) (k : nat) :
  let '(fs, w', k') :=
    scrape_financials utcnow company_code company_url w k in
  Forall (financial_ok company_code) fs /\
  fetch_calls w' = S (fetch_calls w) /\
  replies w' = tail (replies w) /\
  k' = (k + length fs)%nat /\
  ((fetch_page w).1 = Failure -> fs = []).
Proof.
  unfold scrape_financials.
  assert (Hw : fetch_calls (fetch_page w).2 = S (fetch_calls w) /\
               replies (fetch_page w).2 = tail (replies w))
    by (unfold fetch_page; by destruct (replies w)).
  destruct (fetch_page w) as [[d|] w']; cbn [fst snd] in *.
  - destruct (financials_of_page_ok company_code d k) as [H1 H2].
    destruct (financials_of_page utcnow company_code d k) as [fs k'].
    cbn [fst snd] in *. by destruct Hw.
  - destruct Hw. repeat split; (done || (cbn [length]; lia)).
Qed.

(** The pieces of [s.split(sep)] hold no [sep]. *)
Lemma contains_char_app (c : char) (a b : str) :
  contains_char c (a ++ b) = contains_char c a || contains_char c b.
Proof. unfold contains_char. apply existsb_app. Qed.

Lemma split_from_pieces (sep : char) (s : str) :
  forall cur : str,
    contains_char sep cur = false ->
    Forall (fun piece => contains_char sep piece = false)
           (split_from sep cur s).
Proof.
  induction s as [|c s IH]; intros cur Hcur; cbn [split_from].
  - by constructor.
  - destruct (N.eqb_spec c sep) as [->|Hne].
    + constructor; [done|]. by apply IH.
    + apply IH. rewrite contains_char_app, Hcur. cbn.
      rewrite orb_false_r. apply N.eqb_neq. congruence.
Qed.

Lemma last_item_split (sep : char) (s : str) :
  contains_char sep (last_item (split sep s)) = false.
Proof.
  unfold last_item, split.
  pose proof (split_from_pieces sep s [] eq_refl) as H.
  induction H as [|x l Hx Hl IH]; [done|].
  destruct l as [|y l]; [done|]. exact IH.
Qed.

(** What [get_company_list] puts in a record. *)
Definition company_ok (c : company) : Prop :=
  contains_char 47%N (c_code c) = false /\
  c_url c = BASE_URL ++ lit "/marches/societe/" ++ c_code c.

Lemma company_of_row_ok (row : node) (k : nat) (c : company) :
  company_of_row utcnow row k = Some c -> company_ok c.
Proof.
  unfold company_of_row.
  destruct (find (lit "td") row) as [td|]; [|discriminate].
  destruct (find (lit "a") td) as [a_tag|]; [|discriminate].
  intros [= <-]. split; [|done]. cbn [c_code].
  destruct (contains_char 47%N (attr_or_empty a_tag (lit "href"))) eqn:E;
    [apply last_item_split|done].
Qed.

Lemma company_rows_ok (rows : list node) :
  forall k : nat,
    Forall company_ok (company_rows utcnow rows k).1 /\
    (company_rows utcnow rows k).2
    = (k + length (company_rows utcnow rows k).1)%nat.
Proof.
  induction rows as [|row rows IH]; intros k.
  - cbn [company_rows fst snd length]. split; [constructor|lia].
  - cbn [company_rows].
    destruct (company_of_row utcnow row k) as [c|] eqn:E.
    + destruct (IH (S k)) as [H1 H2].
      destruct (company_rows utcnow rows (S k)) as [cs k'].
      cbn [fst snd length] in *. split; [|lia].
      constructor; [|done]. by apply (company_of_row_ok row k).
    + apply IH.
Qed.

Lemma get_company_list_calls (w : net) (k : nat) :
  fetch_calls (get_company_list utcnow w k).1.2 = S (fetch_calls w).
Proof.
  unfold get_company_list. destruct (fetch_page_calls w) as [Hw _].
  destruct (fetch_page w) as [[d|] w']; cbn [fst snd] in *; [|done].
  by destruct (companies_of_page utcnow d k) as [cs k'].
Qed.

(** X17.  [get_company_list] makes one request; the code of every
    company it returns holds no "/", and its url is the base url followed
    by "/marches/societe/" and that code.  When the request fails, or the
    page has no table with id "tabQuotes", it returns no company. *)
Theorem get_company_list_records (w : net) (k : nat) :
  let '(cs, w', k') := get_company_list utcnow w k in
  Forall company_ok cs /\
  fetch_calls w' = S (fetch_calls w) /\
  replies w' = tail (replies w) /\
  k' = (k + length cs)%nat /\
  ((fetch_page w).1 = Failure -> cs = []) /\
  (forall d, (fetch_page w).1 = Page d ->
             find_table_by_id (lit "tabQuotes") d = None -> cs = []).
Proof.
  unfold get_company_list.
  assert (Hw : fetch_calls (fetch_page w).2 = S (fetch_calls w) /\
               replies (fetch_page w).2 = tail (replies w))
    by (unfold fetch_page; by destruct (replies w)).
  destruct (fetch_page w) as [[d|] w']; cbn [fst snd] in *.
  - unfold companies_of_page.
    destruct (find_table_by_id (lit "tabQuotes") d) as [table|] eqn:Et.
    + destruct (find (lit "tbody") table) as [tbody|].
      * destruct (company_rows_ok (find_all_nodes (lit "tr") tbody) k)
          as [H1 H2].
        destruct (company_rows utcnow (find_all_nodes (lit "tr") tbody) k)
          as [cs k'].
        cbn [fst snd] in *. destruct Hw.
        repeat split; try done. intros d' [= <-]. by rewrite Et.
      * destruct Hw. repeat split; (done || (cbn [length]; lia)).
    + destruct Hw. repeat split; (done || (cbn [length]; lia)).
  - destruct Hw. repeat split; (done || (cbn [length]; lia)).
Qed.

(** ** The whole run *)

(** The requests of the loop of [run], without its writes. *)
Fixpoint scrape_details (cs : list company) (w : net) (k : nat)
    : list (list shareholder * list financial) * net * nat :=
  match cs with
  | [] => ([], w, k)
  | company :: rest =>
      let '(shs, w1, k1) :=
        scrape_shareholders utcnow (c_code company) (c_url company) w k in
      let '(fs, w2, k2) :=
        scrape_financials utcnow (c_code company) (c_url company) w1 k1 in
      let '(details, w3, k3) := scrape_details rest w2 k2 in
      ((shs, fs) :: details, w3, k3)
  end.

(** All that one run reads: the listing, then the detail page of each
    company, twice. *)
Definition scrape (w : net) (k : nat) : scraped * net * nat :=
  let '(cs, w1, k1) := get_company_list utcnow w k in
  let '(details, w2, k2) := scrape_details cs w1 k1 in
  (zip cs details, w2, k2).

Lemma run_companies_scrape_details (cs : list company) :
  forall (d : db) (w : net) (k : nat),
    run_companies utcnow cs d w k
    = (let '(details, w', k') := scrape_details cs w k in
       let '(d', l) := save_details details d in
       (d', l, w', k')).
Proof.
  induction cs as [|company cs IH]; intros d w k; [done|].
  cbn [run_companies scrape_details].
  destruct (scrape_shareholders utcnow _ _ w k) as [[shs w1] k1].
  destruct (scrape_financials utcnow _ _ w1 k1) as [[fs w2] k2].
  destruct (save_shareholders shs d) as [d1 l1] eqn:E1.
  destruct (save_financials fs d1) as [d2 l2] eqn:E2.
  rewrite IH.
  destruct (scrape_details cs w2 k2) as [[details w3] k3].
  cbn [save_details]. rewrite E1, E2.
  by destruct (save_details details d2) as [d3 l3].
Qed.

Lemma scrape_details_length (cs : list company) :
  forall (w : net) (k : nat),
    length (scrape_details cs w k).1.1 = length cs /\
    fetch_calls (scrape_details cs w k).1.2
    = (fetch_calls w + 2 * length cs)%nat.
Proof.
  induction cs as [|company cs IH]; intros w k.
  - cbn [scrape_details fst snd length]. lia.
  - cbn [scrape_details].
    destruct (scrape_shareholders_ok (c_code company) (c_url company) w k)
      as [_ Hs].
    destruct (scrape_shareholders utcnow _ _ w k) as [[shs w1] k1].
    destruct (scrape_financials_ok (c_code company) (c_url company) w1 k1)
      as [_ Hf].
    destruct (scrape_financials utcnow _ _ w1 k1) as [[fs w2] k2].
    destruct (IH w2 k2) as [H1 H2].
    destruct (scrape_details cs w2 k2) as [[details w3] k3].
    cbn [fst snd length] in *. lia.
Qed.

Lemma zip_fst_snd {A B : Type} (l : list A) (l' : list B) :
  length l' = length l ->
  List.map fst (zip l l') = l /\ List.map snd (zip l l') = l'.
Proof.
  revert l'. induction l as [|a l IH]; intros [|b l'] Hlen;
    try discriminate; [done|].
  cbn in Hlen. destruct (IH l') as [H1 H2]; [lia|].
  cbn. by rewrite H1, H2.
Qed.

(** A connected run, from what it scrapes. *)
Lemma run_as_run_saves (d : db) (w : net) (k : nat) :
  run utcnow true d w k
  = (match (scrape w k).1.1 with [] => false | _ => true end,
     (run_saves (scrape w k).1.1 d).1, (run_saves (scrape w k).1.1 d).2,
     (scrape w k).1.2, (scrape w k).2).
Proof.
  unfold scrape, run.
  destruct (get_company_list utcnow w k) as [[cs w1] k1].
  destruct (scrape_details_length cs w1 k1) as [Hlen _].
  pose proof (run_companies_scrape_details cs) as Hrun.
  destruct (scrape_details cs w1 k1) as [[details w2] k2] eqn:Es.
  cbn [fst snd] in *.
  destruct (zip_fst_snd cs details Hlen) as [Hfst Hsnd].
  destruct cs as [|c cs].
  - cbn [scrape_details] in Es. by injection Es as <- <- <-.
  - destruct details as [|e details]; [discriminate|].
    unfold run_saves.
    change (zip (c :: cs) (e :: details))
      with ((c, e) :: zip cs details) in *.
    rewrite Hfst, Hsnd.
    destruct (save_companies (c :: cs) d) as [d1 l1].
    rewrite Hrun, Es.
    by destruct (save_details (e :: details) d1) as [d2 l2].
Qed.

Lemma scrape_calls (w : net) (k : nat) :
  fetch_calls (scrape w k).1.2
  = (fetch_calls w + 1 + 2 * length (scrape w k).1.1)%nat.
Proof.
  unfold scrape. pose proof (get_company_list_calls w k) as Hw1.
  destruct (get_company_list utcnow w k) as [[cs w1] k1].
  destruct (scrape_details_length cs w1 k1) as [Hlen Hcalls].
  destruct (scrape_details cs w1 k1) as [[details w2] k2].
  cbn [fst snd] in *.
  destruct (zip_fst_snd cs details Hlen) as [Hfst _].
  assert (Hzl : length (zip cs details) = length cs)
    by (rewrite <- Hfst at 2; by rewrite length_map).
  lia.
Qed.

(** X18.  What [run] scrapes never depends on what it writes: a run is
    the writes of one pass applied to all that its requests returned, one
    request for the listing and two for each company listed.  It returns
    false, with the store untouched and nothing logged, exactly when no
    company was found; a run that could not connect does nothing. *)
Theorem run_scrapes_then_saves (d : db) (w : net) (k : nat) :
  let '(src, w', k') := scrape w k in
  run utcnow true d w k
  = (match src with [] => false | _ => true end,
     (run_saves src d).1, (run_saves src d).2, w', k') /\
  (src = [] -> run utcnow true d w k = (false, d, [], w', k')) /\
  fetch_calls w' = (fetch_calls w + 1 + 2 * length src)%nat /\
  run utcnow false d w k = (false, d, [], w, k).
Proof.
  pose proof (run_as_run_saves d w k) as Hrun.
  pose proof (scrape_calls w k) as Hcalls.
  destruct (scrape w k) as [[src w'] k']. cbn [fst snd] in *.
  refine (conj Hrun (conj _ (conj Hcalls eq_refl))).
  intros ->. exact Hrun.
Qed.

(** *** A second run *)

Lemma fetch_page_replies (w w' : net) :
  replies w = replies w' ->
  (fetch_page w).1 = (fetch_page w').1 /\
  replies (fetch_page w).2 = replies (fetch_page w').2.
Proof.
  unfold fetch_page. intros <-. by destruct (replies w).
Qed.

Lemma company_rows_same (rows : list node) :
  forall k k' : nat,
    Forall2 same_company (company_rows utcnow rows k).1
            (company_rows utcnow rows k').1.
Proof.
  induction rows as [|row rows IH]; intros k k'; [constructor|].
  cbn [company_rows]. unfold company_of_row.
  destruct (find (lit "td") row) as [td|]; [|apply IH].
  destruct (find (lit "a") td) as [a_tag|]; [|apply IH].
  specialize (IH (S k) (S k')).
  destruct (company_rows utcnow rows (S k)) as [cs k1].
  destruct (company_rows utcnow rows (S k')) as [cs' k1'].
  cbn [fst] in *. constructor; [|done]. by repeat split.
Qed.

Lemma get_company_list_same (w w' : net) (k k' : nat) :
  replies w = replies w' ->
  Forall2 same_company (get_company_list utcnow w k).1.1
          (get_company_list utcnow w' k').1.1 /\
  replies (get_company_list utcnow w k).1.2
  = replies (get_company_list utcnow w' k').1.2.
Proof.
  intros Hr. unfold get_company_list.
  destruct (fetch_page_replies w w' Hr) as [H1 H2].
  destruct (fetch_page w) as [r w1]. destruct (fetch_page w') as [r' w1'].
  cbn [fst snd] in *. subst r'. destruct r as [d|]; [|by split; [constructor|]].
  unfold companies_of_page.
  destruct (find_table_by_id (lit "tabQuotes") d) as [table|];
    [|by split; [constructor|]].
  destruct (find (lit "tbody") table) as [tbody|];
    [|by split; [constructor|]].
  pose proof (company_rows_same (find_all_nodes (lit "tr") tbody) k k') as H.
  destruct (company_rows utcnow _ k) as [cs k1].
  destruct (company_rows utcnow _ k') as [cs' k1'].
  by split.
Qed.

Lemma shareholder_rows_same (company_code : str) (rows : list node) :
  forall k k' : nat,
    Forall2 same_shareholder
            (shareholder_rows utcnow company_code rows k).1
            (shareholder_rows utcnow company_code rows k').1.
Proof.
  induction rows as [|row rows IH]; intros k k'; [constructor|].
  cbn [shareholder_rows]. unfold shareholder_of_row.
  destruct (find_all_nodes (lit "td") row) as [|t0 [|t1 [|t2 tds]]];
    try apply IH.
  destruct (get_text_strip t1) as [|a name]; [apply IH|].
  destruct (get_text_strip t2) as [|b pct]; [apply IH|].
  specialize (IH (S k) (S k')).
  destruct (shareholder_rows utcnow company_code rows (S k)) as [shs k1].
  destruct (shareholder_rows utcnow company_code rows (S k')) as [shs' k1'].
  cbn [fst] in *. constructor; [|done]. by repeat split.
Qed.

Lemma scrape_shareholders_same (company_code url url' : str) (w w' : net)
    (k k' : nat) :
  replies w = replies w' ->
  Forall2 same_shareholder
          (scrape_shareholders utcnow company_code url w k).1.1
          (scrape_shareholders utcnow company_code url' w' k').1.1 /\
  replies (scrape_shareholders utcnow company_code url w k).1.2
  = replies (scrape_shareholders utcnow company_code url' w' k').1.2.
Proof.
  intros Hr. unfold scrape_shareholders.
  destruct (fetch_page_replies w w' Hr) as [H1 H2].
  destruct (fetch_page w) as [r w1]. destruct (fetch_page w') as [r' w1'].
  cbn [fst snd] in *. subst r'. destruct r as [d|]; [|by split; [constructor|]].
  unfold shareholders_of_page.
  destruct (find_table_by_id (lit "tblactions") d) as [table|];
    [|by split; [constructor|]].
  destruct (find (lit "tbody") table) as [tbody|];
    [|by split; [constructor|]].
  pose proof (shareholder_rows_same company_code
                (find_all_nodes (lit "tr") tbody) k k') as H.
  destruct (shareholder_rows utcnow _ _ k) as [shs k1].
  destruct (shareholder_rows utcnow _ _ k') as [shs' k1'].
  by split.
Qed.

Lemma financial_rows_same (company_code : str) (years : list str)
    (rows : list node) :
  forall k k' : nat,
    Forall2 same_financial
            (financial_rows utcnow company_code years rows k).1
            (financial_rows utcnow company_code years rows k').1.
Proof.
  induction rows as [|row rows IH]; intros k k'; [constructor|].
  cbn [financial_rows]. unfold financial_of_row.
  destruct (find_all_nodes (lit "td") row) as [|c0 cells]; [apply IH|].
  destruct (fill_values years cells []) as [|yv values]; [apply IH|].
  specialize (IH (S k) (S k')).
  destruct (financial_rows utcnow company_code years rows (S k)) as [fs k1].
  destruct (financial_rows utcnow company_code years rows (S k'))
    as [fs' k1'].
  cbn [fst] in *. constructor; [|done]. by repeat split.
Qed.

Lemma scrape_financials_same (company_code url url' : str) (w w' : net)
    (k k' : nat) :
  replies w = replies w' ->
  Forall2 same_financial
          (scrape_financials utcnow company_code url w k).1.1
          (scrape_financials utcnow company_code url' w' k').1.1 /\
  replies (scrape_financials utcnow company_code url w k).1.2
  = replies (scrape_financials utcnow company_code url' w' k').1.2.
Proof.
  intros Hr. unfold scrape_financials.
  destruct (fetch_page_replies w w' Hr) as [H1 H2].
  destruct (fetch_page w) as [r w1]. destruct (fetch_page w') as [r' w1'].
  cbn [fst snd] in *. subst r'. destruct r as [d|]; [|by split; [constructor|]].
  unfold financials_of_page.
  destruct (find_table_by_class _ d) as [table|];
    [|by split; [constructor|]].
  destruct (find (lit "tbody") table) as [tbody|];
    [|by split; [constructor|]].
  destruct (match find (lit "thead") table with
            | Some thead => _
            | None => []
            end) as [|y years];
    [by split; [constructor|]|].
  pose proof (financial_rows_same company_code (y :: years)
                (find_all_nodes (lit "tr") tbody) k k') as H.
  destruct (financial_rows utcnow _ _ _ k) as [fs k1].
  destruct (financial_rows utcnow _ _ _ k') as [fs' k1'].
  by split.
Qed.

Lemma scrape_details_same (cs cs' : list company) :
  Forall2 same_company cs cs' ->
  forall (w w' : net) (k k' : nat),
    replies w = replies w' ->
    Forall2 (fun e e' => Forall2 same_shareholder e.1 e'.1 /\
                         Forall2 same_financial e.2 e'.2)
            (scrape_details cs w k).1.1 (scrape_details cs' w' k').1.1.
Proof.
  induction 1 as [|c c' cs cs' (Hcode & _) _ IH]; intros w w' k k' Hr;
    [constructor|].
  cbn [scrape_details]. rewrite <- Hcode.
  destruct (scrape_shareholders_same (c_code c) (c_url c) (c_url c')
              w w' k k' Hr) as [Hs Hr1].
  destruct (scrape_shareholders utcnow (c_code c) (c_url c) w k)
    as [[shs w1] k1].
  destruct (scrape_shareholders utcnow (c_code c) (c_url c') w' k')
    as [[shs' w1'] k1'].
  cbn [fst snd] in *.
  destruct (scrape_financials_same (c_code c) (c_url c) (c_url c')
              w1 w1' k1 k1' Hr1) as [Hf Hr2].
  destruct (scrape_financials utcnow (c_code c) (c_url c) w1 k1)
    as [[fs w2] k2].
  destruct (scrape_financials utcnow (c_code c) (c_url c') w1' k1')
    as [[fs' w2'] k2'].
  cbn [fst snd] in *.
  specialize (IH w2 w2' k2 k2' Hr2).
  destruct (scrape_details cs w2 k2) as [[details w3] k3].
  destruct (scrape_details cs' w2' k2') as [[details' w3'] k3'].
  cbn [fst snd] in *. by constructor.
Qed.

Lemma same_source_zip (cs cs' : list company)
    (details details' : list (list shareholder * list financial)) :
  Forall2 same_company cs cs' ->
  Forall2 (fun e e' => Forall2 same_shareholder e.1 e'.1 /\
                       Forall2 same_financial e.2 e'.2)
          details details' ->
  same_source (zip cs details) (zip cs' details').
Proof.
  unfold same_source. intros Hcs. revert details details'.
  induction Hcs as [|c c' cs cs' Hc _ IH]; intros details details' Hd;
    [constructor|].
  destruct Hd as [|e e' details details' [He1 He2] Hd]; [constructor|].
  cbn. constructor; [done|]. by apply IH.
Qed.

(** What two runs read from the same replies differs in [scraped_at]
    only. *)
Lemma scrape_same (w w' : net) (k k' : nat) :
  replies w = replies w' ->
  same_source (scrape w k).1.1 (scrape w' k').1.1.
Proof.
  intros Hr. unfold scrape.
  destruct (get_company_list_same w w' k k' Hr) as [Hcs Hr1].
  destruct (get_company_list utcnow w k) as [[cs w1] k1].
  destruct (get_company_list utcnow w' k') as [[cs' w1'] k1'].
  cbn [fst snd] in *.
  pose proof (scrape_details_same cs cs' Hcs w1 w1' k1 k1' Hr1) as Hd.
  destruct (scrape_details cs w1 k1) as [[details w2] k2].
  destruct (scrape_details cs' w1' k1') as [[details' w2'] k2'].
  cbn [fst snd] in *. by apply same_source_zip.
Qed.

(** X19.  Run the scraper, then run it again, later, while the site
    serves the same replies: the second run returns what the first
    returned, every "inserted" counter it logs is 0, and the three
    collections keep their number of documents and their natural keys. *)
Theorem run_twice_inserts_nothing (d : db) (w w' : net) (k k' : nat) :
  replies w' = replies w ->
  let r1 := run utcnow true d w k in
  let r2 := run utcnow true r1.1.1.1.2 w' k' in
  r2.1.1.1.1 = r1.1.1.1.1 /\
  Forall (fun l => line_inserted l = 0%nat) r2.1.1.2 /\
  count_documents r2.1.1.1.2 = count_documents r1.1.1.1.2 /\
  ckeys r2.1.1.1.2 = ckeys r1.1.1.1.2 /\
  skeys r2.1.1.1.2 = skeys r1.1.1.1.2 /\
  fkeys r2.1.1.1.2 = fkeys r1.1.1.1.2.
Proof.
  intros Hr r1 r2. subst r1 r2.
  pose proof (scrape_same w w' k k' (eq_sym Hr)) as Hsame.
  rewrite (run_as_run_saves d w k). cbn [fst snd].
  rewrite (run_as_run_saves (run_saves (scrape w k).1.1 d).1 w' k').
  cbn [fst snd].
  set (src1 := (scrape w k).1.1) in *. set (src2 := (scrape w' k').1.1) in *.
  set (d1 := (run_saves src1 d).1).
  assert (Hcov : covered d1 src2).
  { apply (same_source_covered d1 src1); [done|]. apply run_saves_covers. }
  destruct (run_saves_present src2 d1 Hcov) as (Hc & Hs & Hf & Hl).
  refine (conj _ (conj Hl (conj _ (conj Hc (conj Hs Hf))))).
  - unfold same_source in Hsame. by destruct Hsame.
  - unfold count_documents.
    by rewrite (keys_length company_key _ _ Hc),
               (keys_length shareholder_key _ _ Hs),
               (keys_length financial_key _ _ Hf).
Qed.

(** *** Records of other companies *)

Lemma save_shareholders_other (company_code : str)
    (shs : list shareholder) (d : db) :
  Forall (shareholder_ok company_code) shs ->
  companies (save_shareholders shs d).1 = companies d /\
  financials (save_shareholders shs d).1 = financials d /\
  (forall s, s ∈ shareholders d -> s_company_code s <> company_code ->
             s ∈ shareholders (save_shareholders shs d).1).
Proof.
  intros Hok. unfold save_shareholders.
  pose proof (save_other shareholder_key shs (shareholders d)) as Ho.
  destruct (save shareholder_key shs (shareholders d)) as [coll c].
  cbn [fst companies shareholders financials] in *.
  repeat split. intros s Hs Hne. apply Ho; [done|].
  unfold keys. intros Hin.
  apply list_elem_of_fmap in Hin as (s' & Hk & Hs').
  rewrite Forall_forall in Hok. destruct (Hok s' Hs') as (Hcode & _).
  unfold shareholder_key in Hk. congruence.
Qed.

Lemma save_financials_other (company_code : str)
    (fs : list financial) (d : db) :
  Forall (financial_ok company_code) fs ->
  companies (save_financials fs d).1 = companies d /\
  shareholders (save_financials fs d).1 = shareholders d /\
  (forall f, f ∈ financials d -> f_company_code f <> company_code ->
             f ∈ financials (save_financials fs d).1).
Proof.
  intros Hok. unfold save_financials.
  pose proof (save_other financial_key fs (financials d)) as Ho.
  destruct (save financial_key fs (financials d)) as [coll c].
  cbn [fst companies shareholders financials] in *.
  repeat split. intros f Hf Hne. apply Ho; [done|].
  unfold keys. intros Hin.
  apply list_elem_of_fmap in Hin as (f' & Hk & Hf').
  rewrite Forall_forall in Hok. destruct (Hok f' Hf') as (Hcode & _).
  unfold financial_key in Hk. congruence.
Qed.

Lemma run_companies_other (cs : list company) :
  forall (d : db) (w : net) (k : nat),
    companies (run_companies utcnow cs d w k).1.1.1 = companies d /\
    (forall s, s ∈ shareholders d -> s_company_code s ∉ c_code <$> cs ->
               s ∈ shareholders (run_companies utcnow cs d w k).1.1.1) /\
    (forall f, f ∈ financials d -> f_company_code f ∉ c_code <$> cs ->
               f ∈ financials (run_companies utcnow cs d w k).1.1.1).
Proof.
  induction cs as [|c cs IH]; intros d w k; [done|].
  cbn [run_companies].
  destruct (scrape_shareholders_ok (c_code c) (c_url c) w k) as [Hs _].
  destruct (scrape_shareholders utcnow _ _ w k) as [[shs w1] k1].
  cbn [fst snd] in Hs.
  destruct (save_shareholders_other (c_code c) shs d Hs) as (S1 & S2 & S3).
  destruct (save_shareholders shs d) as [d1 l1]. cbn [fst] in *.
  destruct (scrape_financials_ok (c_code c) (c_url c) w1 k1) as [Hf _].
  destruct (scrape_financials utcnow _ _ w1 k1) as [[fs w2] k2].
  cbn [fst snd] in Hf.
  destruct (save_financials_other (c_code c) fs d1 Hf) as (F1 & F2 & F3).
  destruct (save_financials fs d1) as [d2 l2]. cbn [fst] in *.
  destruct (IH d2 w2 k2) as (I1 & I2 & I3).
  destruct (run_companies utcnow cs d2 w2 k2) as [[[d3 l3] w3] k3].
  cbn [fst] in *. rewrite fmap_cons.
  refine (conj _ (conj _ _)).
  - congruence.
  - intros s Hin Hne. apply not_elem_of_cons in Hne as [Hne Hne'].
    apply I2; [|done]. rewrite F2. by apply S3.
  - intros f Hin Hne. apply not_elem_of_cons in Hne as [Hne Hne'].
    apply I3; [|done]. apply F3; [|done]. by rewrite S2.
Qed.

(** X20.  A run leaves the records of the companies that are not on the
    listing it fetched where they are: their company, shareholder and
    financial documents are all still stored afterwards. *)
Theorem run_keeps_other_companies (connected : bool) (d : db) (w : net)
    (k : nat) :
  let listed := c_code <$> (get_company_list utcnow w k).1.1 in
  let d' := (run utcnow connected d w k).1.1.1.2 in
  (forall c, c ∈ companies d -> c_code c ∉ listed -> c ∈ companies d') /\
  (forall s, s ∈ shareholders d -> s_company_code s ∉ listed ->
             s ∈ shareholders d') /\
  (forall f, f ∈ financials d -> f_company_code f ∉ listed ->
             f ∈ financials d').
Proof.
  intros listed d'. subst listed d'. unfold run.
  destruct connected; [|done].
  destruct (get_company_list utcnow w k) as [[cs w1] k1]. cbn [fst snd].
  destruct cs as [|c0 cs0]; [done|]. set (cs := c0 :: cs0).
  destruct (save_companies_spec cs d) as (Hsh & Hfi & _).
  pose proof (save_other company_key cs (companies d)) as Ho.
  unfold save_companies in *.
  destruct (save company_key cs (companies d)) as [coll c].
  cbn [fst snd companies shareholders financials] in *.
  destruct (run_companies_other cs (Db coll (shareholders d) (financials d))
              w1 k1) as (I1 & I2 & I3).
  destruct (run_companies utcnow cs _ w1 k1) as [[[d2 l2] w2] k2].
  cbn [fst snd companies shareholders financials] in *.
  refine (conj _ (conj I2 I3)).
  intros x Hin Hne. rewrite I1. by apply Ho.
Qed.

End Pages.

(** ** Texts read with [get_text(strip=True)] *)

Section Stripped.

(** No blank at either end. *)
Definition stripped (s : str) : Prop := strip s = s.

(** The first character, when there is one, is not a blank. *)
Definition starts_clean (s : str) : Prop :=
  match s with
  | [] => True
  | c :: _ => isspace c = false
  end.

Lemma lstrip_starts_clean (s : str) : starts_clean (lstrip s).
Proof.
  induction s as [|c s IH]; [done|]. cbn [lstrip].
  by destruct (isspace c) eqn:Hc.
Qed.

Lemma lstrip_clean (s : str) : starts_clean s -> lstrip s = s.
Proof. destruct s as [|c s]; [done|]. cbn. by intros ->. Qed.

Lemma lstrip_suffix (s : str) : exists pre, s = pre ++ lstrip s.
Proof.
  induction s as [|c s [pre IH]]; [by exists []|]. cbn [lstrip].
  destruct (isspace c).
  - exists (c :: pre). cbn. by rewrite <- IH.
  - by exists [].
Qed.

Lemma starts_clean_prefix (a b : str) :
  starts_clean (a ++ b) -> a <> [] -> starts_clean a.
Proof. by destruct a. Qed.

Lemma starts_clean_app (a b : str) :
  starts_clean a -> starts_clean b -> starts_clean (a ++ b).
Proof. by destruct a. Qed.

Lemma rstrip_starts_clean (s : str) :
  starts_clean s -> starts_clean (rstrip s).
Proof.
  intros Hs. unfold rstrip.
  destruct (lstrip_suffix (rev s)) as [pre Hpre].
  assert (Hrev : s = rev (lstrip (rev s)) ++ rev pre).
  { rewrite <- rev_app_distr, <- Hpre. by rewrite rev_involutive. }
  destruct (rev (lstrip (rev s))) as [|c t] eqn:E; [done|].
  rewrite Hrev in Hs. exact Hs.
Qed.

Lemma stripped_iff (s : str) :
  stripped s <-> starts_clean s /\ starts_clean (rev s).
Proof.
  unfold stripped, strip. split.
  - intros H. split.
    + rewrite <- H. apply rstrip_starts_clean, lstrip_starts_clean.
    + rewrite <- H. unfold rstrip. rewrite rev_involutive.
      apply lstrip_starts_clean.
  - intros [H1 H2]. rewrite (lstrip_clean s H1). unfold rstrip.
    by rewrite (lstrip_clean (rev s) H2), rev_involutive.
Qed.

Lemma strip_stripped (s : str) : stripped (strip s).
Proof.
  apply stripped_iff. unfold strip. split.
  - apply rstrip_starts_clean, lstrip_starts_clean.
  - unfold rstrip. rewrite rev_involutive. apply lstrip_starts_clean.
Qed.

Lemma concat_stripped (l : list str) :
  Forall stripped l -> stripped (concat l).
Proof.
  intros H. apply stripped_iff.
  induction H as [|x l Hx _ [IH1 IH2]]; [done|].
  apply stripped_iff in Hx as [Hx1 Hx2]. cbn [concat]. split.
  - by apply starts_clean_app.
  - rewrite rev_app_distr. by apply starts_clean_app.
Qed.

Lemma get_text_strip_stripped (n : node) : stripped (get_text_strip n).
Proof.
  unfold get_text_strip. apply concat_stripped, Forall_forall.
  intros s Hs. apply list_elem_of_In, filter_In in Hs as [Hs _].
  apply in_map_iff in Hs as (t & <- & _). apply strip_stripped.
Qed.

Variable utcnow : nat -> Z.

Lemma company_rows_elem (rows : list node) (c : company) :
  forall k : nat,
    c ∈ (company_rows utcnow rows k).1 ->
    exists row k', company_of_row utcnow row k' = Some c.
Proof.
  induction rows as [|row rows IH]; intros k; cbn [company_rows].
  - intros H. inversion H.
  - destruct (company_of_row utcnow row k) as [c0|] eqn:E; [|apply IH].
    specialize (IH (S k)).
    destruct (company_rows utcnow rows (S k)) as [cs k']. cbn [fst] in *.
    intros H. apply elem_of_cons in H as [->|H]; [by exists row, k|auto].
Qed.

Lemma shareholder_rows_elem (company_code : str) (rows : list node)
    (s : shareholder) :
  forall k : nat,
    s ∈ (shareholder_rows utcnow company_code rows k).1 ->
    exists row k', shareholder_of_row utcnow company_code row k' = Some s.
Proof.
  induction rows as [|row rows IH]; intros k; cbn [shareholder_rows].
  - intros H. inversion H.
  - destruct (shareholder_of_row utcnow company_code row k) as [s0|] eqn:E;
      [|apply IH].
    specialize (IH (S k)).
    destruct (shareholder_rows utcnow company_code rows (S k)) as [shs k'].
    cbn [fst] in *.
    intros H. apply elem_of_cons in H as [->|H]; [by exists row, k|auto].
Qed.

Lemma financial_rows_elem (company_code : str) (years : list str)
    (rows : list node) (f : financial) :
  forall k : nat,
    f ∈ (financial_rows utcnow company_code years rows k).1 ->
    exists row k',
      financial_of_row utcnow company_code years row k' = Some f.
Proof.
  induction rows as [|row rows IH]; intros k; cbn [financial_rows].
  - intros H. inversion H.
  - destruct (financial_of_row utcnow company_code years row k)
      as [f0|] eqn:E; [|apply IH].
    specialize (IH (S k)).
    destruct (financial_rows utcnow company_code years rows (S k))
      as [fs k'].
    cbn [fst] in *.
    intros H. apply elem_of_cons in H as [->|H]; [by exists row, k|auto].
Qed.

Lemma fill_values_stripped (years : list str) :
  forall (cells : list node) (values : list (str * str)),
    Forall stripped years ->
    Forall (fun yv => stripped yv.1 /\ stripped yv.2) values ->
    Forall (fun yv => stripped yv.1 /\ stripped yv.2)
           (fill_values years cells values).
Proof.
  induction years as [|year years IH]; intros cells values Hy Hv; [done|].
  destruct cells as [|cell cells]; [done|]. cbn [fill_values].
  inversion Hy as [|? ? Hyear Hy']; subst.
  apply IH; [done|].
  destruct (negb _ && negb _); [|done].
  apply Forall_forall. intros e He.
  destruct (dict_set_elem_of _ _ _ _ He) as [->|Hin].
  - split; [done|]. apply get_text_strip_stripped.
  - rewrite Forall_forall in Hv. by apply Hv.
Qed.

(** X21.  Every text the three scrapers read from a page and store (the
    title, consensus and potential of a company, the name and percentage
    of a shareholder, the name of a metric, its years and its values) has
    no blank at either end. *)
Theorem scraped_texts_stripped (company_code company_url : str) (w : net)
    (k : nat) :
  Forall (fun c => stripped (c_title c) /\ stripped (c_consensus c) /\
                   stripped (c_potential c))
         (get_company_list utcnow w k).1.1 /\
  Forall (fun s => stripped (s_name s) /\ stripped (s_percentage s))
         (scrape_shareholders utcnow company_code company_url w k).1.1 /\
  Forall (fun f => stripped (f_metric f) /\
                   Forall (fun yv => stripped yv.1 /\ stripped yv.2)
                          (f_values f))
         (scrape_financials utcnow company_code company_url w k).1.1.
Proof.
  unfold get_company_list, scrape_shareholders, scrape_financials.
  destruct (fetch_page w) as [[d|] w']; [|by repeat split; constructor].
  refine (conj _ (conj _ _)).
  - unfold companies_of_page.
    destruct (find_table_by_id (lit "tabQuotes") d) as [table|];
      [|constructor].
    destruct (find (lit "tbody") table) as [tbody|]; [|constructor].
    pose proof (fun c =>
      company_rows_elem (find_all_nodes (lit "tr") tbody) c k) as He.
    destruct (company_rows utcnow _ k) as [cs k']. cbn [fst] in *.
    apply Forall_forall. intros c Hc.
    destruct (He c Hc) as (row & k0 & Hrow). unfold company_of_row in Hrow.
    destruct (find (lit "td") row) as [td|]; [|discriminate].
    destruct (find (lit "a") td) as [a_tag|]; [|discriminate].
    assert (Hnth : forall i : nat,
               stripped match nth_error (find_all_nodes (lit "td") row) i with
                        | Some t => get_text_strip t
                        | None => []
                        end).
    { intros i. destruct (nth_error _ i);
        [apply get_text_strip_stripped|done]. }
    injection Hrow as Hrow. rewrite <- Hrow.
    exact (conj (get_text_strip_stripped _) (conj (Hnth 1%nat) (Hnth 2%nat))).
  - unfold shareholders_of_page.
    destruct (find_table_by_id (lit "tblactions") d) as [table|];
      [|constructor].
    destruct (find (lit "tbody") table) as [tbody|]; [|constructor].
    pose proof (fun s =>
      shareholder_rows_elem company_code
        (find_all_nodes (lit "tr") tbody) s k) as He.
    destruct (shareholder_rows utcnow _ _ k) as [shs k']. cbn [fst] in *.
    apply Forall_forall. intros s Hs.
    destruct (He s Hs) as (row & k0 & Hrow).
    unfold shareholder_of_row in Hrow.
    destruct (find_all_nodes (lit "td") row) as [|t0 [|t1 [|t2 tds]]];
      try discriminate.
    pose proof (get_text_strip_stripped t1) as H1.
    pose proof (get_text_strip_stripped t2) as H2.
    destruct (get_text_strip t1) as [|a name]; [discriminate|].
    destruct (get_text_strip t2) as [|b pct]; [discriminate|].
    injection Hrow as Hrow. rewrite <- Hrow. by split.
  - unfold financials_of_page.
    destruct (find_table_by_class _ d) as [table|]; [|constructor].
    set (years := match find (lit "thead") table with
                  | Some thead => _
                  | None => []
                  end).
    assert (Hyears : Forall stripped years).
    { subst years. destruct (find (lit "thead") table); [|constructor].
      apply Forall_forall. intros y Hy.
      apply list_elem_of_In, in_map_iff in Hy as (t & <- & _).
      apply get_text_strip_stripped. }
    destruct (find (lit "tbody") table) as [tbody|]; [|constructor].
    destruct years as [|y0 ys] eqn:Ey; [constructor|].
    pose proof (fun f =>
      financial_rows_elem company_code (y0 :: ys)
        (find_all_nodes (lit "tr") tbody) f k) as He.
    destruct (financial_rows utcnow _ _ _ k) as [fs k']. cbn [fst] in *.
    apply Forall_forall. intros f Hf.
    destruct (He f Hf) as (row & k0 & Hrow).
    unfold financial_of_row in Hrow.
    destruct (find_all_nodes (lit "td") row) as [|c0 cells];
      [discriminate|].
    pose proof (fill_values_stripped (y0 :: ys) cells [] Hyears
                  (List.Forall_nil _)) as Hv.
    destruct (fill_values (y0 :: ys) cells []) as [|yv values];
      [discriminate|].
    injection Hrow as Hrow. rewrite <- Hrow.
    split; [apply get_text_strip_stripped|done].
Qed.

End Stripped.

(** ** A site, end to end *)

Definition th (s : string) : node := Tag (lit "th") [] [Text (lit s)].
Definition td (s : string) : node := Tag (lit "td") [] [Text (lit s)].
Definition tr (cells : list node) : node := Tag (lit "tr") [] cells.

(** The listing: two companies. *)
Definition listing_page : node :=
  Tag (lit "[document]") []
    [ Tag (lit "table") [(lit "id", lit "tabQuotes")]
        [ Tag (lit "thead") [] [ tr [th "Valeur"; th "Consensus"] ];
          Tag (lit "tbody") []
            [ tr [ cell [ Tag (lit "a") [(lit "href", lit "conseil/BT")]
                              [Text (lit " Banque de Tunisie ")] ];
                   td "Acheter"; td "12,5%" ];
              tr [ cell [ Tag (lit "a") [(lit "href", lit "SFBT")]
                              [Text (lit "SFBT")] ];
                   td "Conserver" ] ] ] ].

(** A detail page: two shareholders (a third row has no percentage) and
    two metrics, one of them without a value for the last year. *)
Definition detail_page : node :=
  Tag (lit "[document]") []
    [ Tag (lit "table") [(lit "id", lit "tblactions")]
        [ Tag (lit "tbody") []
            [ tr [td ""; td "CIC"; td "35,33%"];
              tr [td ""; td "Flottant"; td " 64,67% "];
              tr [td ""; td "Autres"; td " "] ] ];
      Tag (lit "table")
          [(lit "class", lit "tablenosort tbl100_6 tabSociete")]
        [ Tag (lit "thead") [] [ tr [th ""; th "2023"; th "2024"] ];
          Tag (lit "tbody") []
            [ tr [td "PNB"; td "420"; td "455"];
              tr [td "Dividende"; td "5,2"; td "-"];
              tr [td "Effectif"; td "-"; td ""] ] ] ].

(** The replies of the site to one run: the listing, then the detail page
    of each company, asked for twice; one request fails. *)
Definition sample_site : list reply :=
  [Page listing_page; Page detail_page; Page detail_page; Failure;
   Page detail_page].

Definition sample_clock (n : nat) : Z := 1000 + Z.of_nat n.

Example run_sample_site :
  (run sample_clock true empty_db (Net 0 sample_site) 0).1.1.2
  = [LogCompanies 2 0; LogShareholders 2 0; LogFinancials 2 0;
     LogFinancials 2 0] /\
  count_documents (run sample_clock true empty_db (Net 0 sample_site) 0).1.1.1.2
  = (2, 2, 4)%nat.
Proof. split; vm_compute; reflexivity. Qed.

Lemma run_twice_inserts_nothing_witness :
  replies (Net 5 sample_site) = replies (Net 0 sample_site) /\
  Forall (fun l => line_inserted l = 0%nat)
         (run sample_clock true
              (run sample_clock true empty_db (Net 0 sample_site) 0).1.1.1.2
              (Net 5 sample_site) 50).1.1.2.
Proof.
  split; [reflexivity|].
  exact (proj1 (proj2 (run_twice_inserts_nothing
                         sample_clock empty_db (Net 0 sample_site)
                         (Net 5 sample_site) 0 50 eq_refl))).
Defined.
